(** * recurly: the null-aware XML codec and the webhook dispatcher

    A shallow embedding of the Go package [recurly] (subscriptions,
    transactions, the nullable integer) and of its [webhooks] package
    (the notification parser), with the properties their specification
    states about them.

    The Go standard library is not part of the repository.  What the code
    uses of it is embedded here the way the library behaves:
    - [strconv]: integer parsing and formatting, written out;
    - [encoding/xml]: the encoder writes a stream of tokens, the decoder
      reads the tree of an element; struct fields are encoded and decoded
      in the order and under the names of their [xml:"..."] tags;
    - [time], [net] and floating point: the textual forms are taken as
      parameters ([recurly.Externals]), as are the decoders of the types of
      the package whose files are not among the sources. *)

From Stdlib Require Import ZArith List String Ascii Bool Lia Floats Permutation FinFun.
Import ListNotations.

#[local] Open Scope string_scope.
#[local] Open Scope list_scope.
#[local] Open Scope Z_scope.

(** ** Outcomes of fallible library calls *)

(** The error values of the standard library that the embedded code can
    meet. *)
Inductive liberror : Type :=
| NumError (func num reason : string)   (* *strconv.NumError *)
| UnmarshalError (msg : string)         (* xml.UnmarshalError *)
| SyntaxError (msg : string)            (* *xml.SyntaxError, io.EOF *)
| AddrError (msg : string)              (* *net.AddrError *)
| ParseError (layout value : string)    (* *time.ParseError *)
| EncodeError (msg : string)            (* an error of fmt.Errorf in xml *)
| ReadError (msg : string).             (* an error of the io.Reader *)

Inductive result (A : Type) : Type :=
| Ok (a : A)
| Err (e : liberror).
Arguments Ok {A} a.
Arguments Err {A} e.

Definition bind {A B} (r : result A) (k : A -> result B) : result B :=
  match r with
  | Ok a => k a
  | Err e => Err e
  end.

Notation "x <- r ;; k" := (bind r (fun x => k))
  (at level 61, r at next level, right associativity).

(** ** strconv *)
Module strconv.

Definition ErrSyntax := "invalid syntax".
Definition ErrRange := "value out of range".

Definition maxUint64 : Z := 2 ^ 64 - 1.

Definition digit_char (d : Z) : ascii := ascii_of_nat (Z.to_nat (48 + d)).

(** Decimal digits of a positive number, most significant first. *)
Fixpoint digits_fuel (fuel : nat) (n : Z) (acc : string) : string :=
  match fuel with
  | O => acc
  | S fuel' =>
      let acc' := String (digit_char (n mod 10)) acc in
      if n / 10 =? 0 then acc' else digits_fuel fuel' (n / 10) acc'
  end.

(** [strconv.FormatInt(i, 10)], which is also [strconv.Itoa] and the verb
    [%d]. *)
Definition FormatInt (i : Z) : string :=
  let u := Z.abs i in
  let ds := digits_fuel (S (Z.to_nat (Z.log2 u))) u "" in
  if i <? 0 then String "-" ds else ds.

Definition FormatBool (b : bool) : string := if b then "true" else "false".

(** The loop of [strconv.ParseUint(s, 10, 64)] over the bytes of [s]:
    [n] is the value read so far.  A byte that is no decimal digit is a
    syntax error, a value above [maxUint64] a range error, whichever comes
    first. *)
Fixpoint parseUint_loop (s : string) (n : Z) : Z * option string :=
  match s with
  | EmptyString => (n, None)
  | String d rest =>
      let c := Z.of_nat (nat_of_ascii d) in
      if (48 <=? c) && (c <=? 57) then
        let v := c - 48 in
        if n >=? maxUint64 / 10 + 1 then (maxUint64, Some ErrRange)
        else
          let n1 := n * 10 + v in
          if n1 >? maxUint64 then (maxUint64, Some ErrRange)
          else parseUint_loop rest n1
      else (0, Some ErrSyntax)
  end.

Definition ParseUint (s : string) : Z * option string :=
  match s with
  | EmptyString => (0, Some ErrSyntax)
  | _ => parseUint_loop s 0
  end.

(** [strconv.ParseInt(s, 10, 64)].  A syntax error of [ParseUint] is
    returned at once; after a range error [un] is [maxUint64] and one of
    the two range checks fires: either way the reason is that of
    [ParseUint]. *)
Definition ParseInt (s : string) : result Z :=
  match s with
  | EmptyString => Err (NumError "ParseInt" s ErrSyntax)
  | String c rest =>
      let neg := Ascii.eqb c "-" in
      let body := if Ascii.eqb c "+" || neg then rest else s in
      let '(un, err) := ParseUint body in
      match err with
      | Some reason => Err (NumError "ParseInt" s reason)
      | None =>
          let cutoff := 2 ^ 63 in
          if negb neg && (un >=? cutoff) then Err (NumError "ParseInt" s ErrRange)
          else if neg && (un >? cutoff) then Err (NumError "ParseInt" s ErrRange)
          else Ok (if neg then - un else un)
      end
  end.

End strconv.

(** ** encoding/xml *)
Module xml.

Record Attr : Type := { Attr_Name : string; Attr_Value : string }.

(** [xml.StartElement]; names are their local part, the payloads of this
    package carry no name spaces. *)
Record StartElement : Type := { Name : string; Attrs : list Attr }.

Definition start (name : string) : StartElement :=
  {| Name := name; Attrs := [] |}.

(** What an [xml.Encoder] writes. *)
Inductive Token : Type :=
| TStart (s : StartElement)
| TEnd (name : string)
| TCharData (data : string).

(** What an [xml.Decoder] reads: an element with its content. *)
#[warnings="-register-all"]
Inductive Node : Type :=
| Elem (s : StartElement) (kids : list Node)
| CharData (data : string).

(** The encoder is the output written so far. *)
Definition Encoder := list Token.

(** *** Writing *)

(** Character data is written empty as no token at all, so that the tokens
    of an element are those a decoder reads back. *)
Definition text (s : string) : list Token :=
  if String.eqb s "" then [] else [TCharData s].

(** An element with simple content, [<name attrs>s</name>]. *)
Definition simple (st : StartElement) (s : string) : list Token :=
  TStart st :: text s ++ [TEnd (Name st)].

(** A piece of encoding: it extends the output and may fail, and what was
    written before a failure stays written. *)
Definition writer := Encoder -> Encoder * option liberror.

Definition emit (ts : list Token) : writer := fun e => (e ++ ts, None).

Definition skip : writer := fun e => (e, None).

Definition fail (err : liberror) : writer := fun e => (e, Some err).

Definition seq (a b : writer) : writer :=
  fun e =>
    match a e with
    | (e', None) => b e'
    | (e', Some err) => (e', Some err)
    end.

Notation "a >> b" := (seq a b) (at level 62, left associativity).

(** [e.EncodeElement(v, start)] for a value of simple type whose text is
    [s]: a start element without a name is refused. *)
Definition EncodeElement_simple (s : string) (st : StartElement) : writer :=
  if String.eqb (Name st) ""
  then fail (EncodeError "xml: EncodeElement of StartElement with missing name")
  else emit (simple st s).

Definition EncodeElement_int (v : Z) : StartElement -> writer :=
  EncodeElement_simple (strconv.FormatInt v).

Definition EncodeElement_bool (v : bool) : StartElement -> writer :=
  EncodeElement_simple (strconv.FormatBool v).

Definition EncodeElement_string (v : string) : StartElement -> writer :=
  EncodeElement_simple v.

(** **** Struct fields

    A field [F T `xml:"name"`] or [`xml:"name,omitempty"`] of simple type:
    with [omitempty] the zero value writes nothing. *)
Definition field_string (name : string) (omitempty : bool) (v : string) : writer :=
  if omitempty && String.eqb v "" then skip else emit (simple (start name) v).

Definition field_int (name : string) (omitempty : bool) (v : Z) : writer :=
  if omitempty && (v =? 0) then skip
  else emit (simple (start name) (strconv.FormatInt v)).

Definition field_bool (name : string) (omitempty : bool) (v : bool) : writer :=
  if omitempty && negb v then skip
  else emit (simple (start name) (strconv.FormatBool v)).

Definition field_float (fmt : float -> string) (name : string) (omitempty : bool)
    (v : float) : writer :=
  if omitempty && PrimFloat.eqb v 0%float then skip
  else emit (simple (start name) (fmt v)).

(** A field whose type has a [MarshalXML] method: the method is called with
    the start element of the tag.  [omitempty] has no effect on a struct. *)
Definition field_marshaler {A} (name : string)
    (MarshalXML : A -> Encoder -> StartElement -> Encoder * option liberror)
    (v : A) : writer :=
  fun e => MarshalXML v e (start name).

(** A field of struct type without such a method: its fields between the
    tags of [name]. *)
Definition field_struct (name : string) (fields : writer) : writer :=
  emit [TStart (start name)] >> fields >> emit [TEnd name].

(** A pointer field with [omitempty]: [nil] writes nothing. *)
Definition field_ptr {A} (f : A -> writer) (v : option A) : writer :=
  match v with
  | None => skip
  | Some a => f a
  end.

(** The elements of a slice, one after the other, without enclosing tag. *)
Fixpoint each {A} (f : A -> writer) (l : list A) : writer :=
  match l with
  | [] => skip
  | a :: rest => f a >> each f rest
  end.

(** A slice field [`xml:"parent>name,omitempty"`]: the parent element is
    opened for every slice, also an empty one, and encloses the elements. *)
Definition field_slice {A} (parent : string) (f : A -> writer) (l : list A) : writer :=
  emit [TStart (start parent)] >> each f l >> emit [TEnd parent].

(** A field whose type implements [encoding.TextMarshaler]: the start tag
    is written before the text is asked for. *)
Definition field_text (name : string) (txt : result string) : writer :=
  emit [TStart (start name)]
  >> match txt with
     | Ok s => emit (text s ++ [TEnd name])
     | Err e => fail e
     end.

(** *** Reading *)

(** The character data directly inside an element; child elements are
    skipped. *)
Fixpoint chardata (kids : list Node) : string :=
  match kids with
  | [] => ""
  | CharData s :: rest => s ++ chardata rest
  | Elem _ _ :: rest => chardata rest
  end.

(** [d.DecodeElement(&v, &start)] for [v] of type [int] and [string],
    with [d] at the content of the element.  The text of an [int] goes to
    [strconv.ParseInt] as it stands, which is what the releases of Go that
    the file of [NullInt] is built for (1.7 and 1.8) do; an [int] has 64
    bits. *)
Definition DecodeElement_int (d : list Node) : result Z :=
  strconv.ParseInt (chardata d).

Definition DecodeElement_string (d : list Node) : result string :=
  Ok (chardata d).

(** **** Struct fields, reading

    A decoder of a value of type [A] gets the value held so far, the
    content of the element and its start element. *)
Definition decoder (A : Type) := A -> list Node -> StartElement -> result A.

(** A type with an [UnmarshalXML] method is decoded by that method. *)
Definition unmarshaler {A}
    (UnmarshalXML : A -> list Node -> StartElement -> A * option liberror)
  : decoder A :=
  fun cur d st =>
    match UnmarshalXML cur d st with
    | (v, None) => Ok v
    | (_, Some e) => Err e
    end.

Definition dec_string : decoder string := fun _ d _ => DecodeElement_string d.
Definition dec_int : decoder Z := fun _ d _ => DecodeElement_int d.
Definition dec_float (parse : string -> result float) : decoder float :=
  fun _ d _ => parse (chardata d).

(** A pointer field: a nil pointer is allocated, then decoded into. *)
Definition dec_ptr {A} (zero : A) (dec : decoder A) : decoder (option A) :=
  fun cur d st =>
    v <- dec (match cur with Some a => a | None => zero end) d st ;;
    Ok (Some v).

(** The element [st] with content [d], met among the children of a struct,
    is offered to the field with tag [name] that holds [cur]: the field
    takes it when the names agree. *)
Definition field {A} (name : string) (dec : decoder A)
    (st : StartElement) (d : list Node) (cur : A) : result A :=
  if String.eqb (Name st) name then dec cur d st else Ok cur.

(** The loop over the content of an element: every child element goes
    through [child] in the order of the payload, the first error ends the
    loop, character data between the children is passed over. *)
Fixpoint children {A} (child : StartElement -> list Node -> A -> result A)
    (d : list Node) (v : A) : result A :=
  match d with
  | [] => Ok v
  | CharData _ :: rest => children child rest v
  | Elem st' d' :: rest => v' <- child st' d' v ;; children child rest v'
  end.

(** A slice field [`xml:"parent>name"`]: inside an element [parent] every
    element [name] is decoded into a new last element of the slice. *)
Definition field_path {A} (parent name : string) (zero : A) (dec : decoder A)
    (st : StartElement) (d : list Node) (cur : list A) : result (list A) :=
  if String.eqb (Name st) parent
  then children (fun st' d' l =>
                   if String.eqb (Name st') name
                   then v <- dec zero d' st' ;; Ok (l ++ [v])
                   else Ok l) d cur
  else Ok cur.

(** A struct with a field [XMLName xml.Name `xml:"name"`] only decodes an
    element of that name. *)
Definition expect (name : string) (st : StartElement) : result unit :=
  if String.eqb (Name st) name then Ok tt
  else Err (UnmarshalError
              ("expected element type <" ++ name ++ "> but have <" ++ Name st ++ ">")).

(** *** The bytes *)

(** The double quote. *)
Definition quote : ascii := ascii_of_nat 34.

Definition escape_char (c : ascii) : string :=
  let n := nat_of_ascii c in
  if Ascii.eqb c quote then "&#34;"
  else if Ascii.eqb c "'" then "&#39;"
  else if Ascii.eqb c "&" then "&amp;"
  else if Ascii.eqb c "<" then "&lt;"
  else if Ascii.eqb c ">" then "&gt;"
  else if Nat.eqb n 9 then "&#x9;"
  else if Nat.eqb n 10 then "&#xA;"
  else if Nat.eqb n 13 then "&#xD;"
  else if Nat.ltb n 32
       then String (ascii_of_nat 239) (String (ascii_of_nat 191) (String (ascii_of_nat 189) ""))
  else String c "".

(** [xml.EscapeText] on text whose bytes above 127 are the UTF-8 form of
    XML characters. *)
Fixpoint EscapeText (s : string) : string :=
  match s with
  | EmptyString => ""
  | String c rest => escape_char c ++ EscapeText rest
  end.

Definition render_attr (a : Attr) : string :=
  if String.eqb (Attr_Name a) "" then ""
  else " " ++ Attr_Name a ++ "=" ++ String quote (EscapeText (Attr_Value a))
       ++ String quote "".

Definition render_token (t : Token) : string :=
  match t with
  | TStart s => "<" ++ Name s ++ String.concat "" (map render_attr (Attrs s)) ++ ">"
  | TEnd name => "</" ++ name ++ ">"
  | TCharData data => EscapeText data
  end.

(** The bytes the encoder has written. *)
Definition render (e : Encoder) : string :=
  String.concat "" (map render_token e).

(** The tokens of a tree. *)
Fixpoint tokens (n : Node) : list Token :=
  match n with
  | CharData data => text data
  | Elem s kids =>
      TStart s :: (fix all (l : list Node) : list Token :=
                     match l with
                     | [] => []
                     | k :: r => tokens k ++ all r
                     end) kids ++ [TEnd (Name s)]
  end.

(** *** What a writer writes *)

(** The tokens a writer adds to an empty output. *)
Definition emitted (w : writer) : list Token := fst (w []).

(** A writer that never fails and adds the same tokens to every output. *)
Definition total (w : writer) : Prop :=
  forall e, w e = (e ++ emitted w, None).

(** The names of the elements opened in a run of tokens. *)
Fixpoint start_names (ts : list Token) : list string :=
  match ts with
  | [] => []
  | TStart st :: rest => Name st :: start_names rest
  | _ :: rest => start_names rest
  end.

(** A writer that, failing or not, only adds tokens, and opens no element
    but those of [allowed]. *)
Definition writes_only (allowed : list string) (w : writer) : Prop :=
  forall e, exists ts, fst (w e) = e ++ ts /\ incl (start_names ts) allowed.

(** Whether the content [d] has a child element [name]. *)
Definition has_child (name : string) (d : list Node) : bool :=
  existsb (fun k => match k with
                    | Elem st _ => String.eqb (Name st) name
                    | CharData _ => false
                    end) d.

End xml.

(** ** time *)
Module time.

(** [time.Time] as an instant: seconds since the epoch and nanoseconds
    within the second, the latter in [0, 999999999].  This is a time
    without a reading of the monotonic clock, as a time that was parsed or
    built from a date is. *)
Record Time : Type := { sec : Z; nsec : Z }.

Definition normal (t : Time) : Prop := 0 <= nsec t < 10 ^ 9.

(** The instant in nanoseconds. *)
Definition nanos (t : Time) : Z := sec t * 10 ^ 9 + nsec t.

(** [t.Before(u)]. *)
Definition Before (t u : Time) : bool :=
  (sec t <? sec u) || ((sec t =? sec u) && (nsec t <? nsec u)).

End time.

(** ** net *)
Module net.

Definition IP := list Byte.byte.

Definition IPv4len : nat := 4.
Definition IPv6len : nat := 16.

(** [ip.MarshalText()], with [ip.String()] given as [str]. *)
Definition MarshalText (str : IP -> string) (ip : IP) : result string :=
  if Nat.eqb (List.length ip) 0 then Ok ""
  else if negb (Nat.eqb (List.length ip) IPv4len) && negb (Nat.eqb (List.length ip) IPv6len)
       then Err (AddrError "invalid IP address")
  else Ok (str ip).

(** The lengths [MarshalText] accepts. *)
Definition marshals (ip : IP) : bool :=
  Nat.eqb (List.length ip) 0 || Nat.eqb (List.length ip) IPv4len
  || Nat.eqb (List.length ip) IPv6len.

End net.

(** ** strings *)
Module strings.

(** [strings.Replace(s, old, new, -1)] for [old] of one byte: every such
    byte of [s] becomes [new]. *)
Fixpoint Replace_byte (s : list ascii) (old : ascii) (new : list ascii) : list ascii :=
  match s with
  | [] => []
  | c :: rest =>
      (if Ascii.eqb c old then new else [c]) ++ Replace_byte rest old new
  end.

(** The UTF-8 forms of the characters for which [unicode.IsSpace] holds:
    tab to carriage return, the space, U+0085, U+00A0, U+1680, U+2000 to
    U+200A, U+2028, U+2029, U+202F, U+205F and U+3000. *)
Definition White_Space : list (list ascii) :=
  map (map ascii_of_nat)
    [ [9]; [10]; [11]; [12]; [13]; [32]; [194; 133]; [194; 160]; [225; 154; 128];
      [226; 128; 128]; [226; 128; 129]; [226; 128; 130]; [226; 128; 131];
      [226; 128; 132]; [226; 128; 133]; [226; 128; 134]; [226; 128; 135];
      [226; 128; 136]; [226; 128; 137]; [226; 128; 138]; [226; 128; 168];
      [226; 128; 169]; [226; 128; 175]; [226; 129; 159]; [227; 128; 128] ]%nat.

(** What is left of [l] after its prefix [w], when [w] is a prefix. *)
Fixpoint after (w l : list ascii) : option (list ascii) :=
  match w, l with
  | [], _ => Some l
  | _ :: _, [] => None
  | a :: w', b :: l' => if Ascii.eqb a b then after w' l' else None
  end.

(** What is left of [l] after the first form of [table] it starts with. *)
Fixpoint leading (table : list (list ascii)) (l : list ascii) : option (list ascii) :=
  match table with
  | [] => None
  | w :: rest =>
      match after w l with
      | Some r => Some r
      | None => leading rest l
      end
  end.

(** The loop that passes over the forms at the start of [l]; every round
    takes at least one byte, so the length of [l] is rounds enough. *)
Fixpoint strip (table : list (list ascii)) (rounds : nat) (l : list ascii) : list ascii :=
  match rounds with
  | O => l
  | S rounds' =>
      match leading table l with
      | Some r => strip table rounds' r
      | None => l
      end
  end.

(** [strings.TrimLeftFunc(s, unicode.IsSpace)] and
    [strings.TrimRightFunc(s, unicode.IsSpace)] on the bytes of [s]: the
    latter reads the characters from the end, which are the same forms
    read backwards. *)
Definition TrimLeft (l : list ascii) : list ascii :=
  strip White_Space (List.length l) l.

Definition TrimRight (l : list ascii) : list ascii :=
  rev (strip (map (@rev ascii) White_Space) (List.length l) (rev l)).

(** [strings.TrimSpace]. *)
Definition TrimSpace (s : string) : string :=
  string_of_list_ascii (TrimRight (TrimLeft (list_ascii_of_string s))).

(** [strings.Replace(s, "-", "", -1)]. *)
Definition remove_dashes (s : string) : string :=
  string_of_list_ascii (Replace_byte (list_ascii_of_string s) "-"%char []).

End strings.

(** ** Package recurly *)
Module recurly.
Import xml.

(** *** NullInt *)

Record NullInt : Type := { NullInt_Int : Z; NullInt_Valid : bool }.

Definition NullInt_zero : NullInt := {| NullInt_Int := 0; NullInt_Valid := false |}.

Definition NewInt (i : Z) : NullInt := {| NullInt_Int := i; NullInt_Valid := true |}.

(** The receiver [*n] is passed in and its value afterwards is returned
    next to the error; [d] stands at the content of the element. *)
Definition NullInt_UnmarshalXML (n : NullInt) (d : list Node) (start : StartElement)
  : NullInt * option liberror :=
  match DecodeElement_int d with
  | Ok v => ({| NullInt_Int := v; NullInt_Valid := true |}, None)
  | Err _ => (n, None)
  end.

Definition NullInt_MarshalXML (n : NullInt) (e : Encoder) (start : StartElement)
  : Encoder * option liberror :=
  if NullInt_Valid n
  then (fst (EncodeElement_int (NullInt_Int n) start e), None)
  else (e, None).

Definition NullInt_MarshalJSON (n : NullInt) : string * option liberror :=
  if NullInt_Valid n then (strconv.FormatInt (NullInt_Int n), None)
  else ("null", None).

(** *** Types declared outside the sources *)

(** Modelled from the spec: NullBool, the nullable boolean (its file is not
    among the sources).  A value and whether it is set; the encoder emits
    the element with the textual form of the value iff it is set. *)
Record NullBool : Type := { NullBool_Bool : bool; NullBool_Valid : bool }.

Definition NullBool_zero : NullBool := {| NullBool_Bool := false; NullBool_Valid := false |}.

Definition NullBool_MarshalXML (n : NullBool) (e : Encoder) (start : StartElement)
  : Encoder * option liberror :=
  if NullBool_Valid n
  then (fst (EncodeElement_bool (NullBool_Bool n) start e), None)
  else (e, None).

(** Modelled from the spec: NullTime, the nullable timestamp (its file is
    not among the sources).  [Transactions.Less] shows its field [Time], a
    pointer that is nil when the timestamp is unset. *)
Record NullTime : Type := { NullTime_Time : option time.Time }.

Definition NullTime_zero : NullTime := {| NullTime_Time := None |}.

Definition NewTime (t : time.Time) : NullTime := {| NullTime_Time := Some t |}.

(** What the sources leave open: the textual forms of the standard library
    that are not written out here, and the decoders of the types of the
    package whose files are not among the sources. *)
Record Externals : Type := {
  FormatFloat : float -> string;
  ParseFloat : string -> result float;
  IP_String : net.IP -> string;
  Time_String : time.Time -> string;
  NullTime_UnmarshalXML : NullTime -> list Node -> StartElement -> NullTime * option liberror;
  NullBool_UnmarshalXML : NullBool -> list Node -> StartElement -> NullBool * option liberror;
  hrefString_UnmarshalXML : string -> list Node -> StartElement -> string * option liberror;
  hrefInt_UnmarshalXML : Z -> list Node -> StartElement -> Z * option liberror
}.

(** Modelled from the spec: the encoder of NullTime emits the element with
    the textual form of the timestamp iff it is set. *)
Definition NullTime_MarshalXML (X : Externals) (t : NullTime) (e : Encoder)
    (start : StartElement) : Encoder * option liberror :=
  match NullTime_Time t with
  | Some tm => (fst (EncodeElement_string (Time_String X tm) start e), None)
  | None => (e, None)
  end.

(** Modelled from the spec: Account and Billing (their files are not among
    the sources), with the fields the encoding tests set and the elements
    they expect: an account writes [<account>], its code when not empty
    and its billing information when present. *)
Record Billing : Type := { Billing_Token : string }.

Record Account : Type := {
  Account_Code : string;
  Account_BillingInfo : option Billing
}.

Definition Account_zero : Account :=
  {| Account_Code := ""; Account_BillingInfo := None |}.

Definition Billing_marshal (b : Billing) : writer :=
  field_struct "billing_info" (field_string "token_id" true (Billing_Token b)).

Definition Account_marshal (a : Account) : writer :=
  field_struct "account"
    (field_string "account_code" true (Account_Code a)
     >> field_ptr Billing_marshal (Account_BillingInfo a)).

(** *** Subscriptions *)

Record NestedPlan : Type := {
  NestedPlan_Code : string;
  NestedPlan_Name : string
}.

Record SubscriptionAddOn : Type := {
  SubscriptionAddOn_XMLName : string;
  SubscriptionAddOn_Type : string;
  SubscriptionAddOn_Code : string;
  SubscriptionAddOn_UnitAmountInCents : Z;
  SubscriptionAddOn_Quantity : Z
}.

Record PendingSubscription : Type := {
  PendingSubscription_XMLName : string;
  PendingSubscription_Plan : NestedPlan;
  PendingSubscription_Quantity : Z;
  PendingSubscription_Price : Z;
  PendingSubscription_SubscriptionAddOns : list SubscriptionAddOn
}.

Record Subscription : Type := {
  Subscription_XMLName : string;
  Subscription_Plan : NestedPlan;
  Subscription_AccountCode : string;
  Subscription_InvoiceNumber : Z;
  Subscription_UUID : string;
  Subscription_State : string;
  Subscription_UnitAmountInCents : Z;
  Subscription_Currency : string;
  Subscription_Quantity : Z;
  Subscription_TotalAmountInCents : Z;
  Subscription_ActivatedAt : NullTime;
  Subscription_CanceledAt : NullTime;
  Subscription_ExpiresAt : NullTime;
  Subscription_CurrentPeriodStartedAt : NullTime;
  Subscription_CurrentPeriodEndsAt : NullTime;
  Subscription_TrialStartedAt : NullTime;
  Subscription_TrialEndsAt : NullTime;
  Subscription_TaxInCents : Z;
  Subscription_TaxType : string;
  Subscription_TaxRegion : string;
  Subscription_TaxRate : float;
  Subscription_PONumber : string;
  Subscription_NetTerms : NullInt;
  Subscription_SubscriptionAddOns : list SubscriptionAddOn;
  Subscription_PendingSubscription : option PendingSubscription
}.

Record NewSubscription : Type := {
  NewSubscription_XMLName : string;
  NewSubscription_PlanCode : string;
  NewSubscription_Account : Account;
  NewSubscription_SubscriptionAddOns : option (list SubscriptionAddOn);
  NewSubscription_CouponCode : string;
  NewSubscription_UnitAmountInCents : Z;
  NewSubscription_Currency : string;
  NewSubscription_Quantity : Z;
  NewSubscription_TrialEndsAt : NullTime;
  NewSubscription_StartsAt : NullTime;
  NewSubscription_TotalBillingCycles : Z;
  NewSubscription_FirstRenewalDate : NullTime;
  NewSubscription_CollectionMethod : string;
  NewSubscription_NetTerms : NullInt;
  NewSubscription_PONumber : string;
  NewSubscription_Bulk : bool;
  NewSubscription_TermsAndConditions : string;
  NewSubscription_CustomerNotes : string;
  NewSubscription_VATReverseChargeNotes : string;
  NewSubscription_BankAccountAuthorizedAt : NullTime
}.

Record UpdateSubscription : Type := {
  UpdateSubscription_XMLName : string;
  UpdateSubscription_Timeframe : string;
  UpdateSubscription_PlanCode : string;
  UpdateSubscription_Quantity : Z;
  UpdateSubscription_UnitAmountInCents : Z;
  UpdateSubscription_CollectionMethod : string;
  UpdateSubscription_NetTerms : NullInt;
  UpdateSubscription_PONumber : string;
  UpdateSubscription_SubscriptionAddOns : option (list SubscriptionAddOn)
}.

(** The receiver is a copy of the subscription; the pointer of the result
    holds the add-ons of that copy. *)
Definition MakeUpdate (s : Subscription) : UpdateSubscription :=
  {| UpdateSubscription_XMLName := "";
     UpdateSubscription_Timeframe := "";
     UpdateSubscription_PlanCode := "";
     UpdateSubscription_Quantity := 0;
     UpdateSubscription_UnitAmountInCents := 0;
     UpdateSubscription_CollectionMethod := "";
     UpdateSubscription_NetTerms := Subscription_NetTerms s;
     UpdateSubscription_PONumber := "";
     UpdateSubscription_SubscriptionAddOns := Some (Subscription_SubscriptionAddOns s) |}.

(** **** Encoding

    For each struct the fields in the order of their declaration, each
    under the name and the options of its tag; a field tagged ["-"] is not
    written. *)

Definition NestedPlan_fields (p : NestedPlan) : writer :=
  field_string "plan_code" true (NestedPlan_Code p)
  >> field_string "name" true (NestedPlan_Name p).

Definition SubscriptionAddOn_marshal (a : SubscriptionAddOn) : writer :=
  field_struct "subscription_add_on"
    (field_string "add_on_type" true (SubscriptionAddOn_Type a)
     >> field_string "add_on_code" false (SubscriptionAddOn_Code a)
     >> field_int "unit_amount_in_cents" false (SubscriptionAddOn_UnitAmountInCents a)
     >> field_int "quantity" true (SubscriptionAddOn_Quantity a)).

Definition PendingSubscription_marshal (p : PendingSubscription) : writer :=
  field_struct "pending_subscription"
    (field_struct "plan" (NestedPlan_fields (PendingSubscription_Plan p))
     >> field_int "quantity" true (PendingSubscription_Quantity p)
     >> field_int "unit_amount_in_cents" true (PendingSubscription_Price p)
     >> field_slice "subscription_add_ons" SubscriptionAddOn_marshal
          (PendingSubscription_SubscriptionAddOns p)).

Section Encoding.
Variable X : Externals.

Definition Subscription_marshal (s : Subscription) : writer :=
  field_struct "subscription"
    (field_struct "plan" (NestedPlan_fields (Subscription_Plan s))
     (* AccountCode `xml:"-"` *)
     (* InvoiceNumber `xml:"-"` *)
     >> field_string "uuid" true (Subscription_UUID s)
     >> field_string "state" true (Subscription_State s)
     >> field_int "unit_amount_in_cents" true (Subscription_UnitAmountInCents s)
     >> field_string "currency" true (Subscription_Currency s)
     >> field_int "quantity" true (Subscription_Quantity s)
     >> field_int "total_amount_in_cents" true (Subscription_TotalAmountInCents s)
     >> field_marshaler "activated_at" (NullTime_MarshalXML X) (Subscription_ActivatedAt s)
     >> field_marshaler "canceled_at" (NullTime_MarshalXML X) (Subscription_CanceledAt s)
     >> field_marshaler "expires_at" (NullTime_MarshalXML X) (Subscription_ExpiresAt s)
     >> field_marshaler "current_period_started_at" (NullTime_MarshalXML X)
          (Subscription_CurrentPeriodStartedAt s)
     >> field_marshaler "current_period_ends_at" (NullTime_MarshalXML X)
          (Subscription_CurrentPeriodEndsAt s)
     >> field_marshaler "trial_started_at" (NullTime_MarshalXML X) (Subscription_TrialStartedAt s)
     >> field_marshaler "trial_ends_at" (NullTime_MarshalXML X) (Subscription_TrialEndsAt s)
     >> field_int "tax_in_cents" true (Subscription_TaxInCents s)
     >> field_string "tax_type" true (Subscription_TaxType s)
     >> field_string "tax_region" true (Subscription_TaxRegion s)
     >> field_float (FormatFloat X) "tax_rate" true (Subscription_TaxRate s)
     >> field_string "po_number" true (Subscription_PONumber s)
     >> field_marshaler "net_terms" NullInt_MarshalXML (Subscription_NetTerms s)
     >> field_slice "subscription_add_ons" SubscriptionAddOn_marshal
          (Subscription_SubscriptionAddOns s)
     >> field_ptr PendingSubscription_marshal (Subscription_PendingSubscription s)).

Definition NewSubscription_marshal (v : NewSubscription) : writer :=
  field_struct "subscription"
    (field_string "plan_code" false (NewSubscription_PlanCode v)
     >> Account_marshal (NewSubscription_Account v)
     >> field_ptr (field_slice "subscription_add_ons" SubscriptionAddOn_marshal)
          (NewSubscription_SubscriptionAddOns v)
     >> field_string "coupon_code" true (NewSubscription_CouponCode v)
     >> field_int "unit_amount_in_cents" true (NewSubscription_UnitAmountInCents v)
     >> field_string "currency" false (NewSubscription_Currency v)
     >> field_int "quantity" true (NewSubscription_Quantity v)
     >> field_marshaler "trial_ends_at" (NullTime_MarshalXML X) (NewSubscription_TrialEndsAt v)
     >> field_marshaler "starts_at" (NullTime_MarshalXML X) (NewSubscription_StartsAt v)
     >> field_int "total_billing_cycles" true (NewSubscription_TotalBillingCycles v)
     >> field_marshaler "first_renewal_date" (NullTime_MarshalXML X)
          (NewSubscription_FirstRenewalDate v)
     >> field_string "collection_method" true (NewSubscription_CollectionMethod v)
     >> field_marshaler "net_terms" NullInt_MarshalXML (NewSubscription_NetTerms v)
     >> field_string "po_number" true (NewSubscription_PONumber v)
     >> field_bool "bulk" true (NewSubscription_Bulk v)
     >> field_string "terms_and_conditions" true (NewSubscription_TermsAndConditions v)
     >> field_string "customer_notes" true (NewSubscription_CustomerNotes v)
     >> field_string "vat_reverse_charge_notes" true (NewSubscription_VATReverseChargeNotes v)
     >> field_marshaler "bank_account_authorized_at" (NullTime_MarshalXML X)
          (NewSubscription_BankAccountAuthorizedAt v)).

End Encoding.

Definition UpdateSubscription_marshal (v : UpdateSubscription) : writer :=
  field_struct "subscription"
    (field_string "timeframe" true (UpdateSubscription_Timeframe v)
     >> field_string "plan_code" true (UpdateSubscription_PlanCode v)
     >> field_int "quantity" true (UpdateSubscription_Quantity v)
     >> field_int "unit_amount_in_cents" true (UpdateSubscription_UnitAmountInCents v)
     >> field_string "collection_method" true (UpdateSubscription_CollectionMethod v)
     >> field_marshaler "net_terms" NullInt_MarshalXML (UpdateSubscription_NetTerms v)
     >> field_string "po_number" true (UpdateSubscription_PONumber v)
     >> field_ptr (field_slice "subscription_add_ons" SubscriptionAddOn_marshal)
          (UpdateSubscription_SubscriptionAddOns v)).

(** [xml.NewEncoder(&buf).Encode(v)] on an empty buffer: the bytes of the
    buffer when the encoder has flushed them, or the error. *)
Definition Encode (marshal : writer) : result string :=
  match marshal [] with
  | (e, None) => Ok (render e)
  | (_, Some err) => Err err
  end.

(** A new subscription that sets its required fields only. *)
Definition NewSubscription_required (xmlname plan : string) (account : Account)
    (currency : string) : NewSubscription :=
  {| NewSubscription_XMLName := xmlname;
     NewSubscription_PlanCode := plan;
     NewSubscription_Account := account;
     NewSubscription_SubscriptionAddOns := None;
     NewSubscription_CouponCode := "";
     NewSubscription_UnitAmountInCents := 0;
     NewSubscription_Currency := currency;
     NewSubscription_Quantity := 0;
     NewSubscription_TrialEndsAt := NullTime_zero;
     NewSubscription_StartsAt := NullTime_zero;
     NewSubscription_TotalBillingCycles := 0;
     NewSubscription_FirstRenewalDate := NullTime_zero;
     NewSubscription_CollectionMethod := "";
     NewSubscription_NetTerms := NullInt_zero;
     NewSubscription_PONumber := "";
     NewSubscription_Bulk := false;
     NewSubscription_TermsAndConditions := "";
     NewSubscription_CustomerNotes := "";
     NewSubscription_VATReverseChargeNotes := "";
     NewSubscription_BankAccountAuthorizedAt := NullTime_zero |}.

(** **** Decoding *)

Definition NestedPlan_zero : NestedPlan :=
  {| NestedPlan_Code := ""; NestedPlan_Name := "" |}.

Definition SubscriptionAddOn_zero : SubscriptionAddOn :=
  {| SubscriptionAddOn_XMLName := "";
     SubscriptionAddOn_Type := "";
     SubscriptionAddOn_Code := "";
     SubscriptionAddOn_UnitAmountInCents := 0;
     SubscriptionAddOn_Quantity := 0 |}.

Definition PendingSubscription_zero : PendingSubscription :=
  {| PendingSubscription_XMLName := "";
     PendingSubscription_Plan := NestedPlan_zero;
     PendingSubscription_Quantity := 0;
     PendingSubscription_Price := 0;
     PendingSubscription_SubscriptionAddOns := [] |}.

Definition Subscription_zero : Subscription :=
  {| Subscription_XMLName := "";
     Subscription_Plan := NestedPlan_zero;
     Subscription_AccountCode := "";
     Subscription_InvoiceNumber := 0;
     Subscription_UUID := "";
     Subscription_State := "";
     Subscription_UnitAmountInCents := 0;
     Subscription_Currency := "";
     Subscription_Quantity := 0;
     Subscription_TotalAmountInCents := 0;
     Subscription_ActivatedAt := NullTime_zero;
     Subscription_CanceledAt := NullTime_zero;
     Subscription_ExpiresAt := NullTime_zero;
     Subscription_CurrentPeriodStartedAt := NullTime_zero;
     Subscription_CurrentPeriodEndsAt := NullTime_zero;
     Subscription_TrialStartedAt := NullTime_zero;
     Subscription_TrialEndsAt := NullTime_zero;
     Subscription_TaxInCents := 0;
     Subscription_TaxType := "";
     Subscription_TaxRegion := "";
     Subscription_TaxRate := 0%float;
     Subscription_PONumber := "";
     Subscription_NetTerms := NullInt_zero;
     Subscription_SubscriptionAddOns := [];
     Subscription_PendingSubscription := None |}.

(** One child element [st] with content [d] of a plan, met while the plan
    holds [p]; likewise for the structs below. *)
Definition NestedPlan_child (st : StartElement) (d : list Node) (p : NestedPlan)
  : result NestedPlan :=
  code <- field "plan_code" dec_string st d (NestedPlan_Code p) ;;
  name <- field "name" dec_string st d (NestedPlan_Name p) ;;
  Ok {| NestedPlan_Code := code; NestedPlan_Name := name |}.

Definition NestedPlan_unmarshal : decoder NestedPlan :=
  fun cur d _ => children NestedPlan_child d cur.

Definition SubscriptionAddOn_child (st : StartElement) (d : list Node)
    (a : SubscriptionAddOn) : result SubscriptionAddOn :=
  type <- field "add_on_type" dec_string st d (SubscriptionAddOn_Type a) ;;
  code <- field "add_on_code" dec_string st d (SubscriptionAddOn_Code a) ;;
  amount <- field "unit_amount_in_cents" dec_int st d (SubscriptionAddOn_UnitAmountInCents a) ;;
  quantity <- field "quantity" dec_int st d (SubscriptionAddOn_Quantity a) ;;
  Ok {| SubscriptionAddOn_XMLName := SubscriptionAddOn_XMLName a;
        SubscriptionAddOn_Type := type;
        SubscriptionAddOn_Code := code;
        SubscriptionAddOn_UnitAmountInCents := amount;
        SubscriptionAddOn_Quantity := quantity |}.

Definition SubscriptionAddOn_unmarshal : decoder SubscriptionAddOn :=
  fun cur d st =>
    _ <- expect "subscription_add_on" st ;;
    children SubscriptionAddOn_child d
      {| SubscriptionAddOn_XMLName := Name st;
         SubscriptionAddOn_Type := SubscriptionAddOn_Type cur;
         SubscriptionAddOn_Code := SubscriptionAddOn_Code cur;
         SubscriptionAddOn_UnitAmountInCents := SubscriptionAddOn_UnitAmountInCents cur;
         SubscriptionAddOn_Quantity := SubscriptionAddOn_Quantity cur |}.

Definition PendingSubscription_child (st : StartElement) (d : list Node)
    (p : PendingSubscription) : result PendingSubscription :=
  plan <- field "plan" NestedPlan_unmarshal st d (PendingSubscription_Plan p) ;;
  quantity <- field "quantity" dec_int st d (PendingSubscription_Quantity p) ;;
  price <- field "unit_amount_in_cents" dec_int st d (PendingSubscription_Price p) ;;
  addons <- field_path "subscription_add_ons" "subscription_add_on"
              SubscriptionAddOn_zero SubscriptionAddOn_unmarshal st d
              (PendingSubscription_SubscriptionAddOns p) ;;
  Ok {| PendingSubscription_XMLName := PendingSubscription_XMLName p;
        PendingSubscription_Plan := plan;
        PendingSubscription_Quantity := quantity;
        PendingSubscription_Price := price;
        PendingSubscription_SubscriptionAddOns := addons |}.

Definition PendingSubscription_unmarshal : decoder PendingSubscription :=
  fun cur d st =>
    _ <- expect "pending_subscription" st ;;
    children PendingSubscription_child d
      {| PendingSubscription_XMLName := Name st;
         PendingSubscription_Plan := PendingSubscription_Plan cur;
         PendingSubscription_Quantity := PendingSubscription_Quantity cur;
         PendingSubscription_Price := PendingSubscription_Price cur;
         PendingSubscription_SubscriptionAddOns :=
           PendingSubscription_SubscriptionAddOns cur |}.

Section Decoding.
Variable X : Externals.

(** The struct [v] of [Subscription.UnmarshalXML]: the fields of a
    subscription, with the account code read as [hrefString] from the
    element [account] and the invoice number as [hrefInt] from the element
    [invoice]. *)
Definition Subscription_v_child (st : StartElement) (d : list Node) (v : Subscription)
  : result Subscription :=
  plan <- field "plan" NestedPlan_unmarshal st d (Subscription_Plan v) ;;
  account <- field "account" (unmarshaler (hrefString_UnmarshalXML X)) st d
               (Subscription_AccountCode v) ;;
  invoice <- field "invoice" (unmarshaler (hrefInt_UnmarshalXML X)) st d
               (Subscription_InvoiceNumber v) ;;
  uuid <- field "uuid" dec_string st d (Subscription_UUID v) ;;
  state <- field "state" dec_string st d (Subscription_State v) ;;
  amount <- field "unit_amount_in_cents" dec_int st d (Subscription_UnitAmountInCents v) ;;
  currency <- field "currency" dec_string st d (Subscription_Currency v) ;;
  quantity <- field "quantity" dec_int st d (Subscription_Quantity v) ;;
  total <- field "total_amount_in_cents" dec_int st d (Subscription_TotalAmountInCents v) ;;
  activated <- field "activated_at" (unmarshaler (NullTime_UnmarshalXML X)) st d
                 (Subscription_ActivatedAt v) ;;
  canceled <- field "canceled_at" (unmarshaler (NullTime_UnmarshalXML X)) st d
                (Subscription_CanceledAt v) ;;
  expires <- field "expires_at" (unmarshaler (NullTime_UnmarshalXML X)) st d
               (Subscription_ExpiresAt v) ;;
  started <- field "current_period_started_at" (unmarshaler (NullTime_UnmarshalXML X)) st d
               (Subscription_CurrentPeriodStartedAt v) ;;
  ends <- field "current_period_ends_at" (unmarshaler (NullTime_UnmarshalXML X)) st d
            (Subscription_CurrentPeriodEndsAt v) ;;
  trial_started <- field "trial_started_at" (unmarshaler (NullTime_UnmarshalXML X)) st d
                     (Subscription_TrialStartedAt v) ;;
  trial_ends <- field "trial_ends_at" (unmarshaler (NullTime_UnmarshalXML X)) st d
                  (Subscription_TrialEndsAt v) ;;
  tax <- field "tax_in_cents" dec_int st d (Subscription_TaxInCents v) ;;
  tax_type <- field "tax_type" dec_string st d (Subscription_TaxType v) ;;
  tax_region <- field "tax_region" dec_string st d (Subscription_TaxRegion v) ;;
  tax_rate <- field "tax_rate" (dec_float (ParseFloat X)) st d (Subscription_TaxRate v) ;;
  po_number <- field "po_number" dec_string st d (Subscription_PONumber v) ;;
  net_terms <- field "net_terms" (unmarshaler NullInt_UnmarshalXML) st d
                 (Subscription_NetTerms v) ;;
  addons <- field_path "subscription_add_ons" "subscription_add_on"
              SubscriptionAddOn_zero SubscriptionAddOn_unmarshal st d
              (Subscription_SubscriptionAddOns v) ;;
  pending <- field "pending_subscription"
               (dec_ptr PendingSubscription_zero PendingSubscription_unmarshal) st d
               (Subscription_PendingSubscription v) ;;
  Ok {| Subscription_XMLName := Subscription_XMLName v;
        Subscription_Plan := plan;
        Subscription_AccountCode := account;
        Subscription_InvoiceNumber := invoice;
        Subscription_UUID := uuid;
        Subscription_State := state;
        Subscription_UnitAmountInCents := amount;
        Subscription_Currency := currency;
        Subscription_Quantity := quantity;
        Subscription_TotalAmountInCents := total;
        Subscription_ActivatedAt := activated;
        Subscription_CanceledAt := canceled;
        Subscription_ExpiresAt := expires;
        Subscription_CurrentPeriodStartedAt := started;
        Subscription_CurrentPeriodEndsAt := ends;
        Subscription_TrialStartedAt := trial_started;
        Subscription_TrialEndsAt := trial_ends;
        Subscription_TaxInCents := tax;
        Subscription_TaxType := tax_type;
        Subscription_TaxRegion := tax_region;
        Subscription_TaxRate := tax_rate;
        Subscription_PONumber := po_number;
        Subscription_NetTerms := net_terms;
        Subscription_SubscriptionAddOns := addons;
        Subscription_PendingSubscription := pending |}.

(** [d.DecodeElement(&v, &start)] for that struct, from its zero value. *)
Definition Subscription_v_decode (d : list Node) (start : StartElement)
  : result Subscription :=
  _ <- expect "subscription" start ;;
  children Subscription_v_child d
    {| Subscription_XMLName := Name start;
       Subscription_Plan := NestedPlan_zero;
       Subscription_AccountCode := "";
       Subscription_InvoiceNumber := 0;
       Subscription_UUID := "";
       Subscription_State := "";
       Subscription_UnitAmountInCents := 0;
       Subscription_Currency := "";
       Subscription_Quantity := 0;
       Subscription_TotalAmountInCents := 0;
       Subscription_ActivatedAt := NullTime_zero;
       Subscription_CanceledAt := NullTime_zero;
       Subscription_ExpiresAt := NullTime_zero;
       Subscription_CurrentPeriodStartedAt := NullTime_zero;
       Subscription_CurrentPeriodEndsAt := NullTime_zero;
       Subscription_TrialStartedAt := NullTime_zero;
       Subscription_TrialEndsAt := NullTime_zero;
       Subscription_TaxInCents := 0;
       Subscription_TaxType := "";
       Subscription_TaxRegion := "";
       Subscription_TaxRate := 0%float;
       Subscription_PONumber := "";
       Subscription_NetTerms := NullInt_zero;
       Subscription_SubscriptionAddOns := [];
       Subscription_PendingSubscription := None |}.

(** On success the fields of [v] are copied into [*s] one by one, the
    account code as [string] and the invoice number as [int]; on an error
    [*s] is left as it was. *)
Definition Subscription_UnmarshalXML (s : Subscription) (d : list Node)
    (start : StartElement) : Subscription * option liberror :=
  match Subscription_v_decode d start with
  | Err err => (s, Some err)
  | Ok v =>
      ({| Subscription_XMLName := Subscription_XMLName v;
          Subscription_Plan := Subscription_Plan v;
          Subscription_AccountCode := Subscription_AccountCode v;
          Subscription_InvoiceNumber := Subscription_InvoiceNumber v;
          Subscription_UUID := Subscription_UUID v;
          Subscription_State := Subscription_State v;
          Subscription_UnitAmountInCents := Subscription_UnitAmountInCents v;
          Subscription_Currency := Subscription_Currency v;
          Subscription_Quantity := Subscription_Quantity v;
          Subscription_TotalAmountInCents := Subscription_TotalAmountInCents v;
          Subscription_ActivatedAt := Subscription_ActivatedAt v;
          Subscription_CanceledAt := Subscription_CanceledAt v;
          Subscription_ExpiresAt := Subscription_ExpiresAt v;
          Subscription_CurrentPeriodStartedAt := Subscription_CurrentPeriodStartedAt v;
          Subscription_CurrentPeriodEndsAt := Subscription_CurrentPeriodEndsAt v;
          Subscription_TrialStartedAt := Subscription_TrialStartedAt v;
          Subscription_TrialEndsAt := Subscription_TrialEndsAt v;
          Subscription_TaxInCents := Subscription_TaxInCents v;
          Subscription_TaxType := Subscription_TaxType v;
          Subscription_TaxRegion := Subscription_TaxRegion v;
          Subscription_TaxRate := Subscription_TaxRate v;
          Subscription_PONumber := Subscription_PONumber v;
          Subscription_NetTerms := Subscription_NetTerms v;
          Subscription_SubscriptionAddOns := Subscription_SubscriptionAddOns v;
          Subscription_PendingSubscription := Subscription_PendingSubscription v |},
       None)
  end.

End Decoding.

(** *** Transactions *)

Record TransactionError : Type := {
  TransactionError_XMLName : string;
  TransactionError_ErrorCode : string;
  TransactionError_ErrorCategory : string;
  TransactionError_MerchantMessage : string;
  TransactionError_CustomerMessage : string;
  TransactionError_GatewayErrorCode : string
}.

Record TransactionResult : Type := {
  TransactionResult_Code : string;
  TransactionResult_Message : string
}.

Record CVVResult : Type := { CVVResult_TransactionResult : TransactionResult }.

Record AVSResult : Type := { AVSResult_TransactionResult : TransactionResult }.

Record Transaction : Type := {
  Transaction_InvoiceNumber : Z;
  Transaction_UUID : string;
  Transaction_Action : string;
  Transaction_AmountInCents : Z;
  Transaction_TaxInCents : Z;
  Transaction_Currency : string;
  Transaction_Status : string;
  Transaction_Description : string;
  Transaction_ProductCode : string;
  Transaction_PaymentMethod : string;
  Transaction_Reference : string;
  Transaction_Source : string;
  Transaction_Recurring : NullBool;
  Transaction_Test : bool;
  Transaction_Voidable : NullBool;
  Transaction_Refundable : NullBool;
  Transaction_IPAddress : net.IP;
  Transaction_TransactionError : option TransactionError;
  Transaction_CVVResult : CVVResult;
  Transaction_AVSResult : AVSResult;
  Transaction_AVSResultStreet : string;
  Transaction_AVSResultPostal : string;
  Transaction_CreatedAt : NullTime;
  Transaction_Account : Account
}.

(** The struct [dst] of [Transaction.MarshalXML], filled from [t], as
    [e.Encode(dst)] writes it. *)
Definition Transaction_dst_marshal (X : Externals) (t : Transaction) : writer :=
  field_struct "transaction"
    (field_string "action" true (Transaction_Action t)
     >> field_int "amount_in_cents" false (Transaction_AmountInCents t)
     >> field_int "tax_in_cents" true (Transaction_TaxInCents t)
     >> field_string "currency" false (Transaction_Currency t)
     >> field_string "status" true (Transaction_Status t)
     >> field_string "description" true (Transaction_Description t)
     >> field_string "product_code" true (Transaction_ProductCode t)
     >> field_string "payment_method" true (Transaction_PaymentMethod t)
     >> field_string "reference" true (Transaction_Reference t)
     >> field_string "source" true (Transaction_Source t)
     >> field_marshaler "recurring" NullBool_MarshalXML (Transaction_Recurring t)
     >> field_bool "test" true (Transaction_Test t)
     >> field_marshaler "voidable" NullBool_MarshalXML (Transaction_Voidable t)
     >> field_marshaler "refundable" NullBool_MarshalXML (Transaction_Refundable t)
     >> match Transaction_IPAddress t with
        | [] => skip
        | ip => field_text "ip_address" (net.MarshalText (IP_String X) ip)
        end
     >> Account_marshal (Transaction_Account t)).

(** The error of [e.Encode(dst)] is dropped. *)
Definition Transaction_MarshalXML (X : Externals) (t : Transaction) (e : Encoder)
    (start : StartElement) : Encoder * option liberror :=
  let '(e', _) := Transaction_dst_marshal X t e in
  (e', None).

(** A call that does not return. *)
Inductive panic : Type :=
| IndexOutOfRange
| NilDereference.

Inductive outcome (A : Type) : Type :=
| Returns (a : A)
| Panics (p : panic).
Arguments Returns {A} a.
Arguments Panics {A} p.

Definition Transactions := list Transaction.

(** [s[i]]. *)
Definition index (s : Transactions) (i : Z) : outcome Transaction :=
  if i <? 0 then Panics IndexOutOfRange
  else match nth_error s (Z.to_nat i) with
       | Some t => Returns t
       | None => Panics IndexOutOfRange
       end.

(** [*p] for the pointer of a timestamp. *)
Definition deref (p : option time.Time) : outcome time.Time :=
  match p with
  | Some t => Returns t
  | None => Panics NilDereference
  end.

Definition Transactions_Len (s : Transactions) : Z := Z.of_nat (List.length s).

(** [s[i].CreatedAt.Time.Before( *s[j].CreatedAt.Time)]: both elements are
    indexed and both pointers dereferenced, here from left to right; the
    first fault is the panic of the call. *)
Definition Transactions_Less (s : Transactions) (i j : Z) : outcome bool :=
  match index s i with
  | Panics p => Panics p
  | Returns ti =>
      match deref (NullTime_Time (Transaction_CreatedAt ti)) with
      | Panics p => Panics p
      | Returns t =>
          match index s j with
          | Panics p => Panics p
          | Returns tj =>
              match deref (NullTime_Time (Transaction_CreatedAt tj)) with
              | Panics p => Panics p
              | Returns u => Returns (time.Before t u)
              end
          end
      end
  end.

(** The element names of the tags of [Subscription] and of the structs it
    holds, and those of the struct [dst] of [Transaction.MarshalXML]. *)
Definition Subscription_elements : list string :=
  [ "subscription"; "plan"; "plan_code"; "name"; "uuid"; "state";
    "unit_amount_in_cents"; "currency"; "quantity"; "total_amount_in_cents";
    "activated_at"; "canceled_at"; "expires_at"; "current_period_started_at";
    "current_period_ends_at"; "trial_started_at"; "trial_ends_at";
    "tax_in_cents"; "tax_type"; "tax_region"; "tax_rate"; "po_number";
    "net_terms"; "subscription_add_ons"; "subscription_add_on"; "add_on_type";
    "add_on_code"; "pending_subscription" ].

Definition Transaction_elements : list string :=
  [ "transaction"; "action"; "amount_in_cents"; "tax_in_cents"; "currency";
    "status"; "description"; "product_code"; "payment_method"; "reference";
    "source"; "recurring"; "test"; "voidable"; "refundable"; "ip_address";
    "account"; "account_code"; "billing_info"; "token_id" ].

(** A subscription with other values in the two fields that are read from
    links. *)
Definition with_links (code : string) (invoice : Z) (s : Subscription) : Subscription :=
  {| Subscription_XMLName := Subscription_XMLName s;
     Subscription_Plan := Subscription_Plan s;
     Subscription_AccountCode := code;
     Subscription_InvoiceNumber := invoice;
     Subscription_UUID := Subscription_UUID s;
     Subscription_State := Subscription_State s;
     Subscription_UnitAmountInCents := Subscription_UnitAmountInCents s;
     Subscription_Currency := Subscription_Currency s;
     Subscription_Quantity := Subscription_Quantity s;
     Subscription_TotalAmountInCents := Subscription_TotalAmountInCents s;
     Subscription_ActivatedAt := Subscription_ActivatedAt s;
     Subscription_CanceledAt := Subscription_CanceledAt s;
     Subscription_ExpiresAt := Subscription_ExpiresAt s;
     Subscription_CurrentPeriodStartedAt := Subscription_CurrentPeriodStartedAt s;
     Subscription_CurrentPeriodEndsAt := Subscription_CurrentPeriodEndsAt s;
     Subscription_TrialStartedAt := Subscription_TrialStartedAt s;
     Subscription_TrialEndsAt := Subscription_TrialEndsAt s;
     Subscription_TaxInCents := Subscription_TaxInCents s;
     Subscription_TaxType := Subscription_TaxType s;
     Subscription_TaxRegion := Subscription_TaxRegion s;
     Subscription_TaxRate := Subscription_TaxRate s;
     Subscription_PONumber := Subscription_PONumber s;
     Subscription_NetTerms := Subscription_NetTerms s;
     Subscription_SubscriptionAddOns := Subscription_SubscriptionAddOns s;
     Subscription_PendingSubscription := Subscription_PendingSubscription s |}.

(** *** SanitizeUUID *)

Definition SanitizeUUID (id : string) : string :=
  strings.TrimSpace (strings.remove_dashes id).

(** *** CVVResult *)

(** [c.Code], the field of the embedded [TransactionResult]. *)
Definition CVVResult_Code (c : CVVResult) : string :=
  TransactionResult_Code (CVVResult_TransactionResult c).

Definition CVVResult_IsMatch (c : CVVResult) : bool :=
  String.eqb (CVVResult_Code c) "M" || String.eqb (CVVResult_Code c) "Y".

Definition CVVResult_IsNoMatch (c : CVVResult) : bool :=
  String.eqb (CVVResult_Code c) "N".

Definition CVVResult_NotProcessed (c : CVVResult) : bool :=
  String.eqb (CVVResult_Code c) "P".

Definition CVVResult_ShouldHaveBeenPresent (c : CVVResult) : bool :=
  String.eqb (CVVResult_Code c) "S".

Definition CVVResult_UnableToProcess (c : CVVResult) : bool :=
  String.eqb (CVVResult_Code c) "U".

(** *** Transactions as a [sort.Interface] *)

(** [l[n] = x] for [n] within the length of [l]. *)
Fixpoint store {A} (l : list A) (n : nat) (x : A) : list A :=
  match l, n with
  | [], _ => []
  | _ :: rest, O => x :: rest
  | a :: rest, S n' => a :: store rest n' x
  end.

(** [s[i], s[j] = s[j], s[i]]: the slice afterwards.  Both elements are
    read before either is written; an index outside the slice is the panic
    of the call. *)
Definition Transactions_Swap (s : Transactions) (i j : Z) : outcome Transactions :=
  match index s j with
  | Panics p => Panics p
  | Returns tj =>
      match index s i with
      | Panics p => Panics p
      | Returns ti => Returns (store (store s (Z.to_nat i) tj) (Z.to_nat j) ti)
      end
  end.

(** Every transaction of the slice has its time of creation set. *)
Definition all_created (s : Transactions) : Prop :=
  Forall (fun t => NullTime_Time (Transaction_CreatedAt t) <> None) s.

(** The values of an [int]. *)
Definition is_int (v : Z) : Prop := - 2 ^ 63 <= v < 2 ^ 63.

(** A transaction with other values in the fields that
    [Transaction.MarshalXML] does not copy into [dst]. *)
Definition with_read_only (invoice : Z) (uuid : string) (err : option TransactionError)
    (cvv : CVVResult) (avs : AVSResult) (street postal : string) (created : NullTime)
    (t : Transaction) : Transaction :=
  {| Transaction_InvoiceNumber := invoice;
     Transaction_UUID := uuid;
     Transaction_Action := Transaction_Action t;
     Transaction_AmountInCents := Transaction_AmountInCents t;
     Transaction_TaxInCents := Transaction_TaxInCents t;
     Transaction_Currency := Transaction_Currency t;
     Transaction_Status := Transaction_Status t;
     Transaction_Description := Transaction_Description t;
     Transaction_ProductCode := Transaction_ProductCode t;
     Transaction_PaymentMethod := Transaction_PaymentMethod t;
     Transaction_Reference := Transaction_Reference t;
     Transaction_Source := Transaction_Source t;
     Transaction_Recurring := Transaction_Recurring t;
     Transaction_Test := Transaction_Test t;
     Transaction_Voidable := Transaction_Voidable t;
     Transaction_Refundable := Transaction_Refundable t;
     Transaction_IPAddress := Transaction_IPAddress t;
     Transaction_TransactionError := err;
     Transaction_CVVResult := cvv;
     Transaction_AVSResult := avs;
     Transaction_AVSResultStreet := street;
     Transaction_AVSResultPostal := postal;
     Transaction_CreatedAt := created;
     Transaction_Account := Transaction_Account t |}.

(** The element names under which the struct [v] of
    [Subscription.UnmarshalXML] reads the children of a subscription. *)
Definition Subscription_tags : list string :=
  [ "plan"; "account"; "invoice"; "uuid"; "state"; "unit_amount_in_cents";
    "currency"; "quantity"; "total_amount_in_cents"; "activated_at";
    "canceled_at"; "expires_at"; "current_period_started_at";
    "current_period_ends_at"; "trial_started_at"; "trial_ends_at";
    "tax_in_cents"; "tax_type"; "tax_region"; "tax_rate"; "po_number";
    "net_terms"; "subscription_add_ons"; "pending_subscription" ].

(** A child of a subscription that no field of [v] reads: character data,
    or an element under another name. *)
Definition passed_over (k : Node) : Prop :=
  match k with
  | CharData _ => True
  | Elem st _ => ~ In (Name st) Subscription_tags
  end.





End recurly.

(** ** Package webhooks *)
Module webhooks.
Import xml.

(** Webhook notification constants. *)
Definition NewAccount := "new_account_notification".
Definition UpdatedAccount := "updated_account_notification".
Definition BillingInfoUpdated := "billing_info_updated_notification".
Definition ReactivedAccount := "reactivated_account_notification".
Definition NewSubscription := "new_subscription_notification".
Definition UpdatedSubscription := "updated_subscription_notification".
Definition RenewedSubscription := "renewed_subscription_notification".
Definition ExpiredSubscription := "expired_subscription_notification".
Definition CanceledSubscription := "canceled_subscription_notification".
Definition ReactivatedSubscription := "reactivated_subcription_notification".
Definition NewInvoice := "new_invoice_notification".
Definition PastDueInvoice := "past_due_invoice_notification".
Definition ClosedInvoice := "closed_invoice_notification".
Definition ProcessingInvoice := "processing_invoice_notification".
Definition NewShippingAddress := "new_shipping_address_notification".
Definition DeletedShippingAddress := "deleted_shipping_address_notification".
Definition UpdatedShippingAddress := "updated_shipping_address_notification".
Definition SuccessfulPayment := "successful_payment_notification".
Definition FailedPayment := "failed_payment_notification".
Definition VoidPayment := "void_payment_notification".
Definition SuccessfulRefund := "successful_refund_notification".
Definition NewDunningEvent := "new_dunning_event_notification".

(** The constants in the order of their declaration. *)
Definition notification_constants : list string :=
  [ NewAccount; UpdatedAccount; BillingInfoUpdated; ReactivedAccount;
    NewSubscription; UpdatedSubscription; RenewedSubscription;
    ExpiredSubscription; CanceledSubscription; ReactivatedSubscription;
    NewInvoice; PastDueInvoice; ClosedInvoice; ProcessingInvoice;
    NewShippingAddress; DeletedShippingAddress; UpdatedShippingAddress;
    SuccessfulPayment; FailedPayment; VoidPayment; SuccessfulRefund;
    NewDunningEvent ].

Record Account : Type := {
  Account_XMLName : string;
  Account_Code : string;
  Account_Username : string;
  Account_Email : string;
  Account_FirstName : string;
  Account_LastName : string;
  Account_CompanyName : string;
  Account_Phone : string
}.

Record Transaction : Type := {
  Transaction_XMLName : string;
  Transaction_UUID : string;
  Transaction_InvoiceNumber : Z;
  Transaction_SubscriptionUUID : string;
  Transaction_Action : string;
  Transaction_AmountInCents : Z;
  Transaction_Status : string;
  Transaction_Message : string;
  Transaction_GatewayErrorCodes : string;
  Transaction_FailureType : string;
  Transaction_Reference : string;
  Transaction_Source : string;
  Transaction_Test : recurly.NullBool;
  Transaction_Voidable : recurly.NullBool;
  Transaction_Refundable : recurly.NullBool
}.

Record Invoice : Type := {
  Invoice_XMLName : string;
  Invoice_SubscriptionUUID : string;
  Invoice_UUID : string;
  Invoice_State : string;
  Invoice_InvoiceNumberPrefix : string;
  Invoice_InvoiceNumber : Z;
  Invoice_PONumber : string;
  Invoice_VATNumber : string;
  Invoice_TotalInCents : Z;
  Invoice_Currency : string;
  Invoice_CreatedAt : recurly.NullTime;
  Invoice_ClosedAt : recurly.NullTime;
  Invoice_NetTerms : recurly.NullInt;
  Invoice_CollectionMethod : string
}.

Record ShippingAdddress : Type := {
  ShippingAdddress_XMLName : string;
  ShippingAdddress_ID : Z;
  ShippingAdddress_Nickname : string;
  ShippingAdddress_FirstName : string;
  ShippingAdddress_LastName : string;
  ShippingAdddress_CompanyName : string;
  ShippingAdddress_VATNumber : string;
  ShippingAdddress_Street1 : string;
  ShippingAdddress_Street2 : string;
  ShippingAdddress_City : string;
  ShippingAdddress_State : string;
  ShippingAdddress_Zip : string;
  ShippingAdddress_Country : string;
  ShippingAdddress_Email : string;
  ShippingAdddress_Phone : string
}.

Definition Account_zero : Account :=
  {| Account_XMLName := ""; Account_Code := ""; Account_Username := "";
     Account_Email := ""; Account_FirstName := ""; Account_LastName := "";
     Account_CompanyName := ""; Account_Phone := "" |}.

Definition Transaction_zero : Transaction :=
  {| Transaction_XMLName := ""; Transaction_UUID := ""; Transaction_InvoiceNumber := 0;
     Transaction_SubscriptionUUID := ""; Transaction_Action := "";
     Transaction_AmountInCents := 0; Transaction_Status := ""; Transaction_Message := "";
     Transaction_GatewayErrorCodes := ""; Transaction_FailureType := "";
     Transaction_Reference := ""; Transaction_Source := "";
     Transaction_Test := recurly.NullBool_zero;
     Transaction_Voidable := recurly.NullBool_zero;
     Transaction_Refundable := recurly.NullBool_zero |}.

Definition Invoice_zero : Invoice :=
  {| Invoice_XMLName := ""; Invoice_SubscriptionUUID := ""; Invoice_UUID := "";
     Invoice_State := ""; Invoice_InvoiceNumberPrefix := ""; Invoice_InvoiceNumber := 0;
     Invoice_PONumber := ""; Invoice_VATNumber := ""; Invoice_TotalInCents := 0;
     Invoice_Currency := "";
     Invoice_CreatedAt := recurly.NullTime_zero;
     Invoice_ClosedAt := recurly.NullTime_zero;
     Invoice_NetTerms := recurly.NullInt_zero;
     Invoice_CollectionMethod := "" |}.

Definition ShippingAdddress_zero : ShippingAdddress :=
  {| ShippingAdddress_XMLName := ""; ShippingAdddress_ID := 0;
     ShippingAdddress_Nickname := ""; ShippingAdddress_FirstName := "";
     ShippingAdddress_LastName := ""; ShippingAdddress_CompanyName := "";
     ShippingAdddress_VATNumber := ""; ShippingAdddress_Street1 := "";
     ShippingAdddress_Street2 := ""; ShippingAdddress_City := "";
     ShippingAdddress_State := ""; ShippingAdddress_Zip := "";
     ShippingAdddress_Country := ""; ShippingAdddress_Email := "";
     ShippingAdddress_Phone := "" |}.

(** The notification types: a value of [Notification] is a value of one of
    the struct types of the package, the constructor being its Go type. *)
Inductive Notification : Type :=
| NewAccountNotification (Account : Account)
| UpdatedAccountNotification (Account : Account)
| ReactivatedAccountNotification (Account : Account)
| BillingInfoUpdatedNotification (Account : Account)
| NewSubscriptionNotification (Account : Account) (Subscription : recurly.Subscription)
| UpdatedSubscriptionNotification (Account : Account) (Subscription : recurly.Subscription)
| RenewedSubscriptionNotification (Account : Account) (Subscription : recurly.Subscription)
| ExpiredSubscriptionNotification (Account : Account) (Subscription : recurly.Subscription)
| CanceledSubscriptionNotification (Account : Account) (Subscription : recurly.Subscription)
| NewInvoiceNotification (Account : Account) (Invoice : Invoice)
| PastDueInvoiceNotification (Account : Account) (Invoice : Invoice)
| ProcessingInvoiceNotification (Account : Account) (Invoice : Invoice)
| ClosedInvoiceNotification (Account : Account) (Invoice : Invoice)
| SuccessfulPaymentNotification (Account : Account) (Transaction : Transaction)
| FailedPaymentNotification (Account : Account) (Transaction : Transaction)
| VoidPaymentNotification (Account : Account) (Transaction : Transaction)
| SuccessfulRefundNotification (Account : Account) (Transaction : Transaction)
| NewShippingAddressNotification (Account : Account) (ShippingAdddress : ShippingAdddress)
| UpdatedShippingAddressNotification (Account : Account) (ShippingAdddress : ShippingAdddress)
| DeletedShippingAddressNotification (Account : Account) (ShippingAdddress : ShippingAdddress)
| NewDunningEventNotification (Account : Account) (Invoice : Invoice)
    (Subsription : recurly.Subscription) (Transaction : Transaction).

(** The name of the Go type of a notification. *)
Definition type_name (n : Notification) : string :=
  match n with
  | NewAccountNotification _ => "NewAccountNotification"
  | UpdatedAccountNotification _ => "UpdatedAccountNotification"
  | ReactivatedAccountNotification _ => "ReactivatedAccountNotification"
  | BillingInfoUpdatedNotification _ => "BillingInfoUpdatedNotification"
  | NewSubscriptionNotification _ _ => "NewSubscriptionNotification"
  | UpdatedSubscriptionNotification _ _ => "UpdatedSubscriptionNotification"
  | RenewedSubscriptionNotification _ _ => "RenewedSubscriptionNotification"
  | ExpiredSubscriptionNotification _ _ => "ExpiredSubscriptionNotification"
  | CanceledSubscriptionNotification _ _ => "CanceledSubscriptionNotification"
  | NewInvoiceNotification _ _ => "NewInvoiceNotification"
  | PastDueInvoiceNotification _ _ => "PastDueInvoiceNotification"
  | ProcessingInvoiceNotification _ _ => "ProcessingInvoiceNotification"
  | ClosedInvoiceNotification _ _ => "ClosedInvoiceNotification"
  | SuccessfulPaymentNotification _ _ => "SuccessfulPaymentNotification"
  | FailedPaymentNotification _ _ => "FailedPaymentNotification"
  | VoidPaymentNotification _ _ => "VoidPaymentNotification"
  | SuccessfulRefundNotification _ _ => "SuccessfulRefundNotification"
  | NewShippingAddressNotification _ _ => "NewShippingAddressNotification"
  | UpdatedShippingAddressNotification _ _ => "UpdatedShippingAddressNotification"
  | DeletedShippingAddressNotification _ _ => "DeletedShippingAddressNotification"
  | NewDunningEventNotification _ _ _ _ => "NewDunningEventNotification"
  end.

Record ErrUnknownNotification : Type := { name : string }.

Definition ErrUnknownNotification_Error (e : ErrUnknownNotification) : string :=
  "unknown notification: " ++ name e.

Definition ErrUnknownNotification_Name (e : ErrUnknownNotification) : string :=
  name e.

(** The values of the interface [error] that [Parse] returns. *)
Inductive error : Type :=
| LibError (e : liberror)
| UnknownNotification (e : ErrUnknownNotification).

Record ParseResponse : Type := { Message : string; Data : Notification }.

(** The bytes of a notification as the tokenizer of [encoding/xml] reads
    them: up to the end of the first element they are not well formed, or
    they are that element. *)
Inductive Payload : Type :=
| Malformed (err : liberror)
| Document (root : StartElement) (content : list Node).

(** An [io.Reader] as [ioutil.ReadAll] finds it. *)
Inductive Reader : Type :=
| ReadFails (err : liberror)
| Reads (notification : Payload).

Section Parsing.
Variable X : recurly.Externals.

Definition Account_child (st : StartElement) (d : list Node) (a : Account)
  : result Account :=
  code <- field "account_code" dec_string st d (Account_Code a) ;;
  username <- field "username" dec_string st d (Account_Username a) ;;
  email <- field "email" dec_string st d (Account_Email a) ;;
  first_name <- field "first_name" dec_string st d (Account_FirstName a) ;;
  last_name <- field "last_name" dec_string st d (Account_LastName a) ;;
  company_name <- field "company_name" dec_string st d (Account_CompanyName a) ;;
  phone <- field "phone" dec_string st d (Account_Phone a) ;;
  Ok {| Account_XMLName := Account_XMLName a;
        Account_Code := code;
        Account_Username := username;
        Account_Email := email;
        Account_FirstName := first_name;
        Account_LastName := last_name;
        Account_CompanyName := company_name;
        Account_Phone := phone |}.

Definition Account_unmarshal : decoder Account :=
  fun cur d st =>
    _ <- expect "account" st ;;
    children Account_child d
      {| Account_XMLName := Name st;
         Account_Code := Account_Code cur;
         Account_Username := Account_Username cur;
         Account_Email := Account_Email cur;
         Account_FirstName := Account_FirstName cur;
         Account_LastName := Account_LastName cur;
         Account_CompanyName := Account_CompanyName cur;
         Account_Phone := Account_Phone cur |}.

Definition Transaction_child (st : StartElement) (d : list Node) (t : Transaction)
  : result Transaction :=
  uuid <- field "id" dec_string st d (Transaction_UUID t) ;;
  invoice_number <- field "invoice_number" dec_int st d (Transaction_InvoiceNumber t) ;;
  subscription_id <- field "subscription_id" dec_string st d (Transaction_SubscriptionUUID t) ;;
  action <- field "action" dec_string st d (Transaction_Action t) ;;
  amount <- field "amount_in_cents" dec_int st d (Transaction_AmountInCents t) ;;
  status <- field "status" dec_string st d (Transaction_Status t) ;;
  message <- field "message" dec_string st d (Transaction_Message t) ;;
  codes <- field "gateway_error_codes" dec_string st d (Transaction_GatewayErrorCodes t) ;;
  failure_type <- field "failure_type" dec_string st d (Transaction_FailureType t) ;;
  reference <- field "reference" dec_string st d (Transaction_Reference t) ;;
  source <- field "source" dec_string st d (Transaction_Source t) ;;
  test <- field "test" (unmarshaler (recurly.NullBool_UnmarshalXML X)) st d
            (Transaction_Test t) ;;
  voidable <- field "voidable" (unmarshaler (recurly.NullBool_UnmarshalXML X)) st d
                (Transaction_Voidable t) ;;
  refundable <- field "refundable" (unmarshaler (recurly.NullBool_UnmarshalXML X)) st d
                  (Transaction_Refundable t) ;;
  Ok {| Transaction_XMLName := Transaction_XMLName t;
        Transaction_UUID := uuid;
        Transaction_InvoiceNumber := invoice_number;
        Transaction_SubscriptionUUID := subscription_id;
        Transaction_Action := action;
        Transaction_AmountInCents := amount;
        Transaction_Status := status;
        Transaction_Message := message;
        Transaction_GatewayErrorCodes := codes;
        Transaction_FailureType := failure_type;
        Transaction_Reference := reference;
        Transaction_Source := source;
        Transaction_Test := test;
        Transaction_Voidable := voidable;
        Transaction_Refundable := refundable |}.

Definition Transaction_unmarshal : decoder Transaction :=
  fun cur d st =>
    _ <- expect "transaction" st ;;
    children Transaction_child d
      {| Transaction_XMLName := Name st;
         Transaction_UUID := Transaction_UUID cur;
         Transaction_InvoiceNumber := Transaction_InvoiceNumber cur;
         Transaction_SubscriptionUUID := Transaction_SubscriptionUUID cur;
         Transaction_Action := Transaction_Action cur;
         Transaction_AmountInCents := Transaction_AmountInCents cur;
         Transaction_Status := Transaction_Status cur;
         Transaction_Message := Transaction_Message cur;
         Transaction_GatewayErrorCodes := Transaction_GatewayErrorCodes cur;
         Transaction_FailureType := Transaction_FailureType cur;
         Transaction_Reference := Transaction_Reference cur;
         Transaction_Source := Transaction_Source cur;
         Transaction_Test := Transaction_Test cur;
         Transaction_Voidable := Transaction_Voidable cur;
         Transaction_Refundable := Transaction_Refundable cur |}.

Definition Invoice_child (st : StartElement) (d : list Node) (i : Invoice)
  : result Invoice :=
  subscription_id <- field "subscription_id" dec_string st d (Invoice_SubscriptionUUID i) ;;
  uuid <- field "uuid" dec_string st d (Invoice_UUID i) ;;
  state <- field "state" dec_string st d (Invoice_State i) ;;
  prefix <- field "invoice_number_prefix" dec_string st d (Invoice_InvoiceNumberPrefix i) ;;
  number <- field "invoice_number" dec_int st d (Invoice_InvoiceNumber i) ;;
  po_number <- field "po_number" dec_string st d (Invoice_PONumber i) ;;
  vat_number <- field "vat_number" dec_string st d (Invoice_VATNumber i) ;;
  total <- field "total_in_cents" dec_int st d (Invoice_TotalInCents i) ;;
  currency <- field "currency" dec_string st d (Invoice_Currency i) ;;
  created_at <- field "date" (unmarshaler (recurly.NullTime_UnmarshalXML X)) st d
                  (Invoice_CreatedAt i) ;;
  closed_at <- field "closed_at" (unmarshaler (recurly.NullTime_UnmarshalXML X)) st d
                 (Invoice_ClosedAt i) ;;
  net_terms <- field "net_terms" (unmarshaler recurly.NullInt_UnmarshalXML) st d
                 (Invoice_NetTerms i) ;;
  collection_method <- field "collection_method" dec_string st d (Invoice_CollectionMethod i) ;;
  Ok {| Invoice_XMLName := Invoice_XMLName i;
        Invoice_SubscriptionUUID := subscription_id;
        Invoice_UUID := uuid;
        Invoice_State := state;
        Invoice_InvoiceNumberPrefix := prefix;
        Invoice_InvoiceNumber := number;
        Invoice_PONumber := po_number;
        Invoice_VATNumber := vat_number;
        Invoice_TotalInCents := total;
        Invoice_Currency := currency;
        Invoice_CreatedAt := created_at;
        Invoice_ClosedAt := closed_at;
        Invoice_NetTerms := net_terms;
        Invoice_CollectionMethod := collection_method |}.

Definition Invoice_unmarshal : decoder Invoice :=
  fun cur d st =>
    _ <- expect "invoice" st ;;
    children Invoice_child d
      {| Invoice_XMLName := Name st;
         Invoice_SubscriptionUUID := Invoice_SubscriptionUUID cur;
         Invoice_UUID := Invoice_UUID cur;
         Invoice_State := Invoice_State cur;
         Invoice_InvoiceNumberPrefix := Invoice_InvoiceNumberPrefix cur;
         Invoice_InvoiceNumber := Invoice_InvoiceNumber cur;
         Invoice_PONumber := Invoice_PONumber cur;
         Invoice_VATNumber := Invoice_VATNumber cur;
         Invoice_TotalInCents := Invoice_TotalInCents cur;
         Invoice_Currency := Invoice_Currency cur;
         Invoice_CreatedAt := Invoice_CreatedAt cur;
         Invoice_ClosedAt := Invoice_ClosedAt cur;
         Invoice_NetTerms := Invoice_NetTerms cur;
         Invoice_CollectionMethod := Invoice_CollectionMethod cur |}.

Definition ShippingAdddress_child (st : StartElement) (d : list Node)
    (a : ShippingAdddress) : result ShippingAdddress :=
  id <- field "id" dec_int st d (ShippingAdddress_ID a) ;;
  nickname <- field "nickname" dec_string st d (ShippingAdddress_Nickname a) ;;
  first_name <- field "first_name" dec_string st d (ShippingAdddress_FirstName a) ;;
  last_name <- field "last_name" dec_string st d (ShippingAdddress_LastName a) ;;
  company_name <- field "company_name" dec_string st d (ShippingAdddress_CompanyName a) ;;
  vat_number <- field "vat_number" dec_string st d (ShippingAdddress_VATNumber a) ;;
  street1 <- field "street1" dec_string st d (ShippingAdddress_Street1 a) ;;
  street2 <- field "street2" dec_string st d (ShippingAdddress_Street2 a) ;;
  city <- field "city" dec_string st d (ShippingAdddress_City a) ;;
  state <- field "state" dec_string st d (ShippingAdddress_State a) ;;
  zip <- field "zip" dec_string st d (ShippingAdddress_Zip a) ;;
  country <- field "country" dec_string st d (ShippingAdddress_Country a) ;;
  email <- field "email" dec_string st d (ShippingAdddress_Email a) ;;
  phone <- field "phone" dec_string st d (ShippingAdddress_Phone a) ;;
  Ok {| ShippingAdddress_XMLName := ShippingAdddress_XMLName a;
        ShippingAdddress_ID := id;
        ShippingAdddress_Nickname := nickname;
        ShippingAdddress_FirstName := first_name;
        ShippingAdddress_LastName := last_name;
        ShippingAdddress_CompanyName := company_name;
        ShippingAdddress_VATNumber := vat_number;
        ShippingAdddress_Street1 := street1;
        ShippingAdddress_Street2 := street2;
        ShippingAdddress_City := city;
        ShippingAdddress_State := state;
        ShippingAdddress_Zip := zip;
        ShippingAdddress_Country := country;
        ShippingAdddress_Email := email;
        ShippingAdddress_Phone := phone |}.

Definition ShippingAdddress_unmarshal : decoder ShippingAdddress :=
  fun cur d st =>
    _ <- expect "shipping_address" st ;;
    children ShippingAdddress_child d
      {| ShippingAdddress_XMLName := Name st;
         ShippingAdddress_ID := ShippingAdddress_ID cur;
         ShippingAdddress_Nickname := ShippingAdddress_Nickname cur;
         ShippingAdddress_FirstName := ShippingAdddress_FirstName cur;
         ShippingAdddress_LastName := ShippingAdddress_LastName cur;
         ShippingAdddress_CompanyName := ShippingAdddress_CompanyName cur;
         ShippingAdddress_VATNumber := ShippingAdddress_VATNumber cur;
         ShippingAdddress_Street1 := ShippingAdddress_Street1 cur;
         ShippingAdddress_Street2 := ShippingAdddress_Street2 cur;
         ShippingAdddress_City := ShippingAdddress_City cur;
         ShippingAdddress_State := ShippingAdddress_State cur;
         ShippingAdddress_Zip := ShippingAdddress_Zip cur;
         ShippingAdddress_Country := ShippingAdddress_Country cur;
         ShippingAdddress_Email := ShippingAdddress_Email cur;
         ShippingAdddress_Phone := ShippingAdddress_Phone cur |}.

Definition Subscription_unmarshal : decoder recurly.Subscription :=
  unmarshaler (recurly.Subscription_UnmarshalXML X).

(** The notification structs by their fields: an account alone, or an
    account with a subscription, an invoice, a transaction or a shipping
    address, or all four of the dunning event. *)
Definition with_account (d : list Node) (a : Account) : result Account :=
  children (fun st' d' a => field "account" Account_unmarshal st' d' a) d a.

Definition with_subscription (d : list Node) (a : Account) (s : recurly.Subscription)
  : result (Account * recurly.Subscription) :=
  children (fun st' d' '(a, s) =>
              a' <- field "account" Account_unmarshal st' d' a ;;
              s' <- field "subscription" Subscription_unmarshal st' d' s ;;
              Ok (a', s')) d (a, s).

Definition with_invoice (d : list Node) (a : Account) (i : Invoice)
  : result (Account * Invoice) :=
  children (fun st' d' '(a, i) =>
              a' <- field "account" Account_unmarshal st' d' a ;;
              i' <- field "invoice" Invoice_unmarshal st' d' i ;;
              Ok (a', i')) d (a, i).

Definition with_transaction (d : list Node) (a : Account) (t : Transaction)
  : result (Account * Transaction) :=
  children (fun st' d' '(a, t) =>
              a' <- field "account" Account_unmarshal st' d' a ;;
              t' <- field "transaction" Transaction_unmarshal st' d' t ;;
              Ok (a', t')) d (a, t).

Definition with_shipping_address (d : list Node) (a : Account) (sa : ShippingAdddress)
  : result (Account * ShippingAdddress) :=
  children (fun st' d' '(a, sa) =>
              a' <- field "account" Account_unmarshal st' d' a ;;
              sa' <- field "shipping_address" ShippingAdddress_unmarshal st' d' sa ;;
              Ok (a', sa')) d (a, sa).

Definition with_all (d : list Node) (a : Account) (i : Invoice)
    (s : recurly.Subscription) (t : Transaction)
  : result (Account * Invoice * recurly.Subscription * Transaction) :=
  children (fun st' d' '(a, i, s, t) =>
              a' <- field "account" Account_unmarshal st' d' a ;;
              i' <- field "invoice" Invoice_unmarshal st' d' i ;;
              s' <- field "subscription" Subscription_unmarshal st' d' s ;;
              t' <- field "transaction" Transaction_unmarshal st' d' t ;;
              Ok (a', i', s', t')) d (a, i, s, t).

(** [xml.Unmarshal(notification, dst)] for [dst] a pointer to a
    notification struct: none of them names its element, so the root is
    decoded whatever its name. *)
Definition Unmarshal (notification : Payload) (dst : Notification)
  : result Notification :=
  match notification with
  | Malformed err => Err err
  | Document _ d =>
      match dst with
      | NewAccountNotification a =>
          a' <- with_account d a ;; Ok (NewAccountNotification a')
      | UpdatedAccountNotification a =>
          a' <- with_account d a ;; Ok (UpdatedAccountNotification a')
      | ReactivatedAccountNotification a =>
          a' <- with_account d a ;; Ok (ReactivatedAccountNotification a')
      | BillingInfoUpdatedNotification a =>
          a' <- with_account d a ;; Ok (BillingInfoUpdatedNotification a')
      | NewSubscriptionNotification a s =>
          r <- with_subscription d a s ;; Ok (NewSubscriptionNotification (fst r) (snd r))
      | UpdatedSubscriptionNotification a s =>
          r <- with_subscription d a s ;; Ok (UpdatedSubscriptionNotification (fst r) (snd r))
      | RenewedSubscriptionNotification a s =>
          r <- with_subscription d a s ;; Ok (RenewedSubscriptionNotification (fst r) (snd r))
      | ExpiredSubscriptionNotification a s =>
          r <- with_subscription d a s ;; Ok (ExpiredSubscriptionNotification (fst r) (snd r))
      | CanceledSubscriptionNotification a s =>
          r <- with_subscription d a s ;; Ok (CanceledSubscriptionNotification (fst r) (snd r))
      | NewInvoiceNotification a i =>
          r <- with_invoice d a i ;; Ok (NewInvoiceNotification (fst r) (snd r))
      | PastDueInvoiceNotification a i =>
          r <- with_invoice d a i ;; Ok (PastDueInvoiceNotification (fst r) (snd r))
      | ProcessingInvoiceNotification a i =>
          r <- with_invoice d a i ;; Ok (ProcessingInvoiceNotification (fst r) (snd r))
      | ClosedInvoiceNotification a i =>
          r <- with_invoice d a i ;; Ok (ClosedInvoiceNotification (fst r) (snd r))
      | SuccessfulPaymentNotification a t =>
          r <- with_transaction d a t ;; Ok (SuccessfulPaymentNotification (fst r) (snd r))
      | FailedPaymentNotification a t =>
          r <- with_transaction d a t ;; Ok (FailedPaymentNotification (fst r) (snd r))
      | VoidPaymentNotification a t =>
          r <- with_transaction d a t ;; Ok (VoidPaymentNotification (fst r) (snd r))
      | SuccessfulRefundNotification a t =>
          r <- with_transaction d a t ;; Ok (SuccessfulRefundNotification (fst r) (snd r))
      | NewShippingAddressNotification a sa =>
          r <- with_shipping_address d a sa ;;
          Ok (NewShippingAddressNotification (fst r) (snd r))
      | UpdatedShippingAddressNotification a sa =>
          r <- with_shipping_address d a sa ;;
          Ok (UpdatedShippingAddressNotification (fst r) (snd r))
      | DeletedShippingAddressNotification a sa =>
          r <- with_shipping_address d a sa ;;
          Ok (DeletedShippingAddressNotification (fst r) (snd r))
      | NewDunningEventNotification a i s t =>
          r <- with_all d a i s t ;;
          let '(a', i', s', t') := r in
          Ok (NewDunningEventNotification a' i' s' t')
      end
  end.

(** [xml.Unmarshal(notification, &n)] for [n] of type [notificationName]:
    the name of the root; its content is passed over. *)
Definition Unmarshal_notificationName (notification : Payload) : result string :=
  match notification with
  | Malformed err => Err err
  | Document root _ => Ok (Name root)
  end.

(** The [switch] of [Parse] on the name of the root: the zero value that
    [dst] points to, in the order of the cases; [None] is the default
    case. *)
Definition switch (local : string) : option Notification :=
  if String.eqb local NewAccount then
    Some (NewAccountNotification Account_zero)
  else if String.eqb local UpdatedAccount then
    Some (UpdatedAccountNotification Account_zero)
  else if String.eqb local ReactivatedSubscription then
    Some (ReactivatedAccountNotification Account_zero)
  else if String.eqb local BillingInfoUpdated then
    Some (BillingInfoUpdatedNotification Account_zero)
  else if String.eqb local NewSubscription then
    Some (NewSubscriptionNotification Account_zero recurly.Subscription_zero)
  else if String.eqb local UpdatedSubscription then
    Some (UpdatedSubscriptionNotification Account_zero recurly.Subscription_zero)
  else if String.eqb local RenewedSubscription then
    Some (RenewedSubscriptionNotification Account_zero recurly.Subscription_zero)
  else if String.eqb local ExpiredSubscription then
    Some (ExpiredSubscriptionNotification Account_zero recurly.Subscription_zero)
  else if String.eqb local CanceledSubscription then
    Some (CanceledSubscriptionNotification Account_zero recurly.Subscription_zero)
  else if String.eqb local NewInvoice then
    Some (NewInvoiceNotification Account_zero Invoice_zero)
  else if String.eqb local PastDueInvoice then
    Some (PastDueInvoiceNotification Account_zero Invoice_zero)
  else if String.eqb local ProcessingInvoice then
    Some (ProcessingInvoiceNotification Account_zero Invoice_zero)
  else if String.eqb local ClosedInvoice then
    Some (ClosedInvoiceNotification Account_zero Invoice_zero)
  else if String.eqb local SuccessfulPayment then
    Some (SuccessfulPaymentNotification Account_zero Transaction_zero)
  else if String.eqb local FailedPayment then
    Some (FailedPaymentNotification Account_zero Transaction_zero)
  else if String.eqb local VoidPayment then
    Some (VoidPaymentNotification Account_zero Transaction_zero)
  else if String.eqb local SuccessfulRefund then
    Some (SuccessfulRefundNotification Account_zero Transaction_zero)
  else if String.eqb local NewShippingAddress then
    Some (NewShippingAddressNotification Account_zero ShippingAdddress_zero)
  else if String.eqb local UpdatedShippingAddress then
    Some (UpdatedShippingAddressNotification Account_zero ShippingAdddress_zero)
  else if String.eqb local DeletedShippingAddress then
    Some (DeletedShippingAddressNotification Account_zero ShippingAdddress_zero)
  else if String.eqb local NewDunningEvent then
    Some (NewDunningEventNotification Account_zero Invoice_zero
            recurly.Subscription_zero Transaction_zero)
  else None.

(** [Parse]: the response pointer ([None] is nil) and the error.  Closing
    a reader that can be closed has no part in the result. *)
Definition Parse (r : Reader) : option ParseResponse * option error :=
  match r with
  | ReadFails err => (None, Some (LibError err))
  | Reads notification =>
      match Unmarshal_notificationName notification with
      | Err err => (None, Some (LibError err))
      | Ok local =>
          match switch local with
          | None => (None, Some (UnknownNotification {| name := local |}))
          | Some dst =>
              match Unmarshal notification dst with
              | Err err => (None, Some (LibError err))
              | Ok dst' => (Some {| Message := local; Data := dst' |}, None)
              end
          end
      end
  end.

End Parsing.

(** The notification type that the name of each constant announces; the
    package has no type for a reactivated subscription. *)
Definition announced : list (string * string) :=
  [ (NewAccount, "NewAccountNotification");
    (UpdatedAccount, "UpdatedAccountNotification");
    (BillingInfoUpdated, "BillingInfoUpdatedNotification");
    (ReactivedAccount, "ReactivatedAccountNotification");
    (NewSubscription, "NewSubscriptionNotification");
    (UpdatedSubscription, "UpdatedSubscriptionNotification");
    (RenewedSubscription, "RenewedSubscriptionNotification");
    (ExpiredSubscription, "ExpiredSubscriptionNotification");
    (CanceledSubscription, "CanceledSubscriptionNotification");
    (NewInvoice, "NewInvoiceNotification");
    (PastDueInvoice, "PastDueInvoiceNotification");
    (ClosedInvoice, "ClosedInvoiceNotification");
    (ProcessingInvoice, "ProcessingInvoiceNotification");
    (NewShippingAddress, "NewShippingAddressNotification");
    (DeletedShippingAddress, "DeletedShippingAddressNotification");
    (UpdatedShippingAddress, "UpdatedShippingAddressNotification");
    (SuccessfulPayment, "SuccessfulPaymentNotification");
    (FailedPayment, "FailedPaymentNotification");
    (VoidPayment, "VoidPaymentNotification");
    (SuccessfulRefund, "SuccessfulRefundNotification");
    (NewDunningEvent, "NewDunningEventNotification") ].

(** The smallest payload with the outer tag [name]: [<name></name>]. *)
Definition minimal (name : string) : Reader :=
  Reads (Document (start name) []).

(** The element names that the fields of the notification structs read. *)
Definition notification_tags : list string :=
  [ "account"; "subscription"; "invoice"; "transaction"; "shipping_address" ].

(** A child of a notification that no field of any notification struct
    reads: character data, or an element under another name. *)
Definition unread (k : Node) : Prop :=
  match k with
  | CharData _ => True
  | Elem st _ => ~ In (Name st) notification_tags
  end.

(** The labels of the cases of the [switch] of [Parse], in their order. *)
Definition switch_labels : list string :=
  [ NewAccount; UpdatedAccount; ReactivatedSubscription; BillingInfoUpdated;
    NewSubscription; UpdatedSubscription; RenewedSubscription;
    ExpiredSubscription; CanceledSubscription; NewInvoice; PastDueInvoice;
    ProcessingInvoice; ClosedInvoice; SuccessfulPayment; FailedPayment;
    VoidPayment; SuccessfulRefund; NewShippingAddress; UpdatedShippingAddress;
    DeletedShippingAddress; NewDunningEvent ].

End webhooks.

(** ** Sample values *)
Module Examples.
Import xml recurly.

(** One way to fill what the sources leave open. *)
Definition externals : Externals :=
  {| FormatFloat := fun _ => "0";
     ParseFloat := fun s => Err (NumError "ParseFloat" s strconv.ErrSyntax);
     IP_String := fun _ => "127.0.0.1";
     Time_String := fun _ => "2015-06-03T13:42:23Z";
     NullTime_UnmarshalXML := fun t _ _ => (t, None);
     NullBool_UnmarshalXML := fun b _ _ => (b, None);
     hrefString_UnmarshalXML := fun _ d _ => (chardata d, None);
     hrefInt_UnmarshalXML := fun i _ _ => (i, None) |}.

(** A transaction that holds nothing but the time of its creation. *)
Definition created (at_ : NullTime) : Transaction :=
  {| Transaction_InvoiceNumber := 0;
     Transaction_UUID := "";
     Transaction_Action := "";
     Transaction_AmountInCents := 0;
     Transaction_TaxInCents := 0;
     Transaction_Currency := "";
     Transaction_Status := "";
     Transaction_Description := "";
     Transaction_ProductCode := "";
     Transaction_PaymentMethod := "";
     Transaction_Reference := "";
     Transaction_Source := "";
     Transaction_Recurring := NullBool_zero;
     Transaction_Test := false;
     Transaction_Voidable := NullBool_zero;
     Transaction_Refundable := NullBool_zero;
     Transaction_IPAddress := [];
     Transaction_TransactionError := None;
     Transaction_CVVResult :=
       {| CVVResult_TransactionResult :=
            {| TransactionResult_Code := ""; TransactionResult_Message := "" |} |};
     Transaction_AVSResult :=
       {| AVSResult_TransactionResult :=
            {| TransactionResult_Code := ""; TransactionResult_Message := "" |} |};
     Transaction_AVSResultStreet := "";
     Transaction_AVSResultPostal := "";
     Transaction_CreatedAt := at_;
     Transaction_Account := Account_zero |}.

(** [<net_terms type="integer">0</net_terms>]. *)
Definition net_terms_0 : Node :=
  Elem {| Name := "net_terms";
          Attrs := [{| Attr_Name := "type"; Attr_Value := "integer" |}] |}
       [CharData "0"].

(** [<name>text</name>]. *)
Definition leaf (name text : string) : Node := Elem (start name) [CharData text].

(** The content of a subscription as the service sends it, without its
    links and timestamps. *)
Definition subscription_content : list Node :=
  [ Elem (start "plan") [leaf "plan_code" "gold"; leaf "name" "Gold plan"];
    leaf "uuid" "44f83d7cba354d5b84812419f923ea96";
    leaf "state" "active";
    leaf "unit_amount_in_cents" "800";
    leaf "currency" "EUR";
    leaf "quantity" "1";
    leaf "tax_in_cents" "72";
    Elem {| Name := "po_number";
            Attrs := [{| Attr_Name := "nil"; Attr_Value := "nil" |}] |} [];
    net_terms_0;
    Elem (start "subscription_add_ons")
      [ Elem (start "subscription_add_on")
          [ leaf "add_on_type" "fixed";
            leaf "add_on_code" "my_add_on";
            leaf "unit_amount_in_cents" "1";
            leaf "quantity" "1" ] ];
    Elem {| Name := "a";
            Attrs := [{| Attr_Name := "name"; Attr_Value := "cancel" |}] |} [] ].

Definition subscription_decoded : Subscription :=
  {| Subscription_XMLName := "subscription";
     Subscription_Plan := {| NestedPlan_Code := "gold"; NestedPlan_Name := "Gold plan" |};
     Subscription_AccountCode := "";
     Subscription_InvoiceNumber := 0;
     Subscription_UUID := "44f83d7cba354d5b84812419f923ea96";
     Subscription_State := "active";
     Subscription_UnitAmountInCents := 800;
     Subscription_Currency := "EUR";
     Subscription_Quantity := 1;
     Subscription_TotalAmountInCents := 0;
     Subscription_ActivatedAt := NullTime_zero;
     Subscription_CanceledAt := NullTime_zero;
     Subscription_ExpiresAt := NullTime_zero;
     Subscription_CurrentPeriodStartedAt := NullTime_zero;
     Subscription_CurrentPeriodEndsAt := NullTime_zero;
     Subscription_TrialStartedAt := NullTime_zero;
     Subscription_TrialEndsAt := NullTime_zero;
     Subscription_TaxInCents := 72;
     Subscription_TaxType := "";
     Subscription_TaxRegion := "";
     Subscription_TaxRate := 0%float;
     Subscription_PONumber := "";
     Subscription_NetTerms := NewInt 0;
     Subscription_SubscriptionAddOns :=
       [ {| SubscriptionAddOn_XMLName := "subscription_add_on";
            SubscriptionAddOn_Type := "fixed";
            SubscriptionAddOn_Code := "my_add_on";
            SubscriptionAddOn_UnitAmountInCents := 1;
            SubscriptionAddOn_Quantity := 1 |} ];
     Subscription_PendingSubscription := None |}.

(** The add-on of the encoding tests. *)
Definition extra_users : SubscriptionAddOn :=
  {| SubscriptionAddOn_XMLName := "";
     SubscriptionAddOn_Type := "";
     SubscriptionAddOn_Code := "extra_users";
     SubscriptionAddOn_UnitAmountInCents := 1000;
     SubscriptionAddOn_Quantity := 2 |}.

End Examples.

(** * Properties *)

Import xml recurly.

(** ** The embedding on the data of the tests *)

Example FormatInt_examples :
  strconv.FormatInt 0 = "0" /\
  strconv.FormatInt 1000 = "1000" /\
  strconv.FormatInt (- 9223372036854775808) = "-9223372036854775808".
Proof. repeat split. Qed.

Example ParseInt_examples :
  strconv.ParseInt "+12" = Ok 12 /\
  strconv.ParseInt "-0" = Ok 0 /\
  strconv.ParseInt "" = Err (NumError "ParseInt" "" strconv.ErrSyntax) /\
  strconv.ParseInt " 5" = Err (NumError "ParseInt" " 5" strconv.ErrSyntax) /\
  strconv.ParseInt "9223372036854775808"
    = Err (NumError "ParseInt" "9223372036854775808" strconv.ErrRange).
Proof. repeat split. Qed.

(** The update made from a subscription with a PO number, net terms of 23
    and one add-on, as the test of the encoding of updates expects it. *)
Example MakeUpdate_encoding_example :
  Encode (UpdateSubscription_marshal
            (MakeUpdate
               {| Subscription_XMLName := "";
                  Subscription_Plan := NestedPlan_zero;
                  Subscription_AccountCode := "";
                  Subscription_InvoiceNumber := 0;
                  Subscription_UUID := "";
                  Subscription_State := "";
                  Subscription_UnitAmountInCents := 0;
                  Subscription_Currency := "";
                  Subscription_Quantity := 0;
                  Subscription_TotalAmountInCents := 0;
                  Subscription_ActivatedAt := NullTime_zero;
                  Subscription_CanceledAt := NullTime_zero;
                  Subscription_ExpiresAt := NullTime_zero;
                  Subscription_CurrentPeriodStartedAt := NullTime_zero;
                  Subscription_CurrentPeriodEndsAt := NullTime_zero;
                  Subscription_TrialStartedAt := NullTime_zero;
                  Subscription_TrialEndsAt := NullTime_zero;
                  Subscription_TaxInCents := 0;
                  Subscription_TaxType := "";
                  Subscription_TaxRegion := "";
                  Subscription_TaxRate := 0%float;
                  Subscription_PONumber := "abc-123";
                  Subscription_NetTerms := NewInt 23;
                  Subscription_SubscriptionAddOns := [Examples.extra_users];
                  Subscription_PendingSubscription := None |}))
  = Ok "<subscription><net_terms>23</net_terms><subscription_add_ons><subscription_add_on><add_on_code>extra_users</add_on_code><unit_amount_in_cents>1000</unit_amount_in_cents><quantity>2</quantity></subscription_add_on></subscription_add_ons></subscription>".
Proof. reflexivity. Qed.

Example Subscription_UnmarshalXML_example :
  Subscription_UnmarshalXML Examples.externals Subscription_zero
    Examples.subscription_content (start "subscription")
  = (Examples.subscription_decoded, None).
Proof. reflexivity. Qed.

Example Subscription_UnmarshalXML_wrong_element :
  Subscription_UnmarshalXML Examples.externals Subscription_zero
    Examples.subscription_content (start "transaction")
  = (Subscription_zero,
     Some (UnmarshalError "expected element type <subscription> but have <transaction>")).
Proof. reflexivity. Qed.

Example Parse_example :
  webhooks.Parse Examples.externals
    (webhooks.Reads
       (webhooks.Document (start "renewed_subscription_notification")
          [ Elem (start "account") [Examples.leaf "account_code" "1"];
            Elem (start "subscription") Examples.subscription_content ]))
  = (Some {| webhooks.Message := "renewed_subscription_notification";
             webhooks.Data :=
               webhooks.RenewedSubscriptionNotification
                 {| webhooks.Account_XMLName := "account";
                    webhooks.Account_Code := "1";
                    webhooks.Account_Username := "";
                    webhooks.Account_Email := "";
                    webhooks.Account_FirstName := "";
                    webhooks.Account_LastName := "";
                    webhooks.Account_CompanyName := "";
                    webhooks.Account_Phone := "" |}
                 Examples.subscription_decoded |}, None).
Proof. reflexivity. Qed.

(** A payment whose invoice number is no integer: the error of the decoder
    is the error of [Parse]. *)
Example Parse_decode_error_example :
  webhooks.Parse Examples.externals
    (webhooks.Reads
       (webhooks.Document (start "failed_payment_notification")
          [ Elem (start "transaction") [Examples.leaf "invoice_number" "10x"] ]))
  = (None, Some (webhooks.LibError (NumError "ParseInt" "10x" strconv.ErrSyntax))).
Proof. reflexivity. Qed.

(** ** Decimal text is read back *)

Lemma digit_char_code (d : Z) :
  0 <= d < 10 -> Z.of_nat (nat_of_ascii (strconv.digit_char d)) = 48 + d.
Proof.
  intros Hd. unfold strconv.digit_char.
  rewrite nat_ascii_embedding by lia. lia.
Qed.

Lemma digit_char_no_sign (d : Z) :
  0 <= d < 10 ->
  Ascii.eqb (strconv.digit_char d) "-" = false /\
  Ascii.eqb (strconv.digit_char d) "+" = false.
Proof.
  intros Hd.
  assert (Hcases : d = 0 \/ d = 1 \/ d = 2 \/ d = 3 \/ d = 4 \/
                   d = 5 \/ d = 6 \/ d = 7 \/ d = 8 \/ d = 9) by lia.
  repeat (destruct Hcases as [-> | Hcases]; [split; reflexivity |]).
  subst d; split; reflexivity.
Qed.

Lemma parseUint_loop_digit (v n : Z) (rest : string) :
  0 <= v < 10 -> 0 <= n -> n * 10 + v <= strconv.maxUint64 ->
  strconv.parseUint_loop (String (strconv.digit_char v) rest) n
    = strconv.parseUint_loop rest (n * 10 + v).
Proof.
  intros Hv Hn Hmax. cbn [strconv.parseUint_loop].
  rewrite digit_char_code by assumption.
  change (strconv.maxUint64 / 10 + 1) with 1844674407370955162.
  change strconv.maxUint64 with 18446744073709551615 in *.
  replace ((48 <=? 48 + v) && (48 + v <=? 57)) with true
    by (symmetry; apply andb_true_intro; split; apply Z.leb_le; lia).
  replace (n >=? 1844674407370955162) with false
    by (symmetry; rewrite Z.geb_leb; apply Z.leb_gt; lia).
  replace (48 + v - 48) with v by lia.
  replace (n * 10 + v >? 18446744073709551615) with false
    by (symmetry; rewrite Z.gtb_ltb; apply Z.ltb_ge; lia).
  reflexivity.
Qed.

Lemma parseUint_loop_digits (f : nat) :
  forall (u : Z) (acc : string),
    0 <= u < 2 ^ Z.of_nat f -> u <= strconv.maxUint64 ->
    strconv.parseUint_loop (strconv.digits_fuel f u acc) 0
      = strconv.parseUint_loop acc u.
Proof.
  induction f as [| f IH]; intros u acc Hu Hmax.
  - cbn in Hu. assert (u = 0) by lia. subst u. reflexivity.
  - cbn [strconv.digits_fuel].
    assert (Hmod : 0 <= u mod 10 < 10) by (apply Z.mod_pos_bound; lia).
    assert (Hdiv : u = (u / 10) * 10 + u mod 10)
      by (rewrite Z.mul_comm; apply Z.div_mod; lia).
    assert (Hq : 0 <= u / 10) by (apply Z.div_pos; lia).
    destruct (Z.eqb_spec (u / 10) 0) as [Hz | Hnz].
    + rewrite parseUint_loop_digit by lia.
      f_equal. lia.
    + rewrite IH.
      * rewrite parseUint_loop_digit by lia.
        f_equal. lia.
      * split; [assumption |].
        rewrite Nat2Z.inj_succ, Z.pow_succ_r in Hu by lia.
        apply Z.div_lt_upper_bound; lia.
      * lia.
Qed.

Lemma digits_fuel_head (f : nat) :
  forall (u : Z) (acc : string),
    exists d rest, 0 <= d < 10 /\
      strconv.digits_fuel (S f) u acc = String (strconv.digit_char d) rest.
Proof.
  induction f as [| f IH]; intros u acc.
  - exists (u mod 10), acc. split; [apply Z.mod_pos_bound; lia |].
    cbn. now destruct (u / 10 =? 0).
  - change (strconv.digits_fuel (S (S f)) u acc)
      with (let acc' := String (strconv.digit_char (u mod 10)) acc in
            if u / 10 =? 0 then acc' else strconv.digits_fuel (S f) (u / 10) acc').
    cbv zeta. destruct (u / 10 =? 0).
    + exists (u mod 10), acc. split; [apply Z.mod_pos_bound; lia | reflexivity].
    + apply IH.
Qed.

(** The decimal text of every [int] is read back as that [int]. *)
Lemma ParseInt_FormatInt (v : Z) :
  - 2 ^ 63 <= v < 2 ^ 63 -> strconv.ParseInt (strconv.FormatInt v) = Ok v.
Proof.
  intros Hv. unfold strconv.FormatInt.
  set (u := Z.abs v).
  assert (Hu : 0 <= u <= 2 ^ 63) by (subst u; lia).
  assert (Hfuel : 0 <= u < 2 ^ Z.of_nat (S (Z.to_nat (Z.log2 u)))).
  { rewrite Nat2Z.inj_succ, Z2Nat.id by apply Z.log2_nonneg.
    destruct (Z.eq_dec u 0) as [-> | Hnz]; [cbn; lia |].
    split; [lia | apply Z.log2_spec; lia]. }
  assert (Hmax : u <= strconv.maxUint64)
    by (change strconv.maxUint64 with 18446744073709551615; lia).
  pose proof (parseUint_loop_digits _ u "" Hfuel Hmax) as Hloop.
  destruct (digits_fuel_head (Z.to_nat (Z.log2 u)) u "") as (d & rest & Hd & Hds).
  rewrite Hds in *.
  destruct (digit_char_no_sign d Hd) as [Hminus Hplus].
  destruct (Z.ltb_spec v 0) as [Hneg | Hpos].
  - unfold strconv.ParseInt.
    change (Ascii.eqb "-" "-") with true.
    rewrite orb_true_r.
    unfold strconv.ParseUint. rewrite Hloop. cbn [strconv.parseUint_loop].
    replace (u >? 2 ^ 63) with false
      by (symmetry; rewrite Z.gtb_ltb; apply Z.ltb_ge; lia).
    cbn. f_equal. subst u. lia.
  - unfold strconv.ParseInt.
    rewrite Hminus, Hplus. cbn [orb negb andb].
    unfold strconv.ParseUint. rewrite Hloop. cbn [strconv.parseUint_loop].
    replace (u >=? 2 ^ 63) with false
      by (symmetry; rewrite Z.geb_leb; apply Z.leb_gt; subst u; lia).
    f_equal. subst u. lia.
Qed.

(** ** The nullable integer *)

(** C2, as the claim has it, fails: the text [abc] is no integer, the
    decoder of the element says so, and [NullInt.UnmarshalXML] returns no
    error and leaves the receiver unset. *)
Lemma NullInt_UnmarshalXML_malformed_no_error :
  DecodeElement_int [CharData "abc"]
    = Err (NumError "ParseInt" "abc" strconv.ErrSyntax) /\
  NullInt_UnmarshalXML NullInt_zero [CharData "abc"] (start "net_terms")
    = (NullInt_zero, None).
Proof. split; reflexivity. Qed.

Lemma append_nil_r (s : string) : (s ++ "")%string = s.
Proof. induction s as [| c s IH]; cbn; [reflexivity | now rewrite IH]. Qed.

Lemma DecodeElement_int_FormatInt (v : Z) :
  - 2 ^ 63 <= v < 2 ^ 63 ->
  DecodeElement_int [CharData (strconv.FormatInt v)] = Ok v.
Proof.
  intros Hv. unfold DecodeElement_int. cbn [chardata].
  rewrite append_nil_r. now apply ParseInt_FormatInt.
Qed.

(** C2, amended: [NullInt.UnmarshalXML] never returns an error.  When the
    content of the element is an integer [v], as the decimal text of every
    [int] is, the receiver becomes the valid [v]; when it is not, the
    receiver stays what it was. *)
Theorem NullInt_UnmarshalXML_never_fails (n : NullInt) (d : list Node) (st : StartElement) :
  snd (NullInt_UnmarshalXML n d st) = None /\
  fst (NullInt_UnmarshalXML n d st)
    = match DecodeElement_int d with
      | Ok v => {| NullInt_Int := v; NullInt_Valid := true |}
      | Err _ => n
      end /\
  (forall v, - 2 ^ 63 <= v < 2 ^ 63 ->
     NullInt_UnmarshalXML n [CharData (strconv.FormatInt v)] st = (NewInt v, None)).
Proof.
  unfold NullInt_UnmarshalXML. repeat split.
  - now destruct (DecodeElement_int d).
  - now destruct (DecodeElement_int d).
  - intros v Hv. now rewrite DecodeElement_int_FormatInt.
Qed.

Lemma NullInt_UnmarshalXML_never_fails_witness :
  - 2 ^ 63 <= 30 < 2 ^ 63 /\
  NullInt_UnmarshalXML NullInt_zero [CharData "30"] (start "net_terms") = (NewInt 30, None).
Proof.
  assert (H : - 2 ^ 63 <= 30 < 2 ^ 63) by lia.
  split; [exact H |].
  exact (proj2 (proj2 (NullInt_UnmarshalXML_never_fails NullInt_zero [] (start "net_terms")))
           30 H).
Defined.

Lemma EncodeElement_simple_named (s : string) (st : StartElement) (e : Encoder) :
  Name st <> "" -> EncodeElement_simple s st e = (e ++ simple st s, None).
Proof.
  intros Hname. unfold EncodeElement_simple.
  destruct (String.eqb_spec (Name st) ""); [contradiction | reflexivity].
Qed.

Lemma NullInt_MarshalXML_named (n : NullInt) (e : Encoder) (st : StartElement) :
  Name st <> "" ->
  NullInt_MarshalXML n e st
    = (e ++ (if NullInt_Valid n
             then simple st (strconv.FormatInt (NullInt_Int n))
             else []), None).
Proof.
  intros Hname. unfold NullInt_MarshalXML, EncodeElement_int.
  rewrite EncodeElement_simple_named by assumption.
  destruct (NullInt_Valid n); cbn [fst]; [reflexivity | now rewrite app_nil_r].
Qed.

Lemma simple_not_nil (st : StartElement) (s : string) : simple st s <> [].
Proof. discriminate. Qed.

Lemma app_grows {A} (l k : list A) : k <> [] -> l ++ k <> l.
Proof.
  intros Hk Heq. apply Hk.
  apply (app_inv_head l). rewrite app_nil_r. exact Heq.
Qed.

(** C3: for an element with a name, as the encoder asks for,
    [NullInt.MarshalXML] writes the element with the decimal text of
    [n.Int] when [n.Valid] holds, whatever [n.Int] is, and writes nothing
    when it does not; so the output grows iff [n.Valid]. *)
Theorem NullInt_MarshalXML_emits_iff_valid
    (n : NullInt) (e : Encoder) (st : StartElement) (Hname : Name st <> "") :
  NullInt_MarshalXML n e st
    = (e ++ (if NullInt_Valid n
             then simple st (strconv.FormatInt (NullInt_Int n))
             else []), None) /\
  (fst (NullInt_MarshalXML n e st) <> e <-> NullInt_Valid n = true).
Proof.
  split; [now apply NullInt_MarshalXML_named |].
  rewrite NullInt_MarshalXML_named by assumption. cbn [fst].
  destruct (NullInt_Valid n).
  - split; [reflexivity | intros _; apply app_grows, simple_not_nil].
  - rewrite app_nil_r. split; [intros H; now elim H | discriminate].
Qed.

Lemma NullInt_MarshalXML_emits_iff_valid_witness :
  Name (start "net_terms") <> "" /\
  NullInt_MarshalXML (NewInt 0) [] (start "net_terms")
    = ([TStart (start "net_terms"); TCharData "0"; TEnd "net_terms"], None).
Proof.
  split; [discriminate |].
  exact (proj1 (NullInt_MarshalXML_emits_iff_valid (NewInt 0) [] (start "net_terms")
                  ltac:(discriminate))).
Defined.

Lemma tokens_simple (st : StartElement) (s : string) :
  tokens (Elem st [CharData s]) = simple st s.
Proof. cbn. now rewrite app_nil_r. Qed.

(** X1: every [int] goes through the element and back: [MarshalXML] of
    [NewInt(v)] writes one element under the name asked for, and
    [UnmarshalXML] on the content of that element yields [NewInt(v)] and no
    error, whatever the receiver held. *)
Lemma NullInt_round_trip (v : Z) (e : Encoder) (st : StartElement) (n : NullInt) :
  - 2 ^ 63 <= v < 2 ^ 63 -> Name st <> "" ->
  exists s,
    NullInt_MarshalXML (NewInt v) e st = (e ++ tokens (Elem st [CharData s]), None) /\
    NullInt_UnmarshalXML n [CharData s] st = (NewInt v, None).
Proof.
  intros Hv Hname. exists (strconv.FormatInt v). split.
  - rewrite NullInt_MarshalXML_named by assumption.
    now rewrite tokens_simple.
  - unfold NullInt_UnmarshalXML.
    now rewrite DecodeElement_int_FormatInt.
Qed.

(** ** Writers *)

Lemma total_emit (ts : list Token) : total (emit ts).
Proof. intros e. reflexivity. Qed.

Lemma total_skip : total skip.
Proof. intros e. unfold skip, emitted. cbn. now rewrite app_nil_r. Qed.

Lemma seq_total (a b : writer) :
  total a -> total b -> forall e, (a >> b) e = (e ++ emitted a ++ emitted b, None).
Proof.
  intros Ha Hb e. unfold seq. rewrite Ha, Hb. now rewrite app_assoc.
Qed.

Lemma emitted_seq (a b : writer) :
  total a -> total b -> emitted (a >> b) = emitted a ++ emitted b.
Proof.
  intros Ha Hb. unfold emitted at 1. now rewrite seq_total.
Qed.

Lemma total_seq (a b : writer) : total a -> total b -> total (a >> b).
Proof.
  intros Ha Hb e. now rewrite seq_total, emitted_seq.
Qed.

Lemma total_field_string (name : string) (o : bool) (v : string) :
  total (field_string name o v).
Proof.
  unfold field_string. destruct (o && String.eqb v "");
    [apply total_skip | apply total_emit].
Qed.

Lemma total_field_int (name : string) (o : bool) (v : Z) :
  total (field_int name o v).
Proof.
  unfold field_int. destruct (o && (v =? 0)); [apply total_skip | apply total_emit].
Qed.

Lemma total_field_bool (name : string) (o : bool) (v : bool) :
  total (field_bool name o v).
Proof.
  unfold field_bool. destruct (o && negb v); [apply total_skip | apply total_emit].
Qed.

Lemma total_field_float (fmt : float -> string) (name : string) (o : bool) (v : float) :
  total (field_float fmt name o v).
Proof.
  unfold field_float. destruct (o && PrimFloat.eqb v 0%float);
    [apply total_skip | apply total_emit].
Qed.

Lemma total_field_struct (name : string) (w : writer) :
  total w -> total (field_struct name w).
Proof.
  intros Hw. unfold field_struct.
  repeat apply total_seq; auto using total_emit.
Qed.

Lemma emitted_field_struct (name : string) (w : writer) :
  total w ->
  emitted (field_struct name w) = TStart (start name) :: emitted w ++ [TEnd name].
Proof.
  intros Hw. unfold field_struct.
  rewrite !emitted_seq; auto using total_emit, total_seq.
Qed.

Lemma total_field_ptr {A} (f : A -> writer) (v : option A) :
  (forall a, total (f a)) -> total (field_ptr f v).
Proof. intros Hf. destruct v; [apply Hf | apply total_skip]. Qed.

Lemma total_each {A} (f : A -> writer) (l : list A) :
  (forall a, total (f a)) -> total (each f l).
Proof.
  intros Hf. induction l as [| a l IH]; cbn [each];
    [apply total_skip | now apply total_seq].
Qed.

Lemma total_field_slice {A} (parent : string) (f : A -> writer) (l : list A) :
  (forall a, total (f a)) -> total (field_slice parent f l).
Proof.
  intros Hf. unfold field_slice.
  repeat apply total_seq; auto using total_emit, total_each.
Qed.

Lemma emitted_field_slice {A} (parent : string) (f : A -> writer) (l : list A) :
  (forall a, total (f a)) ->
  emitted (field_slice parent f l)
    = TStart (start parent) :: emitted (each f l) ++ [TEnd parent].
Proof.
  intros Hf. unfold field_slice.
  rewrite !emitted_seq; auto using total_emit, total_seq, total_each.
Qed.

Lemma total_field_NullInt (name : string) (n : NullInt) :
  name <> "" -> total (field_marshaler name NullInt_MarshalXML n).
Proof.
  intros Hname e. unfold emitted, field_marshaler.
  now rewrite !NullInt_MarshalXML_named.
Qed.

Lemma emitted_field_NullInt (name : string) (n : NullInt) :
  name <> "" ->
  emitted (field_marshaler name NullInt_MarshalXML n)
    = if NullInt_Valid n
      then simple (start name) (strconv.FormatInt (NullInt_Int n))
      else [].
Proof.
  intros Hname. unfold emitted, field_marshaler.
  now rewrite NullInt_MarshalXML_named.
Qed.

Lemma total_field_NullBool (name : string) (n : NullBool) :
  name <> "" -> total (field_marshaler name NullBool_MarshalXML n).
Proof.
  intros Hname e.
  unfold emitted, field_marshaler, NullBool_MarshalXML, EncodeElement_bool.
  rewrite !EncodeElement_simple_named by assumption.
  destruct (NullBool_Valid n); cbn [fst]; [reflexivity | now rewrite app_nil_r].
Qed.

Lemma total_field_NullTime (X : Externals) (name : string) (t : NullTime) :
  name <> "" -> total (field_marshaler name (NullTime_MarshalXML X) t).
Proof.
  intros Hname e.
  unfold emitted, field_marshaler, NullTime_MarshalXML, EncodeElement_string.
  destruct (NullTime_Time t).
  - now rewrite !EncodeElement_simple_named.
  - cbn [fst]. now rewrite app_nil_r.
Qed.

(** The total writers are found piece by piece. *)
Ltac total_step :=
  first
    [ apply total_field_struct
    | apply total_field_string
    | apply total_field_int
    | apply total_field_bool
    | apply total_field_float
    | apply total_field_NullInt; discriminate
    | apply total_field_NullBool; discriminate
    | apply total_field_NullTime; discriminate
    | apply total_field_ptr; intros ?
    | apply total_field_slice; intros ?
    | apply total_each; intros ?
    | apply total_emit
    | apply total_skip
    | apply total_seq ].

Lemma total_SubscriptionAddOn (a : SubscriptionAddOn) :
  total (SubscriptionAddOn_marshal a).
Proof. unfold SubscriptionAddOn_marshal. repeat total_step. Qed.

Lemma total_Account (a : Account) : total (Account_marshal a).
Proof. unfold Account_marshal, Billing_marshal. repeat total_step. Qed.

Lemma total_UpdateSubscription (v : UpdateSubscription) :
  total (UpdateSubscription_marshal v).
Proof.
  unfold UpdateSubscription_marshal.
  repeat first [apply total_SubscriptionAddOn | total_step].
Qed.

Lemma total_Subscription (X : Externals) (s : Subscription) :
  total (Subscription_marshal X s).
Proof.
  unfold Subscription_marshal, PendingSubscription_marshal, NestedPlan_fields.
  repeat first [apply total_SubscriptionAddOn | total_step].
Qed.

Lemma total_NewSubscription (X : Externals) (v : NewSubscription) :
  total (NewSubscription_marshal X v).
Proof.
  unfold NewSubscription_marshal.
  repeat first [apply total_SubscriptionAddOn | apply total_Account | total_step].
Qed.

Lemma start_names_app (ts us : list Token) :
  start_names (ts ++ us) = start_names ts ++ start_names us.
Proof.
  induction ts as [| [st | name | data] ts IH]; cbn; now rewrite ?IH.
Qed.

Lemma start_names_simple (st : StartElement) (s : string) :
  start_names (simple st s) = [Name st].
Proof.
  unfold simple, text. destruct (String.eqb s ""); reflexivity.
Qed.

Lemma In_existsb (name : string) (l : list string) :
  existsb (String.eqb name) l = true -> In name l.
Proof.
  intros H. apply existsb_exists in H as (x & Hin & Heq).
  apply String.eqb_eq in Heq. now subst x.
Qed.

Lemma writes_only_skip (allowed : list string) : writes_only allowed skip.
Proof.
  intros e. exists []. cbn. rewrite app_nil_r. split; [reflexivity | apply incl_nil_l].
Qed.

Lemma writes_only_fail (allowed : list string) (err : liberror) :
  writes_only allowed (fail err).
Proof.
  intros e. exists []. cbn. rewrite app_nil_r. split; [reflexivity | apply incl_nil_l].
Qed.

Lemma writes_only_emit (allowed : list string) (ts : list Token) :
  incl (start_names ts) allowed -> writes_only allowed (emit ts).
Proof. intros H e. exists ts. now split. Qed.

Lemma writes_only_simple (allowed : list string) (name s : string) :
  In name allowed -> writes_only allowed (emit (simple (start name) s)).
Proof.
  intros H. apply writes_only_emit. rewrite start_names_simple.
  intros x [<- | []]. exact H.
Qed.

Lemma writes_only_seq (allowed : list string) (a b : writer) :
  writes_only allowed a -> writes_only allowed b -> writes_only allowed (a >> b).
Proof.
  intros Ha Hb e. unfold seq.
  destruct (Ha e) as (ta & Ea & Ia).
  destruct (a e) as [e1 [err |]]; cbn [fst] in *.
  - now exists ta.
  - subst e1. destruct (Hb (e ++ ta)) as (tb & Eb & Ib).
    exists (ta ++ tb). rewrite Eb, app_assoc, start_names_app.
    split; [reflexivity | now apply incl_app].
Qed.

Lemma writes_only_field_string (allowed : list string) (name : string) (o : bool) (v : string) :
  In name allowed -> writes_only allowed (field_string name o v).
Proof.
  intros H. unfold field_string. destruct (o && String.eqb v "");
    [apply writes_only_skip | now apply writes_only_simple].
Qed.

Lemma writes_only_field_int (allowed : list string) (name : string) (o : bool) (v : Z) :
  In name allowed -> writes_only allowed (field_int name o v).
Proof.
  intros H. unfold field_int. destruct (o && (v =? 0));
    [apply writes_only_skip | now apply writes_only_simple].
Qed.

Lemma writes_only_field_bool (allowed : list string) (name : string) (o v : bool) :
  In name allowed -> writes_only allowed (field_bool name o v).
Proof.
  intros H. unfold field_bool. destruct (o && negb v);
    [apply writes_only_skip | now apply writes_only_simple].
Qed.

Lemma writes_only_field_float (allowed : list string) (fmt : float -> string)
    (name : string) (o : bool) (v : float) :
  In name allowed -> writes_only allowed (field_float fmt name o v).
Proof.
  intros H. unfold field_float. destruct (o && PrimFloat.eqb v 0%float);
    [apply writes_only_skip | now apply writes_only_simple].
Qed.

Lemma writes_only_tag (allowed : list string) (name : string) :
  In name allowed ->
  writes_only allowed (emit [TStart (start name)]) /\
  writes_only allowed (emit [TEnd name]).
Proof.
  intros H. split; apply writes_only_emit; cbn.
  - intros x [<- | []]. exact H.
  - apply incl_nil_l.
Qed.

Lemma writes_only_field_struct (allowed : list string) (name : string) (w : writer) :
  In name allowed -> writes_only allowed w -> writes_only allowed (field_struct name w).
Proof.
  intros H Hw. unfold field_struct.
  destruct (writes_only_tag allowed name H).
  now repeat apply writes_only_seq.
Qed.

Lemma writes_only_field_ptr {A} (allowed : list string) (f : A -> writer) (v : option A) :
  (forall a, writes_only allowed (f a)) -> writes_only allowed (field_ptr f v).
Proof. intros Hf. destruct v; [apply Hf | apply writes_only_skip]. Qed.

Lemma writes_only_each {A} (allowed : list string) (f : A -> writer) (l : list A) :
  (forall a, writes_only allowed (f a)) -> writes_only allowed (each f l).
Proof.
  intros Hf. induction l as [| a l IH]; cbn [each];
    [apply writes_only_skip | now apply writes_only_seq].
Qed.

Lemma writes_only_field_slice {A} (allowed : list string) (parent : string)
    (f : A -> writer) (l : list A) :
  In parent allowed -> (forall a, writes_only allowed (f a)) ->
  writes_only allowed (field_slice parent f l).
Proof.
  intros H Hf. unfold field_slice.
  destruct (writes_only_tag allowed parent H).
  repeat apply writes_only_seq; auto using writes_only_each.
Qed.

Lemma writes_only_field_text (allowed : list string) (name : string) (txt : result string) :
  In name allowed -> writes_only allowed (field_text name txt).
Proof.
  intros H. unfold field_text.
  destruct (writes_only_tag allowed name H).
  apply writes_only_seq; [assumption |].
  destruct txt; [| apply writes_only_fail].
  apply writes_only_emit. rewrite start_names_app. unfold text.
  destruct (String.eqb a ""); cbn; apply incl_nil_l.
Qed.

Lemma writes_only_EncodeElement (allowed : list string) (name s : string) :
  In name allowed ->
  forall e, exists ts,
    fst (EncodeElement_simple s (start name) e) = e ++ ts /\
    incl (start_names ts) allowed.
Proof.
  intros H e. unfold EncodeElement_simple.
  destruct (String.eqb (Name (start name)) "").
  - now apply writes_only_fail.
  - now apply writes_only_simple.
Qed.

Lemma writes_only_field_NullInt (allowed : list string) (name : string) (n : NullInt) :
  In name allowed -> writes_only allowed (field_marshaler name NullInt_MarshalXML n).
Proof.
  intros H e. unfold field_marshaler, NullInt_MarshalXML.
  destruct (NullInt_Valid n); cbn [fst].
  - now apply writes_only_EncodeElement.
  - now apply writes_only_skip.
Qed.

Lemma writes_only_field_NullBool (allowed : list string) (name : string) (n : NullBool) :
  In name allowed -> writes_only allowed (field_marshaler name NullBool_MarshalXML n).
Proof.
  intros H e. unfold field_marshaler, NullBool_MarshalXML.
  destruct (NullBool_Valid n); cbn [fst].
  - now apply writes_only_EncodeElement.
  - now apply writes_only_skip.
Qed.

Lemma writes_only_field_NullTime (X : Externals) (allowed : list string)
    (name : string) (t : NullTime) :
  In name allowed -> writes_only allowed (field_marshaler name (NullTime_MarshalXML X) t).
Proof.
  intros H e. unfold field_marshaler, NullTime_MarshalXML.
  destruct (NullTime_Time t); cbn [fst].
  - now apply writes_only_EncodeElement.
  - now apply writes_only_skip.
Qed.

(** The element names of a writer are found piece by piece; a name is
    looked up in the list by computation. *)
Ltac writes_only_step :=
  first
    [ apply In_existsb; reflexivity
    | apply writes_only_field_slice; [| intros ?]
    | apply writes_only_field_struct
    | apply writes_only_field_string
    | apply writes_only_field_int
    | apply writes_only_field_bool
    | apply writes_only_field_float
    | apply writes_only_field_NullInt
    | apply writes_only_field_NullBool
    | apply writes_only_field_NullTime
    | apply writes_only_field_text
    | apply writes_only_field_ptr; intros ?
    | apply writes_only_field_slice; [| intros ?]
    | apply writes_only_each; intros ?
    | apply writes_only_skip
    | apply writes_only_seq ].

Lemma Subscription_marshal_elements (X : Externals) (s : Subscription) :
  writes_only Subscription_elements (Subscription_marshal X s).
Proof.
  unfold Subscription_marshal, PendingSubscription_marshal, NestedPlan_fields,
    SubscriptionAddOn_marshal.
  repeat writes_only_step.
Qed.

Lemma Transaction_dst_marshal_elements (X : Externals) (t : Transaction) :
  writes_only Transaction_elements (Transaction_dst_marshal X t).
Proof.
  unfold Transaction_dst_marshal, Account_marshal, Billing_marshal.
  destruct (Transaction_IPAddress t); repeat writes_only_step.
Qed.

(** ** Encoding of subscriptions and transactions *)

Ltac total_solve :=
  repeat first [apply total_SubscriptionAddOn | apply total_Account | total_step].

(** A new subscription that sets its required fields only is encoded as
    the plan code, the account and the currency, in this order, whatever
    they are. *)
Lemma NewSubscription_required_tokens (X : Externals) (xmlname plan : string)
    (account : Account) (currency : string) :
  emitted (NewSubscription_marshal X (NewSubscription_required xmlname plan account currency))
  = TStart (start "subscription")
      :: simple (start "plan_code") plan
      ++ emitted (Account_marshal account)
      ++ simple (start "currency") currency
      ++ [TEnd "subscription"].
Proof.
  unfold NewSubscription_marshal, NewSubscription_required.
  cbn [NewSubscription_PlanCode NewSubscription_Account NewSubscription_SubscriptionAddOns
       NewSubscription_CouponCode NewSubscription_UnitAmountInCents NewSubscription_Currency
       NewSubscription_Quantity NewSubscription_TrialEndsAt NewSubscription_StartsAt
       NewSubscription_TotalBillingCycles NewSubscription_FirstRenewalDate
       NewSubscription_CollectionMethod NewSubscription_NetTerms NewSubscription_PONumber
       NewSubscription_Bulk NewSubscription_TermsAndConditions NewSubscription_CustomerNotes
       NewSubscription_VATReverseChargeNotes NewSubscription_BankAccountAuthorizedAt].
  rewrite emitted_field_struct by total_solve.
  rewrite !emitted_seq by total_solve.
  change (emitted (field_string "plan_code" false plan))
    with (simple (start "plan_code") plan).
  change (emitted (field_string "currency" false currency))
    with (simple (start "currency") currency).
  cbn [emitted field_ptr field_string field_int field_bool field_marshaler skip fst
       andb String.eqb Z.eqb negb NullTime_MarshalXML NullTime_zero NullTime_Time
       NullInt_MarshalXML NullInt_zero NullInt_Valid].
  rewrite !app_nil_r. now rewrite <- !app_assoc.
Qed.

(** C6: a new subscription with the plan code [gold], the account code
    [123], an empty currency and every other field at its zero value is
    encoded to exactly these bytes: the elements in the order of the
    fields, the currency although it is empty, nothing for the other
    fields. *)
Theorem NewSubscription_encoding_gold (X : Externals) (xmlname : string) :
  Encode (NewSubscription_marshal X
    {| NewSubscription_XMLName := xmlname;
       NewSubscription_PlanCode := "gold";
       NewSubscription_Account := {| Account_Code := "123"; Account_BillingInfo := None |};
       NewSubscription_SubscriptionAddOns := None;
       NewSubscription_CouponCode := "";
       NewSubscription_UnitAmountInCents := 0;
       NewSubscription_Currency := "";
       NewSubscription_Quantity := 0;
       NewSubscription_TrialEndsAt := NullTime_zero;
       NewSubscription_StartsAt := NullTime_zero;
       NewSubscription_TotalBillingCycles := 0;
       NewSubscription_FirstRenewalDate := NullTime_zero;
       NewSubscription_CollectionMethod := "";
       NewSubscription_NetTerms := NullInt_zero;
       NewSubscription_PONumber := "";
       NewSubscription_Bulk := false;
       NewSubscription_TermsAndConditions := "";
       NewSubscription_CustomerNotes := "";
       NewSubscription_VATReverseChargeNotes := "";
       NewSubscription_BankAccountAuthorizedAt := NullTime_zero |})
  = Ok "<subscription><plan_code>gold</plan_code><account><account_code>123</account_code></account><currency></currency></subscription>".
Proof.
  change (Encode (NewSubscription_marshal X
            (NewSubscription_required xmlname "gold"
               {| Account_Code := "123"; Account_BillingInfo := None |} ""))
          = Ok "<subscription><plan_code>gold</plan_code><account><account_code>123</account_code></account><currency></currency></subscription>").
  unfold Encode. rewrite (total_NewSubscription X _ []). cbn [app].
  rewrite NewSubscription_required_tokens.
  reflexivity.
Qed.

Lemma MarshalText_marshals (str : net.IP -> string) (ip : net.IP) :
  net.marshals ip = true -> exists s, net.MarshalText str ip = Ok s.
Proof.
  unfold net.MarshalText, net.marshals. intros H.
  destruct (Nat.eqb (List.length ip) 0); [now eexists |].
  destruct (Nat.eqb (List.length ip) net.IPv4len); [now eexists |].
  destruct (Nat.eqb (List.length ip) net.IPv6len); [now eexists |].
  discriminate.
Qed.

(** With an IP address that can be written, the fields of [dst] before the
    account and all of [dst] are written without failure. *)
Lemma Transaction_dst_marshal_shape (X : Externals) (t : Transaction) :
  net.marshals (Transaction_IPAddress t) = true ->
  exists before,
    total before /\
    Transaction_dst_marshal X t
      = field_struct "transaction" (before >> Account_marshal (Transaction_Account t)).
Proof.
  intros Hip. unfold Transaction_dst_marshal.
  destruct (Transaction_IPAddress t) as [| b ip] eqn:Eip.
  - eexists; split; [| reflexivity]. total_solve.
  - destruct (MarshalText_marshals (IP_String X) (b :: ip) Hip) as [s ->].
    eexists; split; [| reflexivity]. unfold field_text. total_solve.
Qed.

(** C7: what a subscription reads from the links [account] and [invoice]
    is not written back: its encoding is the same whatever the account
    code and the invoice number are, it never fails and opens no element
    [account] or [invoice].  The encoding of a transaction opens no element
    [details], and when the IP address can be written it ends with the
    element [account] of the account, directly inside [transaction]. *)
Theorem links_not_written_back (X : Externals) (s : Subscription) (code : string)
    (invoice : Z) (t : Transaction) (e : Encoder) (st : StartElement) :
  (Subscription_marshal X (with_links code invoice s) = Subscription_marshal X s /\
   total (Subscription_marshal X s) /\
   ~ In "account" (start_names (emitted (Subscription_marshal X s))) /\
   ~ In "invoice" (start_names (emitted (Subscription_marshal X s)))) /\
  (exists ts, fst (Transaction_MarshalXML X t e st) = e ++ ts /\
              ~ In "details" (start_names ts)) /\
  (net.marshals (Transaction_IPAddress t) = true ->
   exists before,
     Transaction_MarshalXML X t e st
       = (e ++ TStart (start "transaction") :: before
            ++ emitted (Account_marshal (Transaction_Account t))
            ++ [TEnd "transaction"], None) /\
     exists inside,
       emitted (Account_marshal (Transaction_Account t))
         = TStart (start "account") :: inside ++ [TEnd "account"]).
Proof.
  split; [| split].
  - split; [reflexivity |]. split; [apply total_Subscription |].
    destruct (Subscription_marshal_elements X s []) as (ts & Hts & Hincl).
    unfold emitted. rewrite Hts. cbn [app].
    split; intros Hin; apply Hincl in Hin; revert Hin; vm_compute; intuition discriminate.
  - destruct (Transaction_dst_marshal_elements X t e) as (ts & Hts & Hincl).
    exists ts. unfold Transaction_MarshalXML.
    destruct (Transaction_dst_marshal X t e) as [e' err]; cbn [fst] in *.
    split; [assumption |].
    intros Hin; apply Hincl in Hin; revert Hin; vm_compute; intuition discriminate.
  - intros Hip. unfold Transaction_MarshalXML.
    destruct (Transaction_dst_marshal_shape X t Hip) as (before & Hbefore & ->).
    pose proof (total_Account (Transaction_Account t)) as Hacc.
    exists (emitted before). split.
    + rewrite (total_field_struct "transaction" _ (total_seq _ _ Hbefore Hacc) e).
      rewrite emitted_field_struct, emitted_seq by auto using total_seq.
      now rewrite <- app_assoc.
    + unfold Account_marshal. rewrite emitted_field_struct.
      * now eexists.
      * unfold Billing_marshal. total_solve.
Qed.

Lemma links_not_written_back_witness :
  net.marshals (Transaction_IPAddress (Examples.created NullTime_zero)) = true /\
  exists before,
    Transaction_MarshalXML Examples.externals (Examples.created NullTime_zero) []
        (start "transaction")
      = ([] ++ TStart (start "transaction") :: before
            ++ emitted (Account_marshal (Transaction_Account (Examples.created NullTime_zero)))
            ++ [TEnd "transaction"], None) /\
    exists inside,
      emitted (Account_marshal (Transaction_Account (Examples.created NullTime_zero)))
        = TStart (start "account") :: inside ++ [TEnd "account"].
Proof.
  split; [reflexivity |].
  apply (proj2 (proj2 (links_not_written_back Examples.externals Subscription_zero "" 0
                         (Examples.created NullTime_zero) [] (start "transaction")))).
  reflexivity.
Defined.

Lemma seq_fails_left (a b : writer) (err : liberror) :
  (forall e, snd (a e) = Some err) -> forall e, snd ((a >> b) e) = Some err.
Proof.
  intros Ha e. unfold seq. specialize (Ha e).
  destruct (a e) as [e' [err' |]]; [exact Ha | discriminate].
Qed.

Lemma seq_fails_right (a b : writer) (err : liberror) :
  total a -> (forall e, snd (b e) = Some err) -> forall e, snd ((a >> b) e) = Some err.
Proof.
  intros Ha Hb e. unfold seq. rewrite Ha. specialize (Hb (e ++ emitted a)).
  now destruct (b (e ++ emitted a)) as [e' [err' |]].
Qed.

(** An IP address of three bytes cannot be written: [e.Encode(dst)] fails
    after the start tag of the address, and [Transaction.MarshalXML] still
    returns no error. *)
Lemma Transaction_MarshalXML_drops_error (X : Externals) (t : Transaction)
    (e : Encoder) (st : StartElement) (b1 b2 b3 : Byte.byte) :
  Transaction_IPAddress t = [b1; b2; b3] ->
  snd (Transaction_dst_marshal X t e) = Some (AddrError "invalid IP address") /\
  snd (Transaction_MarshalXML X t e st) = None.
Proof.
  intros Hip. split.
  - unfold Transaction_dst_marshal. rewrite Hip.
    change (net.MarshalText (IP_String X) [b1; b2; b3])
      with (@Err string (AddrError "invalid IP address")).
    unfold field_struct, field_text.
    apply seq_fails_left, seq_fails_right; [apply total_emit |].
    apply seq_fails_left, seq_fails_right; [total_solve |].
    apply seq_fails_right; [apply total_emit | reflexivity].
  - unfold Transaction_MarshalXML.
    now destruct (Transaction_dst_marshal X t e).
Qed.

(** C8: [MarshalXML] returns no error, for every transaction and for
    every nullable integer, whatever the encoder has written before and
    whatever element is asked for. *)
Theorem MarshalXML_returns_nil (X : Externals) (t : Transaction) (n : NullInt)
    (e : Encoder) (st : StartElement) :
  snd (Transaction_MarshalXML X t e st) = None /\
  snd (NullInt_MarshalXML n e st) = None.
Proof.
  split.
  - unfold Transaction_MarshalXML.
    now destruct (Transaction_dst_marshal X t e).
  - unfold NullInt_MarshalXML. now destruct (NullInt_Valid n).
Qed.

(** ** Ordering of transactions *)

Lemma Before_lt (t u : time.Time) :
  time.normal t -> time.normal u ->
  (time.Before t u = true <-> time.nanos t < time.nanos u).
Proof.
  unfold time.normal, time.Before, time.nanos. intros Ht Hu.
  rewrite orb_true_iff, andb_true_iff, !Z.ltb_lt, Z.eqb_eq.
  split; [intros [H | [H1 H2]] | intros H]; nia.
Qed.

(** C9: when the transactions at [i] and [j] both have their time of
    creation set, [Less(i, j)] returns whether the first instant is
    strictly before the second; when one of them has it unset, the call
    does not return: it dereferences a nil pointer. *)
Theorem Transactions_Less_before (s : Transactions) (i j : Z) (ti tj : Transaction) :
  index s i = Returns ti -> index s j = Returns tj ->
  (forall t u,
      NullTime_Time (Transaction_CreatedAt ti) = Some t ->
      NullTime_Time (Transaction_CreatedAt tj) = Some u ->
      Transactions_Less s i j = Returns (time.Before t u) /\
      (time.normal t -> time.normal u ->
       (time.Before t u = true <-> time.nanos t < time.nanos u))) /\
  (NullTime_Time (Transaction_CreatedAt ti) = None \/
   NullTime_Time (Transaction_CreatedAt tj) = None ->
   Transactions_Less s i j = Panics NilDereference).
Proof.
  intros Hi Hj. unfold Transactions_Less. rewrite Hi, Hj. split.
  - intros t u Ht Hu. rewrite Ht, Hu. cbn [deref].
    split; [reflexivity | apply Before_lt].
  - intros [H | H]; rewrite H; cbn [deref]; [reflexivity |].
    now destruct (NullTime_Time (Transaction_CreatedAt ti)).
Qed.

Lemma Transactions_Less_before_witness :
  let first := {| time.sec := 1306479600; time.nsec := 0 |} in
  let second := {| time.sec := 1306479600; time.nsec := 764061000 |} in
  let s := [Examples.created (NewTime first); Examples.created (NewTime second);
            Examples.created NullTime_zero] in
  Transactions_Less s 0 1 = Returns true /\
  Transactions_Less s 1 0 = Returns false /\
  Transactions_Less s 0 0 = Returns false /\
  time.nanos first < time.nanos second /\
  Transactions_Less s 0 2 = Panics NilDereference.
Proof.
  cbv zeta.
  set (first := {| time.sec := 1306479600; time.nsec := 0 |}).
  set (second := {| time.sec := 1306479600; time.nsec := 764061000 |}).
  set (s := [Examples.created (NewTime first); Examples.created (NewTime second);
             Examples.created NullTime_zero]).
  pose proof (Transactions_Less_before s 0 1 _ _ eq_refl eq_refl) as [H01 _].
  pose proof (Transactions_Less_before s 1 0 _ _ eq_refl eq_refl) as [H10 _].
  pose proof (Transactions_Less_before s 0 0 _ _ eq_refl eq_refl) as [H00 _].
  pose proof (Transactions_Less_before s 0 2 _ _ eq_refl eq_refl) as [_ H02].
  destruct (H01 first second eq_refl eq_refl) as [E01 B01].
  destruct (H10 second first eq_refl eq_refl) as [E10 _].
  destruct (H00 first first eq_refl eq_refl) as [E00 _].
  refine (conj E01 (conj E10 (conj E00 (conj _ _)))).
  - apply B01; [unfold time.normal; cbn; lia | unfold time.normal; cbn; lia | reflexivity].
  - apply H02. now right.
Defined.

(** ** The update of a subscription *)

(** C10: [MakeUpdate] copies the net terms and points to the add-ons of
    the subscription and leaves every other field at its zero value; the
    encoding of the result holds the net terms, when they are valid, and
    the add-ons, and nothing else. *)
Theorem MakeUpdate_keeps_net_terms_and_add_ons (s : Subscription) (e : Encoder) :
  let u := MakeUpdate s in
  UpdateSubscription_NetTerms u = Subscription_NetTerms s /\
  UpdateSubscription_SubscriptionAddOns u = Some (Subscription_SubscriptionAddOns s) /\
  UpdateSubscription_Timeframe u = "" /\
  UpdateSubscription_PlanCode u = "" /\
  UpdateSubscription_Quantity u = 0 /\
  UpdateSubscription_UnitAmountInCents u = 0 /\
  UpdateSubscription_CollectionMethod u = "" /\
  UpdateSubscription_PONumber u = "" /\
  UpdateSubscription_marshal u e
    = (e ++ TStart (start "subscription")
         :: (if NullInt_Valid (Subscription_NetTerms s)
             then simple (start "net_terms")
                    (strconv.FormatInt (NullInt_Int (Subscription_NetTerms s)))
             else [])
         ++ TStart (start "subscription_add_ons")
         :: emitted (each SubscriptionAddOn_marshal (Subscription_SubscriptionAddOns s))
         ++ [TEnd "subscription_add_ons"; TEnd "subscription"], None).
Proof.
  cbv zeta. repeat (split; [reflexivity |]).
  rewrite (total_UpdateSubscription (MakeUpdate s) e).
  unfold UpdateSubscription_marshal, MakeUpdate. cbn -[field_marshaler field_slice each].
  rewrite emitted_field_struct by total_solve.
  rewrite !emitted_seq by total_solve.
  rewrite emitted_field_NullInt by discriminate.
  rewrite emitted_field_slice by apply total_SubscriptionAddOn.
  change (emitted skip) with (@nil Token). cbn [app].
  rewrite !app_nil_r. repeat (rewrite <- app_assoc; cbn [app]). reflexivity.
Qed.

(** ** Decoding of subscriptions *)

Ltac bind_inv H :=
  repeat match type of H with
         | bind ?r _ = Ok _ =>
             let E := fresh "E" in
             destruct r eqn:E; cbn [bind] in H; [| discriminate H]
         end.

Lemma field_other {A} (name : string) (dec : decoder A) (st : StartElement)
    (d : list Node) (cur v : A) :
  Name st <> name -> field name dec st d cur = Ok v -> v = cur.
Proof.
  intros Hne. unfold field.
  destruct (String.eqb_spec (Name st) name); [contradiction | congruence].
Qed.

Lemma children_keeps {A B} (child : StartElement -> list Node -> A -> result A)
    (proj : A -> B) (name : string) :
  (forall st d v v', Name st <> name -> child st d v = Ok v' -> proj v' = proj v) ->
  forall d v v',
    has_child name d = false -> children child d v = Ok v' -> proj v' = proj v.
Proof.
  intros Hchild d. induction d as [| [st ks | data] d IH]; intros v v' Hno Hd.
  - cbn in Hd. congruence.
  - cbn in Hno. apply orb_false_iff in Hno as [Hst Hrest].
    cbn [children] in Hd. bind_inv Hd.
    rewrite (IH _ _ Hrest Hd).
    apply (Hchild st ks); [now apply String.eqb_neq | assumption].
  - cbn in Hno. cbn [children] in Hd. now apply IH.
Qed.

Lemma children_app {A} (child : StartElement -> list Node -> A -> result A)
    (d1 d2 : list Node) (v : A) :
  children child (d1 ++ d2) v = (v1 <- children child d1 v ;; children child d2 v1).
Proof.
  revert v. induction d1 as [| [st ks | data] d1 IH]; intros v; cbn.
  - reflexivity.
  - destruct (child st ks v); cbn; [apply IH | reflexivity].
  - apply IH.
Qed.

Lemma Subscription_v_child_other (X : Externals) (st : StartElement) (d : list Node)
    (v v' : Subscription) :
  Name st <> "net_terms" -> Subscription_v_child X st d v = Ok v' ->
  Subscription_NetTerms v' = Subscription_NetTerms v.
Proof.
  intros Hne H. unfold Subscription_v_child in H. bind_inv H.
  injection H as <-. cbn.
  match goal with
  | E : field "net_terms" _ _ _ _ = Ok _ |- _ => exact (field_other _ _ _ _ _ _ Hne E)
  end.
Qed.

Lemma Subscription_v_child_net_terms (X : Externals) (st : StartElement) (d : list Node)
    (v v' : Subscription) :
  Name st = "net_terms" -> Subscription_v_child X st d v = Ok v' ->
  Subscription_NetTerms v'
    = fst (NullInt_UnmarshalXML (Subscription_NetTerms v) d st).
Proof.
  intros Hname H. unfold Subscription_v_child in H. bind_inv H.
  injection H as <-. cbn.
  match goal with
  | E : field "net_terms" _ _ _ _ = Ok _ |- _ =>
      unfold field, unmarshaler in E; rewrite Hname in E; cbn in E;
      destruct (NullInt_UnmarshalXML (Subscription_NetTerms v) d st) as [n [err |]];
      [discriminate E | now injection E as <-]
  end.
Qed.

Lemma Subscription_UnmarshalXML_inv (X : Externals) (s s' : Subscription)
    (d : list Node) (st : StartElement) :
  Subscription_UnmarshalXML X s d st = (s', None) ->
  exists init,
    Subscription_NetTerms init = NullInt_zero /\
    exists v, children (Subscription_v_child X) d init = Ok v /\
              Subscription_NetTerms s' = Subscription_NetTerms v.
Proof.
  unfold Subscription_UnmarshalXML, Subscription_v_decode. intros H.
  destruct (expect "subscription" st); cbn [bind] in H; [| discriminate H].
  match type of H with
  | match children _ _ ?init with _ => _ end = _ =>
      exists init; split; [reflexivity |];
      destruct (children (Subscription_v_child X) d init) as [v | err];
      [| discriminate H]
  end.
  exists v. split; [reflexivity |]. now injection H as <-.
Qed.

(** C4: encoding [NewInt(0)] for a named element writes the element with
    the text [0], and decoding the content of that element gives the valid
    0 back, whatever the receiver held.  A subscription decoded without
    error has the valid 0 as its net terms when the last element
    [net_terms] of the payload holds [0], and net terms that are not valid
    when the payload has no such element. *)
Theorem explicit_zero_kept (X : Externals) (e : Encoder) (st : StartElement)
    (n : NullInt) (s s' : Subscription) (d : list Node) (sst : StartElement) :
  Name st <> "" ->
  (NullInt_MarshalXML (NewInt 0) e st = (e ++ tokens (Elem st [CharData "0"]), None) /\
   NullInt_UnmarshalXML n [CharData "0"] st = (NewInt 0, None)) /\
  (Subscription_UnmarshalXML X s d sst = (s', None) ->
   (forall d1 d2 attrs,
       d = d1 ++ Elem {| Name := "net_terms"; Attrs := attrs |} [CharData "0"] :: d2 ->
       has_child "net_terms" d2 = false ->
       Subscription_NetTerms s' = NewInt 0) /\
   (has_child "net_terms" d = false ->
    NullInt_Valid (Subscription_NetTerms s') = false)).
Proof.
  intros Hname. split.
  - split; [| reflexivity].
    rewrite NullInt_MarshalXML_named by assumption. reflexivity.
  - intros Hs.
    apply Subscription_UnmarshalXML_inv in Hs as (init & Hinit & v & Hv & ->).
    split.
    + intros d1 d2 attrs -> Hd2.
      rewrite children_app in Hv. bind_inv Hv.
      cbn [children] in Hv. bind_inv Hv.
      rewrite (children_keeps _ Subscription_NetTerms "net_terms"
                 (Subscription_v_child_other X) _ _ _ Hd2 Hv).
      match goal with
      | E : Subscription_v_child X _ _ _ = Ok _ |- _ =>
          apply Subscription_v_child_net_terms in E; [rewrite E | reflexivity]
      end.
      reflexivity.
    + intros Hd.
      rewrite (children_keeps _ Subscription_NetTerms "net_terms"
                 (Subscription_v_child_other X) _ _ _ Hd Hv).
      now rewrite Hinit.
Qed.

Lemma explicit_zero_kept_witness :
  let present := [Elem (start "uuid") [CharData "44f83d7c"]; Examples.net_terms_0] in
  let absent := [Elem (start "uuid") [CharData "44f83d7c"]] in
  let decode d :=
    Subscription_UnmarshalXML Examples.externals Subscription_zero d (start "subscription") in
  Name (start "net_terms") <> "" /\
  NullInt_MarshalXML (NewInt 0) [] (start "net_terms")
    = ([TStart (start "net_terms"); TCharData "0"; TEnd "net_terms"], None) /\
  snd (decode present) = None /\
  Subscription_NetTerms (fst (decode present)) = NewInt 0 /\
  snd (decode absent) = None /\
  NullInt_Valid (Subscription_NetTerms (fst (decode absent))) = false.
Proof.
  cbv zeta.
  assert (Hname : Name (start "net_terms") <> "") by discriminate.
  pose (present := [Elem (start "uuid") [CharData "44f83d7c"]; Examples.net_terms_0]).
  pose (absent := [Elem (start "uuid") [CharData "44f83d7c"]]).
  pose (decode := fun d =>
    Subscription_UnmarshalXML Examples.externals Subscription_zero d (start "subscription")).
  destruct (explicit_zero_kept Examples.externals [] (start "net_terms") NullInt_zero
              Subscription_zero (fst (decode present)) present (start "subscription") Hname)
    as [[Hwrite _] Hpresent].
  destruct (explicit_zero_kept Examples.externals [] (start "net_terms") NullInt_zero
              Subscription_zero (fst (decode absent)) absent (start "subscription") Hname)
    as [_ Habsent].
  refine (conj Hname (conj Hwrite (conj eq_refl (conj _ (conj eq_refl _))))).
  - apply (proj1 (Hpresent eq_refl) [Elem (start "uuid") [CharData "44f83d7c"]] [] _ eq_refl).
    reflexivity.
  - apply (proj2 (Habsent eq_refl)). reflexivity.
Defined.

(** ** The dispatcher *)

Lemma switch_not_constant (local : string) :
  ~ In local webhooks.notification_constants -> webhooks.switch local = None.
Proof.
  intros H. unfold webhooks.switch.
  repeat match goal with
         | |- context [String.eqb local ?c] =>
             destruct (String.eqb_spec local c) as [-> | _];
             [exfalso; apply H; apply In_existsb; reflexivity |]
         end.
  reflexivity.
Qed.

(** C5: for a payload whose outer tag is none of the notification
    constants, [Parse] returns a nil response and the error
    [ErrUnknownNotification] whose [Name()] is that tag; it returns for
    every payload. *)
Theorem Parse_unknown_notification (X : Externals) (root : StartElement) (d : list Node) :
  ~ In (Name root) webhooks.notification_constants ->
  exists err,
    webhooks.Parse X (webhooks.Reads (webhooks.Document root d))
      = (None, Some (webhooks.UnknownNotification err)) /\
    webhooks.ErrUnknownNotification_Name err = Name root /\
    webhooks.ErrUnknownNotification_Error err
      = ("unknown notification: " ++ Name root)%string.
Proof.
  intros H. exists {| webhooks.name := Name root |}.
  unfold webhooks.Parse, webhooks.Unmarshal_notificationName.
  rewrite (switch_not_constant _ H). repeat split.
Qed.

Lemma Parse_unknown_notification_witness :
  ~ In "totally_unrecognized_event" webhooks.notification_constants /\
  exists err,
    webhooks.Parse Examples.externals (webhooks.minimal "totally_unrecognized_event")
      = (None, Some (webhooks.UnknownNotification err)) /\
    webhooks.ErrUnknownNotification_Name err = "totally_unrecognized_event" /\
    webhooks.ErrUnknownNotification_Error err
      = "unknown notification: totally_unrecognized_event".
Proof.
  assert (H : ~ In (Name (start "totally_unrecognized_event"))
                webhooks.notification_constants)
    by (vm_compute; intuition discriminate).
  split; [exact H |].
  exact (Parse_unknown_notification Examples.externals
           (start "totally_unrecognized_event") [] H).
Defined.

(** For every constant but that of the reactivated account, the smallest
    payload with that tag parses without error: the message is the tag,
    and for every constant but that of the reactivated subscription the
    data has the type the constant announces. *)
Lemma Parse_minimal_announced (X : Externals) (name type : string) :
  In (name, type) webhooks.announced -> name <> webhooks.ReactivedAccount ->
  exists n,
    webhooks.Parse X (webhooks.minimal name)
      = (Some {| webhooks.Message := name; webhooks.Data := n |}, None) /\
    webhooks.type_name n = type.
Proof.
  intros Hin Hne. unfold webhooks.announced in Hin. cbn [In] in Hin.
  repeat (destruct Hin as [Heq | Hin];
          [injection Heq as <- <-;
           first [now elim Hne | eexists; split; reflexivity] |]).
  contradiction.
Qed.

(** The tag of the reactivated subscription yields the notification of a
    reactivated account. *)
Lemma Parse_minimal_reactivated_subscription (X : Externals) :
  webhooks.Parse X (webhooks.minimal webhooks.ReactivatedSubscription)
    = (Some {| webhooks.Message := webhooks.ReactivatedSubscription;
               webhooks.Data :=
                 webhooks.ReactivatedAccountNotification webhooks.Account_zero |}, None).
Proof. reflexivity. Qed.

(** C1, at the constant [ReactivedAccount]: the [switch] of [Parse] has no
    case for it (the case of [ReactivatedAccountNotification] is under the
    constant [ReactivatedSubscription]), so a payload with this tag,
    whatever its attributes and its content, is an unknown notification. *)
Theorem Parse_reactivated_account_unknown (X : Externals) (attrs : list Attr)
    (d : list Node) :
  In webhooks.ReactivedAccount webhooks.notification_constants /\
  webhooks.Parse X
      (webhooks.Reads
         (webhooks.Document {| Name := webhooks.ReactivedAccount; Attrs := attrs |} d))
    = (None,
       Some (webhooks.UnknownNotification
               {| webhooks.name := "reactivated_account_notification" |})).
Proof.
  split; [apply In_existsb; reflexivity | reflexivity].
Qed.

(** ** The identifier of a subscription *)

Lemma after_spec (w l r : list ascii) : strings.after w l = Some r <-> l = w ++ r.
Proof.
  revert l. induction w as [| a w IH]; intros l; cbn.
  - split; congruence.
  - destruct l as [| b l]; [split; discriminate |].
    destruct (Ascii.eqb_spec a b) as [-> | Hne].
    + rewrite IH. split; congruence.
    + split; [discriminate | congruence].
Qed.

Lemma leading_some (table : list (list ascii)) (l r : list ascii) :
  strings.leading table l = Some r -> exists w, In w table /\ l = w ++ r.
Proof.
  induction table as [| w table IH]; cbn; [discriminate |].
  destruct (strings.after w l) as [r' |] eqn:E.
  - intros [= ->]. exists w. split; [now left | now apply after_spec].
  - intros H. destruct (IH H) as (w' & Hin & ->). exists w'. split; [now right | reflexivity].
Qed.

Lemma leading_none (table : list (list ascii)) (l : list ascii) :
  strings.leading table l = None -> forall w r, In w table -> l <> w ++ r.
Proof.
  induction table as [| w table IH]; cbn; [intros _ w r [] |].
  destruct (strings.after w l) as [r' |] eqn:E; [discriminate |].
  intros H w' r [<- | Hin] Heq.
  - apply after_spec in Heq. congruence.
  - exact (IH H w' r Hin Heq).
Qed.

Lemma leading_prefix (table : list (list ascii)) (l x : list ascii) :
  strings.leading table (l ++ x) = None -> strings.leading table l = None.
Proof.
  intros H. destruct (strings.leading table l) as [r |] eqn:E; [| reflexivity].
  destruct (leading_some _ _ _ E) as (w & Hin & ->).
  exfalso. apply (leading_none _ _ H w (r ++ x) Hin). now rewrite app_assoc.
Qed.

Lemma strip_fixed (table : list (list ascii)) (n : nat) (l : list ascii) :
  strings.leading table l = None -> strings.strip table n l = l.
Proof. intros H. destruct n; cbn; [reflexivity | now rewrite H]. Qed.

(** What [strip] takes away is a run of forms of the table. *)
Lemma strip_run (table : list (list ascii)) (n : nat) :
  forall l, exists ws,
    Forall (fun w => In w table) ws /\ l = List.concat ws ++ strings.strip table n l.
Proof.
  induction n as [| n IH]; intros l; cbn.
  - exists []. now split.
  - destruct (strings.leading table l) as [r |] eqn:E.
    + destruct (leading_some _ _ _ E) as (w & Hin & ->).
      destruct (IH r) as (ws & Hws & Hr).
      exists (w :: ws). split; [now constructor |].
      cbn. rewrite <- app_assoc. now rewrite <- Hr.
    + exists []. now split.
Qed.

Lemma strip_clean (table : list (list ascii)) (n : nat) :
  Forall (fun w => w <> []) table ->
  forall l, (List.length l <= n)%nat ->
            strings.leading table (strings.strip table n l) = None.
Proof.
  intros Hne. induction n as [| n IH]; intros l Hlen; cbn.
  - destruct l; [| cbn in Hlen; lia].
    destruct (strings.leading table []) as [r |] eqn:E; [| reflexivity].
    destruct (leading_some _ _ _ E) as (w & Hin & Heq).
    symmetry in Heq. apply app_eq_nil in Heq as [-> _].
    rewrite Forall_forall in Hne. now elim (Hne [] Hin).
  - destruct (strings.leading table l) as [r |] eqn:E; [| exact E].
    apply IH. destruct (leading_some _ _ _ E) as (w & Hin & ->).
    rewrite Forall_forall in Hne. specialize (Hne w Hin).
    rewrite length_app in Hlen. destruct w; [congruence | cbn in Hlen; lia].
Qed.

Lemma White_Space_nonempty : Forall (fun w => w <> []) strings.White_Space.
Proof. unfold strings.White_Space. cbn. repeat constructor; discriminate. Qed.

Lemma White_Space_rev_nonempty :
  Forall (fun w => w <> []) (map (@rev ascii) strings.White_Space).
Proof. unfold strings.White_Space. cbn. repeat constructor; discriminate. Qed.

Lemma TrimLeft_clean (l : list ascii) :
  strings.leading strings.White_Space (strings.TrimLeft l) = None.
Proof. apply strip_clean; [apply White_Space_nonempty | lia]. Qed.

Lemma TrimRight_clean (l : list ascii) :
  strings.leading (map (@rev ascii) strings.White_Space) (rev (strings.TrimRight l)) = None.
Proof.
  unfold strings.TrimRight. rewrite rev_involutive.
  apply strip_clean; [apply White_Space_rev_nonempty | rewrite length_rev; lia].
Qed.

Lemma rev_concat_forms (ws : list (list ascii)) :
  Forall (fun w => In w (map (@rev ascii) strings.White_Space)) ws ->
  exists vs, Forall (fun w => In w strings.White_Space) vs /\ rev (List.concat ws) = List.concat vs.
Proof.
  induction 1 as [| w ws Hw _ (vs & Hvs & IH)].
  - exists []. now split.
  - apply in_map_iff in Hw as (v & <- & Hv).
    exists (vs ++ [v]). split.
    + apply Forall_app. split; [assumption | now constructor].
    + cbn. rewrite rev_app_distr, rev_involutive, IH, List.concat_app. cbn.
      now rewrite app_nil_r.
Qed.

Lemma TrimLeft_run (l : list ascii) :
  exists ws, Forall (fun w => In w strings.White_Space) ws /\
             l = List.concat ws ++ strings.TrimLeft l.
Proof. apply strip_run. Qed.

Lemma TrimRight_run (l : list ascii) :
  exists ws, Forall (fun w => In w strings.White_Space) ws /\
             l = strings.TrimRight l ++ List.concat ws.
Proof.
  unfold strings.TrimRight.
  destruct (strip_run (map (@rev ascii) strings.White_Space) (List.length l) (rev l))
    as (ws & Hws & Hl).
  destruct (rev_concat_forms ws Hws) as (vs & Hvs & Hrev).
  exists vs. split; [assumption |].
  rewrite <- Hrev, <- rev_app_distr, <- Hl. now rewrite rev_involutive.
Qed.

Lemma Trim_fixed (l : list ascii) :
  strings.TrimRight (strings.TrimLeft (strings.TrimRight (strings.TrimLeft l)))
  = strings.TrimRight (strings.TrimLeft l).
Proof.
  set (a := strings.TrimLeft l). set (b := strings.TrimRight a).
  assert (Hb : strings.TrimLeft b = b).
  { apply strip_fixed. destruct (TrimRight_run a) as (ws & _ & Ha).
    apply (leading_prefix _ _ (List.concat ws)). fold b in Ha. rewrite <- Ha.
    apply TrimLeft_clean. }
  rewrite Hb. unfold strings.TrimRight at 1.
  rewrite strip_fixed by apply TrimRight_clean. apply rev_involutive.
Qed.

Lemma Replace_byte_none (l : list ascii) (old : ascii) :
  ~ In old (strings.Replace_byte l old []).
Proof.
  induction l as [| c l IH]; cbn; [tauto |].
  destruct (Ascii.eqb_spec c old) as [-> | Hne]; cbn; [assumption |].
  intros [-> | H]; [now elim Hne | contradiction].
Qed.

Lemma Replace_byte_absent (l : list ascii) (old : ascii) (new : list ascii) :
  ~ In old l -> strings.Replace_byte l old new = l.
Proof.
  induction l as [| c l IH]; cbn; [reflexivity |].
  intros H. destruct (Ascii.eqb_spec c old) as [-> | Hne]; [elim H; now left |].
  cbn. f_equal. apply IH. tauto.
Qed.

Lemma Trim_part (l : list ascii) (c : ascii) :
  In c (strings.TrimRight (strings.TrimLeft l)) -> In c l.
Proof.
  intros H. destruct (TrimLeft_run l) as (ws & _ & Hl).
  destruct (TrimRight_run (strings.TrimLeft l)) as (vs & _ & Ha).
  rewrite Hl, Ha. apply in_or_app. right. apply in_or_app. now left.
Qed.

(** X3: the result of [SanitizeUUID] holds no dash and neither begins nor
    ends with white space, and sanitizing it again changes nothing. *)
Theorem SanitizeUUID_clean (id : string) :
  let bytes := list_ascii_of_string (SanitizeUUID id) in
  ~ In "-"%char bytes /\
  strings.leading strings.White_Space bytes = None /\
  strings.leading (map (@rev ascii) strings.White_Space) (rev bytes) = None /\
  SanitizeUUID (SanitizeUUID id) = SanitizeUUID id.
Proof.
  cbv zeta. unfold SanitizeUUID, strings.TrimSpace, strings.remove_dashes.
  rewrite !list_ascii_of_string_of_list_ascii.
  set (r := strings.Replace_byte (list_ascii_of_string id) "-" []).
  assert (Hdash : ~ In "-"%char (strings.TrimRight (strings.TrimLeft r))).
  { intros H. apply Trim_part in H. revert H. apply Replace_byte_none. }
  repeat split.
  - exact Hdash.
  - destruct (TrimRight_run (strings.TrimLeft r)) as (ws & _ & Ha).
    apply (leading_prefix _ _ (List.concat ws)). rewrite <- Ha. apply TrimLeft_clean.
  - apply TrimRight_clean.
  - rewrite (Replace_byte_absent _ _ _ Hdash). now rewrite Trim_fixed.
Qed.

(** X4: beyond the dashes, [SanitizeUUID] removes nothing but a run of
    white space at the beginning and one at the end: every other byte of
    the identifier is kept, in its order. *)
Theorem SanitizeUUID_takes_white_space_only (id : string) :
  exists before after,
    Forall (fun w => In w strings.White_Space) before /\
    Forall (fun w => In w strings.White_Space) after /\
    strings.Replace_byte (list_ascii_of_string id) "-" []
    = List.concat before ++ list_ascii_of_string (SanitizeUUID id) ++ List.concat after.
Proof.
  unfold SanitizeUUID, strings.TrimSpace, strings.remove_dashes.
  rewrite !list_ascii_of_string_of_list_ascii.
  set (r := strings.Replace_byte (list_ascii_of_string id) "-" []).
  destruct (TrimLeft_run r) as (ws & Hws & Hl).
  destruct (TrimRight_run (strings.TrimLeft r)) as (vs & Hvs & Ha).
  exists ws, vs. repeat split; try assumption.
  now rewrite <- Ha.
Qed.

(** The identifier of the tests, with its dashes and between blanks. *)
Example SanitizeUUID_example :
  SanitizeUUID " 44f83d7c-ba35-4d5b-8481-2419f923ea96 "
  = "44f83d7cba354d5b84812419f923ea96".
Proof. vm_compute. reflexivity. Qed.

(** ** Transactions as a sort.Interface *)

Lemma index_Returns (s : Transactions) (i : Z) (t : Transaction) :
  index s i = Returns t <-> 0 <= i /\ nth_error s (Z.to_nat i) = Some t.
Proof.
  unfold index. destruct (Z.ltb_spec i 0).
  - split; [discriminate | lia].
  - destruct (nth_error s (Z.to_nat i)); split; intros H'; try discriminate.
    + injection H' as <-. now split.
    + destruct H' as [_ [= ->]]. reflexivity.
    + now destruct H'.
Qed.

Lemma index_in_range (s : Transactions) (i : Z) :
  (exists t, index s i = Returns t) <-> 0 <= i < Transactions_Len s.
Proof.
  unfold Transactions_Len. split.
  - intros [t Ht]. apply index_Returns in Ht as [Hi Ht]. split; [assumption |].
    assert (Z.to_nat i < List.length s)%nat by (apply nth_error_Some; congruence).
    lia.
  - intros [Hi Hlen].
    destruct (nth_error s (Z.to_nat i)) as [t |] eqn:E.
    + exists t. apply index_Returns. now split.
    + apply nth_error_None in E. lia.
Qed.

Lemma index_outcome (s : Transactions) (i : Z) :
  index s i = match nth_error s (Z.to_nat i) with
              | Some t => if i <? 0 then Panics IndexOutOfRange else Returns t
              | None => Panics IndexOutOfRange
              end.
Proof.
  unfold index. destruct (i <? 0); [| reflexivity].
  now destruct (nth_error s (Z.to_nat i)).
Qed.

Lemma length_store {A} (l : list A) (n : nat) (x : A) :
  List.length (store l n x) = List.length l.
Proof.
  revert n. induction l as [| a l IH]; intros [| n]; cbn; auto.
Qed.

Lemma nth_error_store_same {A} (l : list A) (n : nat) (x : A) :
  (n < List.length l)%nat -> nth_error (store l n x) n = Some x.
Proof.
  revert n. induction l as [| a l IH]; intros [| n] H; cbn in *; try lia.
  - reflexivity.
  - apply IH. lia.
Qed.

Lemma nth_error_store_other {A} (l : list A) (n m : nat) (x : A) :
  n <> m -> nth_error (store l n x) m = nth_error l m.
Proof.
  revert n m. induction l as [| a l IH]; intros [| n] [| m] H; cbn; try reflexivity.
  - now elim H.
  - apply IH. congruence.
Qed.

(** The index that the exchange of [a] and [b] moves to [n]. *)
Lemma nth_error_exchanged {A} (l : list A) (a b : nat) (x y : A) :
  nth_error l a = Some x -> nth_error l b = Some y ->
  forall n,
    nth_error (store (store l a y) b x) n
    = nth_error l (if Nat.eqb n b then a else if Nat.eqb n a then b else n).
Proof.
  intros Ha Hb n.
  assert (a < List.length l)%nat by (apply nth_error_Some; congruence).
  assert (b < List.length l)%nat by (apply nth_error_Some; congruence).
  destruct (Nat.eqb_spec n b) as [-> | Hnb].
  - rewrite nth_error_store_same by (now rewrite length_store). now rewrite Ha.
  - rewrite nth_error_store_other by congruence.
    destruct (Nat.eqb_spec n a) as [-> | Hna].
    + rewrite nth_error_store_same by assumption. now rewrite Hb.
    + now rewrite nth_error_store_other by congruence.
Qed.

Lemma exchange_injective (a b : nat) :
  Injective (fun n => if Nat.eqb n b then a else if Nat.eqb n a then b else n).
Proof.
  intros n m.
  destruct (Nat.eqb_spec n b), (Nat.eqb_spec m b),
    (Nat.eqb_spec n a), (Nat.eqb_spec m a); congruence.
Qed.

Lemma Swap_inv (s s' : Transactions) (i j : Z) :
  Transactions_Swap s i j = Returns s' ->
  exists ti tj,
    0 <= i /\ 0 <= j /\
    nth_error s (Z.to_nat i) = Some ti /\ nth_error s (Z.to_nat j) = Some tj /\
    s' = store (store s (Z.to_nat i) tj) (Z.to_nat j) ti.
Proof.
  unfold Transactions_Swap. intros H.
  destruct (index s j) as [tj | p] eqn:Ej; [| discriminate].
  destruct (index s i) as [ti | p] eqn:Ei; [| discriminate].
  apply index_Returns in Ei as [Hi Ei]. apply index_Returns in Ej as [Hj Ej].
  injection H as <-. now exists ti, tj.
Qed.


(** The slice after [Swap] holds at [k] what the slice held at the index
    that the exchange of [i] and [j] sends [k] to. *)
Lemma Swap_index (s s' : Transactions) (i j : Z) :
  Transactions_Swap s i j = Returns s' ->
  forall k, index s' k = index s (if k =? j then i else if k =? i then j else k).
Proof.
  intros H k. destruct (Swap_inv _ _ _ _ H) as (ti & tj & Hi & Hj & Ei & Ej & ->).
  pose proof (nth_error_exchanged s _ _ _ _ Ei Ej) as Hnth.
  destruct (Z.ltb_spec k 0) as [Hk | Hk].
  - destruct (Z.eqb_spec k j); [lia |]. destruct (Z.eqb_spec k i); [lia |].
    unfold index. now replace (k <? 0) with true by (symmetry; apply Z.ltb_lt; lia).
  - rewrite !index_outcome, Hnth.
    replace (k <? 0) with false by (symmetry; apply Z.ltb_ge; lia).
    destruct (Z.eqb_spec k j) as [-> | Hkj].
    + rewrite Nat.eqb_refl.
      now replace (i <? 0) with false by (symmetry; apply Z.ltb_ge; lia).
    + replace (Nat.eqb (Z.to_nat k) (Z.to_nat j)) with false
        by (symmetry; apply Nat.eqb_neq; lia).
      destruct (Z.eqb_spec k i) as [-> | Hki].
      * rewrite Nat.eqb_refl.
        now replace (j <? 0) with false by (symmetry; apply Z.ltb_ge; lia).
      * replace (Nat.eqb (Z.to_nat k) (Z.to_nat i)) with false
          by (symmetry; apply Nat.eqb_neq; lia).
        now replace (k <? 0) with false by (symmetry; apply Z.ltb_ge; lia).
Qed.

Lemma index_ext (s s' : Transactions) :
  (forall k, index s' k = index s k) -> s' = s.
Proof.
  intros H. apply nth_error_ext. intros n.
  specialize (H (Z.of_nat n)). rewrite !index_outcome, Nat2Z.id in H.
  replace (Z.of_nat n <? 0) with false in H by (symmetry; apply Z.ltb_ge; lia).
  destruct (nth_error s' n), (nth_error s n); congruence.
Qed.


Lemma Swap_returns_aux (s : Transactions) (i j : Z) :
  (exists s', Transactions_Swap s i j = Returns s') <->
  ((exists t, index s i = Returns t) /\ (exists t, index s j = Returns t)).
Proof.
  unfold Transactions_Swap. split.
  - intros [s' H].
    destruct (index s j) as [tj | p]; [| discriminate].
    destruct (index s i) as [ti | p]; [| discriminate].
    split; eauto.
  - intros [[ti ->] [tj ->]]. eauto.
Qed.

(** X11: [Swap(i, j)] returns exactly when [i] and [j] are both indices of
    the slice; otherwise it panics. *)
Theorem Transactions_Swap_returns_iff (s : Transactions) (i j : Z) :
  (exists s', Transactions_Swap s i j = Returns s') <->
  (0 <= i < Transactions_Len s /\ 0 <= j < Transactions_Len s).
Proof.
  rewrite <- !index_in_range. apply Swap_returns_aux.
Qed.

(** X12: a [Swap(i, j)] that returns keeps the length, permutes the
    transactions, puts at [i] what was at [j] and at [j] what was at [i],
    leaves every other index as it was, and is undone by a second
    [Swap(i, j)]. *)
Theorem Transactions_Swap_exchanges (s s' : Transactions) (i j : Z) :
  Transactions_Swap s i j = Returns s' ->
  Transactions_Len s' = Transactions_Len s /\
  Permutation s s' /\
  index s' i = index s j /\
  index s' j = index s i /\
  (forall k, k <> i -> k <> j -> index s' k = index s k) /\
  Transactions_Swap s' i j = Returns s.
Proof.
  intros H. pose proof (Swap_index _ _ _ _ H) as Hidx.
  destruct (Swap_inv _ _ _ _ H) as (ti & tj & Hi & Hj & Ei & Ej & Es).
  assert (Hlen : List.length s' = List.length s) by (subst s'; now rewrite !length_store).
  assert (Hsi : index s i = Returns ti) by (apply index_Returns; now split).
  assert (Hsj : index s j = Returns tj) by (apply index_Returns; now split).
  assert (Hi' : index s' i = index s j).
  { rewrite Hidx. destruct (Z.eqb_spec i j) as [-> | _]; [reflexivity |].
    now rewrite Z.eqb_refl. }
  assert (Hj' : index s' j = index s i) by (now rewrite Hidx, Z.eqb_refl).
  refine (conj _ (conj _ (conj Hi' (conj Hj' (conj _ _))))).
  - unfold Transactions_Len. now rewrite Hlen.
  - apply Permutation_nth_error. split; [now symmetry |].
    eexists. split; [apply (exchange_injective (Z.to_nat i) (Z.to_nat j)) |].
    subst s'. exact (nth_error_exchanged s _ _ _ _ Ei Ej).
  - intros k Hki Hkj. rewrite Hidx.
    destruct (Z.eqb_spec k j); [contradiction |].
    now destruct (Z.eqb_spec k i); [contradiction |].
  - destruct (proj2 (Swap_returns_aux s' i j)) as [s2 H2].
    { rewrite Hi', Hj', Hsi, Hsj. eauto. }
    rewrite H2. f_equal. apply index_ext. intros k.
    rewrite (Swap_index _ _ _ _ H2), Hidx.
    destruct (Z.eqb_spec k j) as [-> | Hkj].
    + destruct (Z.eqb_spec i j) as [-> | _]; [reflexivity |]. now rewrite Z.eqb_refl.
    + destruct (Z.eqb_spec k i) as [-> | Hki].
      * now rewrite Z.eqb_refl.
      * destruct (Z.eqb_spec k j); [contradiction |].
        now destruct (Z.eqb_spec k i); [contradiction |].
Qed.

Lemma Transactions_Swap_exchanges_witness :
  let first := Examples.created (NewTime {| time.sec := 1306479600; time.nsec := 0 |}) in
  let second := Examples.created NullTime_zero in
  let s := [first; second; first] in
  let s' := [second; first; first] in
  Transactions_Swap s 0 1 = Returns s' /\
  Transactions_Len s' = Transactions_Len s /\
  Permutation s s' /\
  index s' 0 = index s 1 /\
  index s' 1 = index s 0 /\
  (forall k, k <> 0 -> k <> 1 -> index s' k = index s k) /\
  Transactions_Swap s' 0 1 = Returns s.
Proof.
  cbv zeta.
  match goal with
  | |- Transactions_Swap ?s 0 1 = Returns ?s' /\ _ =>
      exact (conj eq_refl (Transactions_Swap_exchanges s s' 0 1 eq_refl))
  end.
Defined.

Lemma Less_by_index (s s' : Transactions) (i j i' j' : Z) :
  index s' i' = index s i -> index s' j' = index s j ->
  Transactions_Less s' i' j' = Transactions_Less s i j.
Proof. unfold Transactions_Less. now intros -> ->. Qed.

(** X14: after a [Swap(i, j)] that returns, [Less(i, j)] is what
    [Less(j, i)] was and [Less(j, i)] what [Less(i, j)] was, panics
    included, and [Less] at indices other than [i] and [j] is as before. *)
Theorem Transactions_Less_after_Swap (s s' : Transactions) (i j : Z) :
  Transactions_Swap s i j = Returns s' ->
  Transactions_Less s' i j = Transactions_Less s j i /\
  Transactions_Less s' j i = Transactions_Less s i j /\
  (forall a b, a <> i -> a <> j -> b <> i -> b <> j ->
     Transactions_Less s' a b = Transactions_Less s a b).
Proof.
  intros H. pose proof (Swap_index _ _ _ _ H) as Hidx.
  assert (Hi' : index s' i = index s j).
  { rewrite Hidx. destruct (Z.eqb_spec i j) as [-> | _]; [reflexivity |].
    now rewrite Z.eqb_refl. }
  assert (Hj' : index s' j = index s i) by (now rewrite Hidx, Z.eqb_refl).
  refine (conj _ (conj _ _)).
  - now apply Less_by_index.
  - now apply Less_by_index.
  - intros a b Hai Haj Hbi Hbj. apply Less_by_index; rewrite Hidx.
    + destruct (Z.eqb_spec a j); [contradiction |].
      now destruct (Z.eqb_spec a i); [contradiction |].
    + destruct (Z.eqb_spec b j); [contradiction |].
      now destruct (Z.eqb_spec b i); [contradiction |].
Qed.

Lemma Transactions_Less_after_Swap_witness :
  let first := Examples.created (NewTime {| time.sec := 1306479600; time.nsec := 0 |}) in
  let second :=
    Examples.created (NewTime {| time.sec := 1306479600; time.nsec := 764061000 |}) in
  let s := [first; second; Examples.created NullTime_zero] in
  let s' := [second; first; Examples.created NullTime_zero] in
  Transactions_Swap s 0 1 = Returns s' /\
  Transactions_Less s' 0 1 = Transactions_Less s 1 0 /\
  Transactions_Less s' 1 0 = Transactions_Less s 0 1 /\
  (forall a b, a <> 0 -> a <> 1 -> b <> 0 -> b <> 1 ->
     Transactions_Less s' a b = Transactions_Less s a b).
Proof.
  cbv zeta.
  match goal with
  | |- Transactions_Swap ?s 0 1 = Returns ?s' /\ _ =>
      exact (conj eq_refl (Transactions_Less_after_Swap s s' 0 1 eq_refl))
  end.
Defined.

Lemma Less_inv (s : Transactions) (i j : Z) (b : bool) :
  Transactions_Less s i j = Returns b ->
  exists ti tj t u,
    index s i = Returns ti /\ index s j = Returns tj /\
    NullTime_Time (Transaction_CreatedAt ti) = Some t /\
    NullTime_Time (Transaction_CreatedAt tj) = Some u /\
    b = time.Before t u.
Proof.
  unfold Transactions_Less. intros H.
  destruct (index s i) as [ti | p]; [| discriminate].
  destruct (NullTime_Time (Transaction_CreatedAt ti)) as [t |] eqn:Et; [| discriminate].
  destruct (index s j) as [tj | p]; [| discriminate].
  destruct (NullTime_Time (Transaction_CreatedAt tj)) as [u |] eqn:Eu; [| discriminate].
  cbn [deref] in H. injection H as <-. now exists ti, tj, t, u.
Qed.

Lemma all_created_index (s : Transactions) (i : Z) :
  all_created s -> 0 <= i < Transactions_Len s ->
  exists ti t, index s i = Returns ti /\ NullTime_Time (Transaction_CreatedAt ti) = Some t.
Proof.
  intros Hall Hi. apply index_in_range in Hi as [ti Hti]. exists ti.
  pose proof Hti as Hin. apply index_Returns in Hin as [_ Hin].
  apply nth_error_In in Hin. unfold all_created in Hall.
  rewrite Forall_forall in Hall. specialize (Hall _ Hin).
  destruct (NullTime_Time (Transaction_CreatedAt ti)) as [t |]; [| contradiction].
  now exists t.
Qed.

(** X13: on a slice whose transactions all have their time of creation
    set, [Less] returns for every two indices of the slice and is a strict
    weak order, as sorting needs it: no index is less than itself, less is
    never so in both directions, and both less and not-less are
    transitive. *)
Theorem Transactions_Less_strict_weak_order (s : Transactions) :
  all_created s ->
  (forall i j, 0 <= i < Transactions_Len s -> 0 <= j < Transactions_Len s ->
     exists b, Transactions_Less s i j = Returns b) /\
  (forall i, 0 <= i < Transactions_Len s -> Transactions_Less s i i = Returns false) /\
  (forall i j, Transactions_Less s i j = Returns true ->
     Transactions_Less s j i = Returns false) /\
  (forall i j k, Transactions_Less s i j = Returns true ->
     Transactions_Less s j k = Returns true -> Transactions_Less s i k = Returns true) /\
  (forall i j k, Transactions_Less s i j = Returns false ->
     Transactions_Less s j k = Returns false -> Transactions_Less s i k = Returns false).
Proof.
  intros Hall. refine (conj _ (conj _ (conj _ (conj _ _)))).
  - intros i j Hi Hj.
    destruct (all_created_index s i Hall Hi) as (ti & t & Eti & Et).
    destruct (all_created_index s j Hall Hj) as (tj & u & Etj & Eu).
    exists (time.Before t u). unfold Transactions_Less.
    now rewrite Eti, Et, Etj, Eu.
  - intros i Hi.
    destruct (all_created_index s i Hall Hi) as (ti & t & Eti & Et).
    unfold Transactions_Less. rewrite Eti, Et. cbn [deref]. f_equal.
    unfold time.Before. now rewrite !Z.ltb_irrefl, Z.eqb_refl.
  - intros i j H.
    destruct (Less_inv _ _ _ _ H) as (ti & tj & t & u & Eti & Etj & Et & Eu & Hb).
    unfold Transactions_Less. rewrite Eti, Et, Etj, Eu. cbn [deref]. f_equal.
    symmetry in Hb. unfold time.Before in *.
    rewrite orb_true_iff, andb_true_iff, !Z.ltb_lt, Z.eqb_eq in Hb.
    apply orb_false_iff. rewrite andb_false_iff, !Z.ltb_ge, Z.eqb_neq. lia.
  - intros i j k H1 H2.
    destruct (Less_inv _ _ _ _ H1) as (ti & tj & t & u & Eti & Etj & Et & Eu & Hb1).
    destruct (Less_inv _ _ _ _ H2) as (tj' & tk & u' & v & Etj' & Etk & Eu' & Ev & Hb2).
    rewrite Etj in Etj'. injection Etj' as <-. rewrite Eu in Eu'. injection Eu' as <-.
    unfold Transactions_Less. rewrite Eti, Et, Etk, Ev. cbn [deref]. f_equal.
    symmetry in Hb1, Hb2. unfold time.Before in *.
    rewrite orb_true_iff, andb_true_iff, !Z.ltb_lt, Z.eqb_eq in *. lia.
  - intros i j k H1 H2.
    destruct (Less_inv _ _ _ _ H1) as (ti & tj & t & u & Eti & Etj & Et & Eu & Hb1).
    destruct (Less_inv _ _ _ _ H2) as (tj' & tk & u' & v & Etj' & Etk & Eu' & Ev & Hb2).
    rewrite Etj in Etj'. injection Etj' as <-. rewrite Eu in Eu'. injection Eu' as <-.
    unfold Transactions_Less. rewrite Eti, Et, Etk, Ev. cbn [deref]. f_equal.
    symmetry in Hb1, Hb2. unfold time.Before in *.
    rewrite orb_false_iff, andb_false_iff, !Z.ltb_ge, Z.eqb_neq in *. lia.
Qed.

Lemma Transactions_Less_strict_weak_order_witness :
  let first := Examples.created (NewTime {| time.sec := 1306479600; time.nsec := 0 |}) in
  let second :=
    Examples.created (NewTime {| time.sec := 1306479600; time.nsec := 764061000 |}) in
  let s := [second; first; second] in
  all_created s /\
  (exists b, Transactions_Less s 1 2 = Returns b) /\
  Transactions_Less s 2 2 = Returns false.
Proof.
  cbv zeta.
  set (s := [Examples.created (NewTime {| time.sec := 1306479600; time.nsec := 764061000 |});
             Examples.created (NewTime {| time.sec := 1306479600; time.nsec := 0 |});
             Examples.created (NewTime {| time.sec := 1306479600; time.nsec := 764061000 |})]).
  assert (Hall : all_created s) by (repeat constructor; discriminate).
  pose proof (Transactions_Less_strict_weak_order s Hall) as (Hret & Hirr & _).
  refine (conj Hall (conj (Hret 1 2 _ _) (Hirr 2 _))); cbn; lia.
Defined.

(** ** The result of the check of the card's security code *)

(** X10: of the five predicates on the result of the check of the security
    code at most one holds, and one holds exactly for the codes M, Y, N, P,
    S and U. *)
Theorem CVVResult_predicates_exclusive (c : CVVResult) :
  let holds := [CVVResult_IsMatch c; CVVResult_IsNoMatch c; CVVResult_NotProcessed c;
                CVVResult_ShouldHaveBeenPresent c; CVVResult_UnableToProcess c] in
  (List.length (filter (fun b => b) holds) <= 1)%nat /\
  (existsb (fun b => b) holds = true <->
   In (CVVResult_Code c) ["M"; "Y"; "N"; "P"; "S"; "U"]).
Proof.
  cbv zeta. unfold CVVResult_IsMatch, CVVResult_IsNoMatch, CVVResult_NotProcessed,
    CVVResult_ShouldHaveBeenPresent, CVVResult_UnableToProcess.
  set (code := CVVResult_Code c). clearbody code. cbn [In existsb filter].
  destruct (String.eqb_spec code "M") as [-> | HM]; [cbn; split; [lia | tauto] |].
  destruct (String.eqb_spec code "Y") as [-> | HY]; [cbn; split; [lia | tauto] |].
  destruct (String.eqb_spec code "N") as [-> | HN]; [cbn; split; [lia | tauto] |].
  destruct (String.eqb_spec code "P") as [-> | HP]; [cbn; split; [lia | tauto] |].
  destruct (String.eqb_spec code "S") as [-> | HS]; [cbn; split; [lia | tauto] |].
  destruct (String.eqb_spec code "U") as [-> | HU]; [cbn; split; [lia | tauto] |].
  cbn. split; [lia |]. split; [discriminate |]. intuition congruence.
Qed.

(** ** The JSON text of a nullable integer *)

Lemma FormatInt_not_null (v : Z) : is_int v -> strconv.FormatInt v <> "null".
Proof.
  intros Hv E. pose proof (ParseInt_FormatInt v Hv) as H.
  rewrite E in H. discriminate H.
Qed.

(** X2: [MarshalJSON] returns no error; its text is [null] exactly for an
    integer that is not valid; the text of a valid one is a decimal that
    parses back to the integer; and two nullable integers with the same
    text agree on validity and, when valid, on the value. *)
Theorem NullInt_MarshalJSON_text (n m : NullInt) :
  is_int (NullInt_Int n) -> is_int (NullInt_Int m) ->
  snd (NullInt_MarshalJSON n) = None /\
  (fst (NullInt_MarshalJSON n) = "null" <-> NullInt_Valid n = false) /\
  (NullInt_Valid n = true ->
   strconv.ParseInt (fst (NullInt_MarshalJSON n)) = Ok (NullInt_Int n)) /\
  (fst (NullInt_MarshalJSON n) = fst (NullInt_MarshalJSON m) ->
   NullInt_Valid n = NullInt_Valid m /\
   (NullInt_Valid n = true -> NullInt_Int n = NullInt_Int m)).
Proof.
  intros Hn Hm. unfold NullInt_MarshalJSON.
  destruct (NullInt_Valid n), (NullInt_Valid m); cbn [fst snd];
    refine (conj eq_refl (conj _ (conj _ _))).
  - split; [intros E; now apply FormatInt_not_null in E | discriminate].
  - intros _. now apply ParseInt_FormatInt.
  - intros E. split; [reflexivity | intros _].
    pose proof (ParseInt_FormatInt _ Hn) as H1. rewrite E in H1.
    rewrite (ParseInt_FormatInt _ Hm) in H1. congruence.
  - split; [intros E; now apply FormatInt_not_null in E | discriminate].
  - intros _. now apply ParseInt_FormatInt.
  - intros E. now apply FormatInt_not_null in E.
  - now split.
  - discriminate.
  - intros E. symmetry in E. now apply FormatInt_not_null in E.
  - now split.
  - discriminate.
  - intros _. split; [reflexivity | discriminate].
Qed.

Lemma NullInt_MarshalJSON_text_witness :
  is_int 23 /\ is_int 0 /\
  NullInt_MarshalJSON (NewInt 23) = ("23", None) /\
  strconv.ParseInt (fst (NullInt_MarshalJSON (NewInt 23))) = Ok 23 /\
  (fst (NullInt_MarshalJSON NullInt_zero) = "null" <-> NullInt_Valid NullInt_zero = false).
Proof.
  assert (H23 : is_int 23) by (unfold is_int; lia).
  assert (H0 : is_int 0) by (unfold is_int; lia).
  pose proof (NullInt_MarshalJSON_text (NewInt 23) NullInt_zero H23 H0) as (_ & _ & P & _).
  pose proof (NullInt_MarshalJSON_text NullInt_zero (NewInt 23) H0 H23) as (_ & N & _).
  exact (conj H23 (conj H0 (conj eq_refl (conj (P eq_refl) N)))).
Defined.

Lemma NullInt_round_trip_witness :
  exists s,
    NullInt_MarshalXML (NewInt (-7)) [] (start "net_terms")
      = ([] ++ tokens (Elem (start "net_terms") [CharData s]), None) /\
    NullInt_UnmarshalXML NullInt_zero [CharData s] (start "net_terms") = (NewInt (-7), None).
Proof.
  apply (NullInt_round_trip (-7) [] (start "net_terms") NullInt_zero).
  - lia.
  - discriminate.
Defined.

(** ** The encoding of a transaction *)

Lemma MarshalText_fails (str : net.IP -> string) (ip : net.IP) :
  net.marshals ip = false ->
  net.MarshalText str ip = Err (AddrError "invalid IP address").
Proof.
  unfold net.MarshalText, net.marshals. intros H.
  destruct (Nat.eqb (List.length ip) 0); [discriminate |].
  destruct (Nat.eqb (List.length ip) net.IPv4len); [discriminate |].
  destruct (Nat.eqb (List.length ip) net.IPv6len); [discriminate |].
  reflexivity.
Qed.

Lemma seq_apply (a b : writer) (e : Encoder) :
  total a -> (a >> b) e = b (e ++ emitted a).
Proof. intros Ha. unfold seq. now rewrite Ha. Qed.

Lemma seq_stops (a b : writer) (e e' : Encoder) (err : liberror) :
  a e = (e', Some err) -> (a >> b) e = (e', Some err).
Proof. intros Ha. unfold seq. now rewrite Ha. Qed.

(** X9: whether [e.Encode(dst)] inside [Transaction.MarshalXML] succeeds
    depends on the IP address alone.  With no address or one of 4 or 16
    bytes the element [transaction] is written whole, ending with the
    account; with any other address the encoder stops right after the start
    tag of [ip_address], the element [transaction] is left open, and the
    method still returns no error. *)
Theorem Transaction_MarshalXML_address (X : Externals) (t : Transaction) (e : Encoder)
    (st : StartElement) :
  exists before,
    snd (Transaction_dst_marshal X t e)
      = (if net.marshals (Transaction_IPAddress t) then None
         else Some (AddrError "invalid IP address")) /\
    Transaction_MarshalXML X t e st
      = (e ++ TStart (start "transaction") :: before
           ++ (if net.marshals (Transaction_IPAddress t)
               then emitted (Account_marshal (Transaction_Account t))
                      ++ [TEnd "transaction"]
               else [TStart (start "ip_address")]), None).
Proof.
  destruct (net.marshals (Transaction_IPAddress t)) eqn:Hip.
  - destruct (Transaction_dst_marshal_shape X t Hip) as (before & Hbefore & E).
    pose proof (total_Account (Transaction_Account t)) as Hacc.
    exists (emitted before). unfold Transaction_MarshalXML. rewrite E.
    rewrite (total_field_struct "transaction" _ (total_seq _ _ Hbefore Hacc) e).
    rewrite emitted_field_struct, emitted_seq by auto using total_seq.
    cbn [snd]. now rewrite <- app_assoc.
  - pose proof (MarshalText_fails (IP_String X) _ Hip) as Htxt.
    unfold Transaction_MarshalXML, Transaction_dst_marshal.
    destruct (Transaction_IPAddress t) as [| b ip] eqn:Eip; [discriminate Hip |].
    rewrite Htxt.
    match goal with
    | |- context [seq (seq ?b0 (field_text _ _)) _] =>
        assert (Hb : total b0) by total_solve; set (B := b0) in *
    end.
    clearbody B. exists (emitted B).
    assert (Hrun : field_struct "transaction"
                     (B >> field_text "ip_address" (Err (AddrError "invalid IP address"))
                        >> Account_marshal (Transaction_Account t)) e
                   = (e ++ TStart (start "transaction") :: emitted B
                        ++ [TStart (start "ip_address")],
                      Some (AddrError "invalid IP address"))).
    { unfold field_struct. apply seq_stops.
      rewrite seq_apply by apply total_emit.
      apply seq_stops. rewrite seq_apply by assumption.
      unfold field_text. rewrite seq_apply by apply total_emit.
      unfold fail, emitted, emit. cbn [fst app].
      now rewrite <- !app_assoc. }
    rewrite Hrun. now split.
Qed.

(** ** Children of a subscription that change nothing, or end the decoding *)

(** Settles every test of the name of [st] against a tag, once the name is
    known ([Hname]) or known to be no tag ([Hnone]). *)
Ltac settle_tags st tac :=
  repeat match goal with
         | |- context [String.eqb (Name st) ?n] =>
             first [ replace (String.eqb (Name st) n) with false by tac
                   | replace (String.eqb (Name st) n) with true by tac ]
         end.

Lemma Subscription_v_child_passed_over (X : Externals) (st : StartElement)
    (d : list Node) (v : Subscription) :
  ~ In (Name st) Subscription_tags -> Subscription_v_child X st d v = Ok v.
Proof.
  intros Hnone. unfold Subscription_v_child, field, field_path.
  settle_tags st ltac:(symmetry; apply String.eqb_neq; intros E; apply Hnone;
                       rewrite E; apply In_existsb; reflexivity).
  cbn [bind]. now destruct v.
Qed.

Lemma Subscription_v_child_net_terms_malformed (X : Externals) (st : StartElement)
    (c : list Node) (err : liberror) (v : Subscription) :
  Name st = "net_terms" -> DecodeElement_int c = Err err ->
  Subscription_v_child X st c v = Ok v.
Proof.
  intros Hname Hdec. unfold Subscription_v_child, field, field_path.
  settle_tags st ltac:(rewrite Hname; reflexivity).
  cbn [bind]. unfold unmarshaler, NullInt_UnmarshalXML. rewrite Hdec.
  cbn [bind]. now destruct v.
Qed.

Lemma Subscription_v_child_int_malformed (X : Externals) (st : StartElement)
    (c : list Node) (err : liberror) (v : Subscription) :
  In (Name st) ["unit_amount_in_cents"; "quantity"; "total_amount_in_cents"; "tax_in_cents"] ->
  DecodeElement_int c = Err err ->
  Subscription_v_child X st c v = Err err.
Proof.
  intros Hin Hdec. cbn [In] in Hin.
  destruct Hin as [Hname | [Hname | [Hname | [Hname | []]]]]; symmetry in Hname;
    unfold Subscription_v_child, field, field_path;
    settle_tags st ltac:(rewrite Hname; reflexivity);
    cbn [bind]; unfold dec_int; rewrite Hdec; reflexivity.
Qed.

Lemma Subscription_UnmarshalXML_skips (X : Externals) (s : Subscription)
    (d1 d2 : list Node) (st : StartElement) (c : list Node) (start : StartElement) :
  (forall v, Subscription_v_child X st c v = Ok v) ->
  Subscription_UnmarshalXML X s (d1 ++ Elem st c :: d2) start
  = Subscription_UnmarshalXML X s (d1 ++ d2) start.
Proof.
  intros Hskip. unfold Subscription_UnmarshalXML, Subscription_v_decode.
  destruct (expect "subscription" start); cbn [bind]; [| reflexivity].
  rewrite !children_app.
  match goal with
  | |- context [children _ d1 ?init] =>
      destruct (children (Subscription_v_child X) d1 init) as [v1 | e1]
  end; cbn [bind]; [| reflexivity].
  cbn [children]. now rewrite Hskip.
Qed.

(** X5: character data and elements under a name that no field reads
    have no effect on [Subscription.UnmarshalXML], wherever they stand
    among the children. *)
Theorem Subscription_UnmarshalXML_passes_over (X : Externals) (s : Subscription)
    (d1 d2 : list Node) (k : Node) (start : StartElement) :
  passed_over k ->
  Subscription_UnmarshalXML X s (d1 ++ k :: d2) start
  = Subscription_UnmarshalXML X s (d1 ++ d2) start.
Proof.
  intros Hk. destruct k as [st c | data].
  - apply Subscription_UnmarshalXML_skips. intros v.
    now apply Subscription_v_child_passed_over.
  - unfold Subscription_UnmarshalXML, Subscription_v_decode.
    destruct (expect "subscription" start); cbn [bind]; [| reflexivity].
    now rewrite !children_app.
Qed.

Lemma Subscription_UnmarshalXML_passes_over_witness :
  passed_over (Examples.leaf "collection_method" "automatic") /\
  Subscription_UnmarshalXML Examples.externals Subscription_zero
    ([Examples.leaf "uuid" "44f83d7cba354d5b84812419f923ea96"]
       ++ Examples.leaf "collection_method" "automatic"
       :: [Examples.leaf "quantity" "1"]) (start "subscription")
  = Subscription_UnmarshalXML Examples.externals Subscription_zero
      ([Examples.leaf "uuid" "44f83d7cba354d5b84812419f923ea96"]
         ++ [Examples.leaf "quantity" "1"]) (start "subscription").
Proof.
  assert (H : passed_over (Examples.leaf "collection_method" "automatic"))
    by (vm_compute; intuition discriminate).
  exact (conj H (Subscription_UnmarshalXML_passes_over Examples.externals Subscription_zero
                   [Examples.leaf "uuid" "44f83d7cba354d5b84812419f923ea96"]
                   [Examples.leaf "quantity" "1"] _ (start "subscription") H)).
Defined.

(** X6: an element [net_terms] whose text is no [int] has no effect on
    [Subscription.UnmarshalXML]: the subscription is decoded as if the
    element were not there, and no error is returned for it. *)
Theorem Subscription_UnmarshalXML_malformed_net_terms (X : Externals) (s : Subscription)
    (d1 d2 : list Node) (st : StartElement) (c : list Node) (err : liberror)
    (start : StartElement) :
  Name st = "net_terms" -> DecodeElement_int c = Err err ->
  Subscription_UnmarshalXML X s (d1 ++ Elem st c :: d2) start
  = Subscription_UnmarshalXML X s (d1 ++ d2) start.
Proof.
  intros Hname Hdec. apply Subscription_UnmarshalXML_skips. intros v.
  now apply (Subscription_v_child_net_terms_malformed X st c err).
Qed.

Lemma Subscription_UnmarshalXML_malformed_net_terms_witness :
  DecodeElement_int [CharData "thirty"]
    = Err (NumError "ParseInt" "thirty" strconv.ErrSyntax) /\
  Subscription_UnmarshalXML Examples.externals Subscription_zero
    ([Examples.leaf "net_terms" "10"] ++ Examples.leaf "net_terms" "thirty"
       :: [Examples.leaf "quantity" "1"]) (start "subscription")
  = Subscription_UnmarshalXML Examples.externals Subscription_zero
      ([Examples.leaf "net_terms" "10"] ++ [Examples.leaf "quantity" "1"])
      (start "subscription").
Proof.
  exact (conj eq_refl
           (Subscription_UnmarshalXML_malformed_net_terms Examples.externals
              Subscription_zero [Examples.leaf "net_terms" "10"]
              [Examples.leaf "quantity" "1"] (start "net_terms") [CharData "thirty"]
              (NumError "ParseInt" "thirty" strconv.ErrSyntax) (start "subscription")
              eq_refl eq_refl)).
Defined.

(** X7: an element [unit_amount_in_cents], [quantity],
    [total_amount_in_cents] or [tax_in_cents] whose text is no [int], after
    children that decode, ends [Subscription.UnmarshalXML] with the error
    of the conversion, whatever follows, and the subscription is left as it
    was. *)
Theorem Subscription_UnmarshalXML_malformed_int (X : Externals) (s : Subscription)
    (d1 d2 : list Node) (st : StartElement) (c : list Node) (err : liberror)
    (start : StartElement) :
  In (Name st) ["unit_amount_in_cents"; "quantity"; "total_amount_in_cents"; "tax_in_cents"] ->
  DecodeElement_int c = Err err ->
  snd (Subscription_UnmarshalXML X s d1 start) = None ->
  Subscription_UnmarshalXML X s (d1 ++ Elem st c :: d2) start = (s, Some err).
Proof.
  intros Hin Hdec Hd1. revert Hd1.
  unfold Subscription_UnmarshalXML, Subscription_v_decode.
  destruct (expect "subscription" start); cbn [bind]; [| discriminate].
  rewrite children_app.
  match goal with
  | |- context [children _ d1 ?init] =>
      destruct (children (Subscription_v_child X) d1 init) as [v1 | e1]
  end; cbn [bind snd]; [intros _ | discriminate].
  cbn [children]. now rewrite (Subscription_v_child_int_malformed X st c err).
Qed.

Lemma Subscription_UnmarshalXML_malformed_int_witness :
  snd (Subscription_UnmarshalXML Examples.externals Subscription_zero
         [Examples.leaf "net_terms" "10"] (start "subscription")) = None /\
  Subscription_UnmarshalXML Examples.externals Subscription_zero
    ([Examples.leaf "net_terms" "10"] ++ Examples.leaf "quantity" "one"
       :: [Examples.leaf "uuid" "44f83d7cba354d5b84812419f923ea96"]) (start "subscription")
  = (Subscription_zero, Some (NumError "ParseInt" "one" strconv.ErrSyntax)).
Proof.
  exact (conj eq_refl
           (Subscription_UnmarshalXML_malformed_int Examples.externals
              Subscription_zero [Examples.leaf "net_terms" "10"]
              [Examples.leaf "uuid" "44f83d7cba354d5b84812419f923ea96"]
              (start "quantity") [CharData "one"]
              (NumError "ParseInt" "one" strconv.ErrSyntax) (start "subscription")
              (or_intror (or_introl eq_refl)) eq_refl eq_refl)).
Defined.


(** ** Add-ons and pending subscription, written and read back *)


Lemma emitted_emit (ts : list Token) : emitted (emit ts) = ts.
Proof. reflexivity. Qed.

Lemma emitted_skip : emitted skip = [].
Proof. reflexivity. Qed.





Lemma emitted_each_cons {A} (f : A -> writer) (a : A) (l : list A) :
  (forall x, total (f x)) ->
  emitted (each f (a :: l)) = emitted (f a) ++ emitted (each f l).
Proof.
  intros Hf. cbn [each]. apply emitted_seq; [apply Hf | now apply total_each].
Qed.







(** ** The outcomes of [Parse] *)

Lemma switch_None_iff (local : string) :
  webhooks.switch local = None <-> ~ In local webhooks.switch_labels.
Proof.
  split.
  - intros H Hin. unfold webhooks.switch_labels in Hin. cbn [In] in Hin.
    repeat (destruct Hin as [<- | Hin]; [discriminate H |]).
    contradiction.
  - intros H. unfold webhooks.switch.
    repeat match goal with
           | |- context [String.eqb local ?c] =>
               destruct (String.eqb_spec local c) as [-> | _];
               [exfalso; apply H; apply In_existsb; reflexivity |]
           end.
    reflexivity.
Qed.

Lemma Unmarshal_type_name (X : Externals) (n : webhooks.Payload)
    (dst dst' : webhooks.Notification) :
  webhooks.Unmarshal X n dst = Ok dst' -> webhooks.type_name dst' = webhooks.type_name dst.
Proof.
  destruct n as [err | root d]; [discriminate |].
  destruct dst; cbn [webhooks.Unmarshal]; intros H;
    match type of H with
    | bind ?r _ = Ok _ => destruct r as [v |]; cbn [bind] in H; [| discriminate H]
    end;
    try (injection H as <-; reflexivity).
  destruct v as [[[a i] s] t]. now injection H as <-.
Qed.

Lemma Parse_inv (X : Externals) (r : webhooks.Reader) (resp : webhooks.ParseResponse) :
  fst (webhooks.Parse X r) = Some resp ->
  exists root d zero,
    r = webhooks.Reads (webhooks.Document root d) /\
    webhooks.Message resp = Name root /\
    webhooks.switch (Name root) = Some zero /\
    webhooks.Unmarshal X (webhooks.Document root d) zero = Ok (webhooks.Data resp).
Proof.
  destruct r as [err | [err | root d]]; [discriminate | discriminate |].
  cbn [webhooks.Parse webhooks.Unmarshal_notificationName].
  destruct (webhooks.switch (Name root)) as [zero |] eqn:Esw; [| discriminate].
  destruct (webhooks.Unmarshal X (webhooks.Document root d) zero) as [dst |] eqn:Eun;
    [| discriminate].
  cbn [fst]. intros [= <-]. now exists root, d, zero.
Qed.

(** X15: [Parse] returns either a response or an error, never both and
    never neither.  The error is [ErrUnknownNotification] exactly when the
    payload was read and is well formed and the name of its root is the
    label of no case of the [switch]; the [Name()] of the error is then
    that name. *)
Theorem Parse_outcome (X : Externals) (r : webhooks.Reader) :
  (fst (webhooks.Parse X r) = None <-> snd (webhooks.Parse X r) <> None) /\
  ((exists e, snd (webhooks.Parse X r) = Some (webhooks.UnknownNotification e)) <->
   (exists root d, r = webhooks.Reads (webhooks.Document root d) /\
                   ~ In (Name root) webhooks.switch_labels)) /\
  (forall e, snd (webhooks.Parse X r) = Some (webhooks.UnknownNotification e) ->
     exists root d, r = webhooks.Reads (webhooks.Document root d) /\
                    webhooks.ErrUnknownNotification_Name e = Name root).
Proof.
  destruct r as [err | [err | root d]].
  - cbn. refine (conj _ (conj _ _)).
    + split; [discriminate | reflexivity].
    + split; [intros [e [=]] | intros (root & d & [=] & _)].
    + intros e [=].
  - cbn. refine (conj _ (conj _ _)).
    + split; [discriminate | reflexivity].
    + split; [intros [e [=]] | intros (root & d & [=] & _)].
    + intros e [=].
  - cbn [webhooks.Parse webhooks.Unmarshal_notificationName].
    destruct (webhooks.switch (Name root)) as [zero |] eqn:Esw.
    + assert (Hin : In (Name root) webhooks.switch_labels).
      { destruct (in_dec string_dec (Name root) webhooks.switch_labels) as [Hin | Hout];
          [assumption |].
        apply switch_None_iff in Hout. congruence. }
      destruct (webhooks.Unmarshal X (webhooks.Document root d) zero) as [dst | err];
        cbn [fst snd]; refine (conj _ (conj _ _)).
      * split; [discriminate | intros H; now elim H].
      * split; [intros [e [=]] | intros (root' & d' & [= <- <-] & Hout); contradiction].
      * intros e [=].
      * split; [discriminate | reflexivity].
      * split; [intros [e [=]] | intros (root' & d' & [= <- <-] & Hout); contradiction].
      * intros e [=].
    + cbn [fst snd]. refine (conj _ (conj _ _)).
      * split; [discriminate | reflexivity].
      * split; [intros _ | intros _; eauto].
        exists root, d. split; [reflexivity |]. now apply switch_None_iff.
      * intros e [= <-]. now exists root, d.
Qed.

(** X16: the message of a response decides the type of its data: the
    message is the label of a case of the [switch], and two responses of
    [Parse] with the same message hold notifications of the same type,
    whatever the payloads. *)
Theorem Parse_message_gives_type (X X' : Externals) (r r' : webhooks.Reader)
    (resp resp' : webhooks.ParseResponse) :
  fst (webhooks.Parse X r) = Some resp ->
  fst (webhooks.Parse X' r') = Some resp' ->
  webhooks.Message resp = webhooks.Message resp' ->
  In (webhooks.Message resp) webhooks.switch_labels /\
  webhooks.type_name (webhooks.Data resp) = webhooks.type_name (webhooks.Data resp').
Proof.
  intros H H' Hmsg.
  apply Parse_inv in H as (root & d & zero & _ & Hm & Hsw & Hun).
  apply Parse_inv in H' as (root' & d' & zero' & _ & Hm' & Hsw' & Hun').
  apply Unmarshal_type_name in Hun, Hun'.
  rewrite Hm in Hmsg |- *. rewrite Hm' in Hmsg. rewrite <- Hmsg in Hsw'.
  split.
  - destruct (in_dec string_dec (Name root) webhooks.switch_labels) as [Hin | Hout];
      [assumption |].
    apply switch_None_iff in Hout. congruence.
  - congruence.
Qed.

Lemma Parse_message_gives_type_witness :
  let r := webhooks.minimal webhooks.NewInvoice in
  let r' :=
    webhooks.Reads
      (webhooks.Document
         {| Name := webhooks.NewInvoice; Attrs := [] |}
         [Elem (start "account") [Examples.leaf "account_code" "1"]]) in
  exists resp resp',
    fst (webhooks.Parse Examples.externals r) = Some resp /\
    fst (webhooks.Parse Examples.externals r') = Some resp' /\
    In (webhooks.Message resp) webhooks.switch_labels /\
    webhooks.type_name (webhooks.Data resp) = webhooks.type_name (webhooks.Data resp').
Proof.
  intros r r'. eexists. eexists.
  refine (conj eq_refl (conj eq_refl _)).
  match goal with
  | |- In (webhooks.Message ?a) _ /\ _ = webhooks.type_name (webhooks.Data ?b) =>
      exact (Parse_message_gives_type Examples.externals Examples.externals r r' a b
               eq_refl eq_refl eq_refl)
  end.
Defined.

(** ** Children of a notification that no field reads *)

Lemma children_unread {A} (child : StartElement -> list Node -> A -> result A)
    (d1 d2 : list Node) (k : Node) (v : A) :
  (forall st c v, ~ In (Name st) webhooks.notification_tags -> child st c v = Ok v) ->
  webhooks.unread k ->
  children child (d1 ++ k :: d2) v = children child (d1 ++ d2) v.
Proof.
  intros Hchild Hk. rewrite !children_app.
  destruct (children child d1 v) as [v1 | e1]; cbn [bind]; [| reflexivity].
  destruct k as [st c | data]; cbn [children]; [| reflexivity].
  now rewrite (Hchild st c v1 Hk).
Qed.

Ltac unread_field st H :=
  unfold field;
  repeat match goal with
         | |- context [String.eqb (Name st) ?n] =>
             replace (String.eqb (Name st) n) with false
               by (symmetry; apply String.eqb_neq; intros E; apply H; rewrite E;
                   apply In_existsb; reflexivity)
         end;
  reflexivity.

(** X17: character data and elements other than [account],
    [subscription], [invoice], [transaction] and [shipping_address]
    directly inside the root have no effect on [Parse], whatever the
    notification is. *)
Theorem Parse_passes_over (X : Externals) (root : StartElement) (d1 d2 : list Node)
    (k : Node) :
  webhooks.unread k ->
  webhooks.Parse X (webhooks.Reads (webhooks.Document root (d1 ++ k :: d2)))
  = webhooks.Parse X (webhooks.Reads (webhooks.Document root (d1 ++ d2))).
Proof.
  intros Hk. cbn [webhooks.Parse webhooks.Unmarshal_notificationName].
  destruct (webhooks.switch (Name root)) as [dst |]; [| reflexivity].
  assert (E : webhooks.Unmarshal X (webhooks.Document root (d1 ++ k :: d2)) dst
              = webhooks.Unmarshal X (webhooks.Document root (d1 ++ d2)) dst).
  { destruct dst; cbn [webhooks.Unmarshal];
      unfold webhooks.with_account, webhooks.with_subscription, webhooks.with_invoice,
        webhooks.with_transaction, webhooks.with_shipping_address, webhooks.with_all;
      (rewrite (children_unread _ d1 d2 k); [reflexivity | | exact Hk]);
      intros st c v H;
      repeat match goal with v : (_ * _)%type |- _ => destruct v end;
      unread_field st H. }
  now rewrite E.
Qed.

Lemma Parse_passes_over_witness :
  webhooks.unread (Examples.leaf "plan_code" "gold") /\
  webhooks.Parse Examples.externals
    (webhooks.Reads
       (webhooks.Document (start webhooks.NewAccount)
          ([CharData " "] ++ Examples.leaf "plan_code" "gold"
             :: [Elem (start "account") [Examples.leaf "account_code" "1"]])))
  = webhooks.Parse Examples.externals
      (webhooks.Reads
         (webhooks.Document (start webhooks.NewAccount)
            ([CharData " "] ++ [Elem (start "account") [Examples.leaf "account_code" "1"]]))).
Proof.
  assert (H : webhooks.unread (Examples.leaf "plan_code" "gold"))
    by (vm_compute; intuition discriminate).
  exact (conj H (Parse_passes_over Examples.externals (start webhooks.NewAccount)
                   [CharData " "]
                   [Elem (start "account") [Examples.leaf "account_code" "1"]] _ H)).
Defined.

(** ** What an update sends *)

Lemma names_field_string (name : string) (o : bool) (v : string) :
  start_names (emitted (field_string name o v))
  = if o && String.eqb v "" then [] else [name].
Proof.
  unfold field_string. destruct (o && String.eqb v ""); [reflexivity |].
  now rewrite emitted_emit, start_names_simple.
Qed.

Lemma names_field_int (name : string) (o : bool) (v : Z) :
  start_names (emitted (field_int name o v)) = if o && (v =? 0) then [] else [name].
Proof.
  unfold field_int. destruct (o && (v =? 0)); [reflexivity |].
  now rewrite emitted_emit, start_names_simple.
Qed.

Lemma names_field_NullInt (name : string) (n : NullInt) :
  name <> "" ->
  start_names (emitted (field_marshaler name NullInt_MarshalXML n))
  = if NullInt_Valid n then [name] else [].
Proof.
  intros Hname. rewrite emitted_field_NullInt by assumption.
  destruct (NullInt_Valid n); [apply start_names_simple | reflexivity].
Qed.

Lemma names_add_on (a : SubscriptionAddOn) :
  start_names (emitted (SubscriptionAddOn_marshal a))
  = "subscription_add_on"
      :: (if String.eqb (SubscriptionAddOn_Type a) "" then [] else ["add_on_type"])
      ++ ["add_on_code"; "unit_amount_in_cents"]
      ++ (if SubscriptionAddOn_Quantity a =? 0 then [] else ["quantity"]).
Proof.
  unfold SubscriptionAddOn_marshal.
  rewrite emitted_field_struct by total_solve.
  rewrite !emitted_seq by total_solve.
  cbn [start_names Name start]. f_equal.
  rewrite !start_names_app, !names_field_string, !names_field_int.
  cbn [andb start_names]. now rewrite <- !app_assoc, app_nil_r.
Qed.

Lemma names_add_ons (l : list SubscriptionAddOn) (name : string) :
  In name (start_names (emitted (each SubscriptionAddOn_marshal l))) <->
  exists a, In a l /\
    (name = "subscription_add_on" \/
     (name = "add_on_type" /\ SubscriptionAddOn_Type a <> "") \/
     name = "add_on_code" \/ name = "unit_amount_in_cents" \/
     (name = "quantity" /\ SubscriptionAddOn_Quantity a <> 0)).
Proof.
  induction l as [| a l IH].
  - cbn. split; [contradiction | now intros (a & [] & _)].
  - rewrite emitted_each_cons by apply total_SubscriptionAddOn.
    rewrite start_names_app, in_app_iff, IH, names_add_on. cbn [In app].
    rewrite !in_app_iff. cbn [In].
    destruct (String.eqb_spec (SubscriptionAddOn_Type a) "") as [Ht | Ht],
             (Z.eqb_spec (SubscriptionAddOn_Quantity a) 0) as [Hq | Hq]; cbn [In];
      (split;
       [ intros [H | (b & Hb & H)];
         [ exists a; split; [now left |]; intuition congruence
         | exists b; split; [now right | exact H] ]
       | intros (b & [<- | Hb] & H);
         [ left; intuition (try congruence); subst name; auto
         | right; now exists b ] ]).
Qed.

Lemma names_add_ons_field (o : option (list SubscriptionAddOn)) (name : string) :
  In name (start_names
             (emitted (field_ptr (field_slice "subscription_add_ons"
                                    SubscriptionAddOn_marshal) o))) <->
  exists l, o = Some l /\
    (name = "subscription_add_ons" \/
     In name (start_names (emitted (each SubscriptionAddOn_marshal l)))).
Proof.
  destruct o as [l |]; cbn [field_ptr].
  - rewrite emitted_field_slice by (intros a; apply total_SubscriptionAddOn).
    cbn [start_names Name start]. rewrite start_names_app, app_nil_r. cbn [In].
    split.
    + intros [H | H]; exists l; split; auto.
    + intros (l' & [= <-] & [H | H]); auto.
  - cbn. split; [contradiction | now intros (l & [=] & _)].
Qed.

Lemma In_unless (x name : string) (c : bool) :
  In x (if c then [] else [name]) <-> x = name /\ c = false.
Proof.
  destruct c; cbn; intuition (try discriminate; auto).
Qed.

Lemma In_when (x name : string) (c : bool) :
  In x (if c then [name] else []) <-> x = name /\ c = true.
Proof.
  destruct c; cbn; intuition (try discriminate; auto).
Qed.

Lemma UpdateSubscription_names (u : UpdateSubscription) (x : string) :
  In x (start_names (emitted (UpdateSubscription_marshal u))) <->
  x = "subscription" \/
  (x = "timeframe" /\ UpdateSubscription_Timeframe u <> "") \/
  (x = "plan_code" /\ UpdateSubscription_PlanCode u <> "") \/
  (x = "quantity" /\ UpdateSubscription_Quantity u <> 0) \/
  (x = "unit_amount_in_cents" /\ UpdateSubscription_UnitAmountInCents u <> 0) \/
  (x = "collection_method" /\ UpdateSubscription_CollectionMethod u <> "") \/
  (x = "net_terms" /\ NullInt_Valid (UpdateSubscription_NetTerms u) = true) \/
  (x = "po_number" /\ UpdateSubscription_PONumber u <> "") \/
  exists l, UpdateSubscription_SubscriptionAddOns u = Some l /\
    (x = "subscription_add_ons" \/
     exists a, In a l /\
       (x = "subscription_add_on" \/
        (x = "add_on_type" /\ SubscriptionAddOn_Type a <> "") \/
        x = "add_on_code" \/ x = "unit_amount_in_cents" \/
        (x = "quantity" /\ SubscriptionAddOn_Quantity a <> 0))).
Proof.
  unfold UpdateSubscription_marshal.
  rewrite emitted_field_struct by total_solve.
  rewrite !emitted_seq by total_solve.
  cbn [start_names Name start].
  rewrite !start_names_app, !names_field_string, !names_field_int,
    names_field_NullInt by discriminate.
  cbn [andb start_names In]. rewrite !in_app_iff, !In_unless, In_when,
    names_add_ons_field.
  rewrite !String.eqb_neq, !Z.eqb_neq. cbn [In].
  setoid_rewrite names_add_ons.
  intuition (try congruence; auto 10).
Qed.

(** Takes a disjunction of cases apart and drops the cases that equate two
    different names. *)
Ltac take_apart H :=
  repeat match goal with
         | H : _ \/ _ |- _ => destruct H
         | H : _ /\ _ |- _ => destruct H
         | H : exists _, _ |- _ => destruct H
         end;
  try discriminate.

(** X18: the encoding of an update names the fields that are set and no
    other: the elements [timeframe], [plan_code], [collection_method] and
    [po_number] are there exactly for a text that is not empty, [net_terms]
    exactly for valid net terms, [subscription_add_ons] exactly for a
    pointer that is not nil, and [quantity] and [unit_amount_in_cents]
    exactly for a number other than 0 or under an add-on (an add-on always
    has its amount, and its quantity when that is not 0).  A quantity or an
    amount of 0 cannot be sent. *)
Theorem UpdateSubscription_sends_what_is_set (u : UpdateSubscription) :
  let names := start_names (emitted (UpdateSubscription_marshal u)) in
  (In "timeframe" names <-> UpdateSubscription_Timeframe u <> "") /\
  (In "plan_code" names <-> UpdateSubscription_PlanCode u <> "") /\
  (In "collection_method" names <-> UpdateSubscription_CollectionMethod u <> "") /\
  (In "po_number" names <-> UpdateSubscription_PONumber u <> "") /\
  (In "net_terms" names <-> NullInt_Valid (UpdateSubscription_NetTerms u) = true) /\
  (In "subscription_add_ons" names <-> UpdateSubscription_SubscriptionAddOns u <> None) /\
  (In "quantity" names <->
   UpdateSubscription_Quantity u <> 0 \/
   exists l a, UpdateSubscription_SubscriptionAddOns u = Some l /\ In a l /\
               SubscriptionAddOn_Quantity a <> 0) /\
  (In "unit_amount_in_cents" names <->
   UpdateSubscription_UnitAmountInCents u <> 0 \/
   exists l, UpdateSubscription_SubscriptionAddOns u = Some l /\ l <> []).
Proof.
  cbv zeta. rewrite !UpdateSubscription_names.
  refine (conj _ (conj _ (conj _ (conj _ (conj _ (conj _ (conj _ _))))))).
  - split; [intros H; take_apart H; assumption | intros H; right; left; now split].
  - split; [intros H; take_apart H; assumption | intros H; do 2 right; left; now split].
  - split; [intros H; take_apart H; assumption | intros H; do 5 right; left; now split].
  - split; [intros H; take_apart H; assumption | intros H; do 7 right; left; now split].
  - split; [intros H; take_apart H; assumption | intros H; do 6 right; left; now split].
  - split; [intros H; take_apart H; congruence |].
    intros H. do 8 right.
    destruct (UpdateSubscription_SubscriptionAddOns u) as [l |]; [| now elim H].
    exists l. split; [reflexivity | now left].
  - split.
    + intros H; take_apart H; [now left | right].
      match goal with
      | E : _ = Some ?l, I : In ?a ?l |- _ => exists l, a; now repeat split
      end.
    + intros [H | (l & a & E & I & H)]; [do 3 right; left; now split |].
      do 8 right. exists l. split; [assumption | right].
      exists a. split; [assumption |]. do 4 right. now split.
  - split.
    + intros H; take_apart H; [now left | right].
      match goal with
      | E : _ = Some ?l, I : In ?a ?l |- _ =>
          exists l; split; [assumption | intros ->; contradiction]
      end.
    + intros [H | (l & E & H)]; [do 4 right; left; now split |].
      do 8 right. exists l. split; [assumption | right].
      destruct l as [| a l]; [now elim H |].
      exists a. split; [now left |]. do 3 right. now left.
Qed.
